(** * PaymentAPI: login with lockout, bearer sessions and a fixed-amount ledger

    The repository holds four variants of one account service:
    - [FileDb] and [App]: the JSON-file store (database.js, required by
      app.js as "./database") and the Express handlers of app.js;
    - [SimpleDatabase]: the in-memory class of appV2.js;
    - [JavaDatabase]: Database.java;
    - [FirebaseDatabase]: the remote-store class, whose methods are
      asynchronous.

    Conventions of the embedding.
    - A JS number that holds cents, a counter or an epoch is a [Z]; the
      values the code computes stay far inside the exact range of a double.
    - A JS array is a [list]; [push] appends at the end, [find] is
      [List.find], [filter] is [List.filter].  An object found in an array
      and then assigned to is the same object as the one in the array: the
      model rewrites that element in place ([Js.update_first], [Js.set_at]).
    - Every synchronous function is given one clock reading [nowMs], the
      value of [Date.now()] for that call.
    - bcrypt, SHA-256 and the JWT library are external: their digest
      functions are section variables. *)

From Stdlib Require Import ZArith List String Ascii Bool Lia DecimalString.
Import ListNotations.
Local Open Scope Z_scope.

(** ** JavaScript helpers *)

Module Js.

(** [!s] for a string: only the empty string is falsy (a missing field is
    falsy as well and is handled the same way by every caller). *)
Definition falsy (s : string) : bool := String.eqb s "".

(** [Math.floor(ms / 1000)]. *)
Definition seconds (nowMs : Z) : Z := nowMs / 1000.

(** [arr.findIndex(p)], with [None] for -1. *)
Fixpoint findIndex {A : Type} (p : A -> bool) (l : list A) : option nat :=
  match l with
  | [] => None
  | x :: r => if p x then Some O
              else match findIndex p r with
                   | Some i => Some (S i)
                   | None => None
                   end
  end.

(** [arr[i] = x] for an index inside the array. *)
Fixpoint set_at {A : Type} (i : nat) (x : A) (l : list A) : list A :=
  match l, i with
  | [], _ => []
  | _ :: r, O => x :: r
  | y :: r, S j => y :: set_at j x r
  end.

(** [const o = arr.find(p); o.field = ...]: the first element that
    satisfies [p] is modified where it sits. *)
Fixpoint update_first {A : Type} (p : A -> bool) (f : A -> A)
         (l : list A) : list A :=
  match l with
  | [] => []
  | x :: r => if p x then f x :: r else x :: update_first p f r
  end.

(** Decimal rendering of an integer, as in a template literal. *)
Definition toString (z : Z) : string := NilZero.string_of_int (Z.to_int z).

End Js.

(** A thrown exception or a returned value. *)
Inductive Result (E A : Type) : Type :=
| Return (a : A)
| Throw (e : E).
Arguments Return {E A} a.
Arguments Throw {E A} e.

(** An amount handed to the caller in currency units: [Dollars c] stands
    for the JS number [c / 100]. *)
Record Dollars : Type := { cents : Z }.

(** ** bcryptjs *)

Module Bcrypt.

(** A bcrypt hash string carries its cost, its salt and the digest. *)
Record hash : Type := { rounds : Z; salt : string; digest : string }.

(** [===] on two hash strings. *)
Definition hash_eqb (a b : hash) : bool :=
  Z.eqb (rounds a) (rounds b) && String.eqb (salt a) (salt b)
  && String.eqb (digest a) (digest b).

Section Kdf.
Variable kdf : Z -> string -> string -> string.

(** [hashSync(data, r)] draws a fresh salt on every call. *)
Definition hashSync (data : string) (r : Z) (fresh : string) : hash :=
  {| rounds := r; salt := fresh; digest := kdf r fresh data |}.

(** [compareSync(data, h)] hashes [data] again with the salt of [h]. *)
Definition compareSync (data : string) (h : hash) : bool :=
  String.eqb (kdf (rounds h) (salt h) data) (digest h).
End Kdf.

End Bcrypt.

(** ** database.js: the JSON-file store *)

Module FileDb.

Record User : Type := {
  u_id : Z;
  username : string;
  password_hash : Bcrypt.hash;
  balance : Z;
  failed_attempts : Z;
  locked_until : Z;
  u_created_at : Z
}.

Record Session : Type := {
  s_id : Z;
  user_id : Z;
  token_hash : string;
  expires_at : Z;
  s_created_at : Z
}.

Record Payment : Type := {
  p_id : Z;
  p_user_id : Z;
  amount : Z;
  balance_before : Z;
  balance_after : Z;
  p_created_at : Z
}.

Record Db : Type := {
  users : list User;
  sessions : list Session;
  payments : list Payment;
  lastUserId : Z;
  lastSessionId : Z;
  lastPaymentId : Z
}.

(** [let db = { users: [], ... }] *)
Definition empty : Db :=
  {| users := []; sessions := []; payments := [];
     lastUserId := 0; lastSessionId := 0; lastPaymentId := 0 |}.

Inductive Error : Type :=
| CONSTRAINT_UNIQUE      (* "Username already exists" *)
| UserNotFound           (* "User not found" *)
| InsufficientFunds.     (* "Insufficient funds" *)

Definition set_users (db : Db) (us : list User) : Db :=
  {| users := us; sessions := sessions db; payments := payments db;
     lastUserId := lastUserId db; lastSessionId := lastSessionId db;
     lastPaymentId := lastPaymentId db |}.

Definition set_sessions (db : Db) (ss : list Session) : Db :=
  {| users := users db; sessions := ss; payments := payments db;
     lastUserId := lastUserId db; lastSessionId := lastSessionId db;
     lastPaymentId := lastPaymentId db |}.

Definition set_balance (u : User) (b : Z) : User :=
  {| u_id := u_id u; username := username u;
     password_hash := password_hash u; balance := b;
     failed_attempts := failed_attempts u; locked_until := locked_until u;
     u_created_at := u_created_at u |}.

Definition set_attempts (attempts lockUntil : Z) (u : User) : User :=
  {| u_id := u_id u; username := username u;
     password_hash := password_hash u; balance := balance u;
     failed_attempts := attempts; locked_until := lockUntil;
     u_created_at := u_created_at u |}.

Definition has_username (name : string) (u : User) : bool :=
  String.eqb (username u) name.

Definition has_id (i : Z) (u : User) : bool := Z.eqb (u_id u) i.

(** [findUser] *)
Definition findUser (db : Db) (name : string) : option User :=
  find (has_username name) (users db).

Section Kdf.
Variable kdf : Z -> string -> string -> string.

(** [createUser]; [fresh] is the salt drawn by [bcrypt.hashSync]. *)
Definition createUser (db : Db) (name password fresh : string)
           (nowMs : Z) : Result Error (Z * string) * Db :=
  match find (has_username name) (users db) with
  | Some _ => (Throw CONSTRAINT_UNIQUE, db)
  | None =>
      let passwordHash := Bcrypt.hashSync kdf password 12 fresh in
      let user := {| u_id := lastUserId db + 1;
                     username := name;
                     password_hash := passwordHash;
                     balance := 800;
                     failed_attempts := 0;
                     locked_until := 0;
                     u_created_at := Js.seconds nowMs |} in
      (Return (u_id user, username user),
       {| users := users db ++ [user];
          sessions := sessions db; payments := payments db;
          lastUserId := lastUserId db + 1;
          lastSessionId := lastSessionId db;
          lastPaymentId := lastPaymentId db |})
  end.
End Kdf.

(** [updateFailedAttempts] *)
Definition updateFailedAttempts (db : Db) (userId attempts lockUntil : Z)
  : Db :=
  set_users db
    (Js.update_first (has_id userId) (set_attempts attempts lockUntil)
                     (users db)).

(** [saveSession] *)
Definition saveSession (db : Db) (userId : Z) (tokenHash : string)
           (expiresAt nowMs : Z) : Db :=
  let session := {| s_id := lastSessionId db + 1;
                    user_id := userId;
                    token_hash := tokenHash;
                    expires_at := expiresAt;
                    s_created_at := Js.seconds nowMs |} in
  {| users := users db; sessions := sessions db ++ [session];
     payments := payments db; lastUserId := lastUserId db;
     lastSessionId := lastSessionId db + 1;
     lastPaymentId := lastPaymentId db |}.

Definition live_with (tokenHash : string) (now : Z) (s : Session) : bool :=
  String.eqb (token_hash s) tokenHash && (now <? expires_at s).

(** [validateSession]: [None] is the source's [null]; the value returned
    is the session spread together with the user's name and balance. *)
Definition validateSession (db : Db) (tokenHash : string) (nowMs : Z)
  : option (Session * string * Z) :=
  let now := Js.seconds nowMs in
  match find (live_with tokenHash now) (sessions db) with
  | None => None
  | Some session =>
      match find (has_id (user_id session)) (users db) with
      | None => None
      | Some user => Some (session, username user, balance user)
      end
  end.

(** [removeSession] *)
Definition removeSession (db : Db) (tokenHash : string) : Db :=
  set_sessions db
    (filter (fun s => negb (String.eqb (token_hash s) tokenHash))
            (sessions db)).

(** What [processPayment] returns. *)
Record Receipt : Type := {
  paymentId : Z;
  r_amount : Dollars;
  balanceBefore : Dollars;
  balanceAfter : Dollars
}.

Definition paymentAmount : Z := 110.

(** [processPayment] *)
Definition processPayment (db : Db) (userId nowMs : Z)
  : Result Error Receipt * Db :=
  match Js.findIndex (has_id userId) (users db) with
  | None => (Throw UserNotFound, db)
  | Some userIndex =>
      match nth_error (users db) userIndex with
      | None => (Throw UserNotFound, db)   (* not reached: the index is valid *)
      | Some user =>
          let currentBalance := balance user in
          if currentBalance <? paymentAmount
          then (Throw InsufficientFunds, db)
          else
            let newBalance := currentBalance - paymentAmount in
            let payment := {| p_id := lastPaymentId db + 1;
                              p_user_id := userId;
                              amount := paymentAmount;
                              balance_before := currentBalance;
                              balance_after := newBalance;
                              p_created_at := Js.seconds nowMs |} in
            (Return {| paymentId := p_id payment;
                       r_amount := {| cents := paymentAmount |};
                       balanceBefore := {| cents := currentBalance |};
                       balanceAfter := {| cents := newBalance |} |},
             {| users := Js.set_at userIndex (set_balance user newBalance)
                                   (users db);
                sessions := sessions db;
                payments := payments db ++ [payment];
                lastUserId := lastUserId db;
                lastSessionId := lastSessionId db;
                lastPaymentId := lastPaymentId db + 1 |})
      end
  end.

(** [cleanupExpiredSessions] *)
Definition cleanupExpiredSessions (db : Db) (nowMs : Z) : Db :=
  set_sessions db
    (filter (fun s => Js.seconds nowMs <? expires_at s) (sessions db)).

(** Calls of [processPayment] for one user, one after the other (the
    function does not give up control, so calls never overlap). *)
Fixpoint charges (db : Db) (userId : Z) (clocks : list Z)
  : list (Result Error Receipt) * Db :=
  match clocks with
  | [] => ([], db)
  | nowMs :: later =>
      let '(result, db1) := processPayment db userId nowMs in
      let '(results, db2) := charges db1 userId later in
      (result :: results, db2)
  end.

(** *** The store as a state machine

    The functions of [dbHelpers] that write to the store. *)
Inductive Op : Type :=
| CreateUser (name password fresh : string) (nowMs : Z)
| UpdateFailedAttempts (userId attempts lockUntil : Z)
| SaveSession (userId : Z) (tokenHash : string) (expiresAt nowMs : Z)
| RemoveSession (tokenHash : string)
| ProcessPayment (userId nowMs : Z)
| CleanupExpiredSessions (nowMs : Z).

Definition exec (kdf : Z -> string -> string -> string) (db : Db) (op : Op)
  : Db :=
  match op with
  | CreateUser name password fresh nowMs =>
      snd (createUser kdf db name password fresh nowMs)
  | UpdateFailedAttempts userId attempts lockUntil =>
      updateFailedAttempts db userId attempts lockUntil
  | SaveSession userId tokenHash expiresAt nowMs =>
      saveSession db userId tokenHash expiresAt nowMs
  | RemoveSession tokenHash => removeSession db tokenHash
  | ProcessPayment userId nowMs => snd (processPayment db userId nowMs)
  | CleanupExpiredSessions nowMs => cleanupExpiredSessions db nowMs
  end.

Definition exec_all (kdf : Z -> string -> string -> string) (db : Db)
           (ops : list Op) : Db :=
  fold_left (exec kdf) ops db.

(** *** Invariants *)

Definition unique_usernames (db : Db) : Prop :=
  NoDup (map username (users db)).

Definition unique_ids (db : Db) : Prop := NoDup (map u_id (users db)).

Definition ids_issued (db : Db) : Prop :=
  Forall (fun u => u_id u <= lastUserId db) (users db).

(** How many records carry a user name. *)
Definition count_username (name : string) (db : Db) : nat :=
  List.length (filter (has_username name) (users db)).

(** A lock is only ever set together with five or more counted failures. *)
Definition attempts_ok (u : User) : Prop :=
  0 <= failed_attempts u /\ (locked_until u = 0 \/ 5 <= failed_attempts u).

(** Every session belongs to a user of the store. *)
Definition sessions_have_users (db : Db) : Prop :=
  Forall (fun s => exists u, find (has_id (user_id s)) (users db) = Some u)
         (sessions db).

(** *** The ledger's books *)

(** A payment record as [processPayment] writes it. *)
Definition payment_ok (p : Payment) : Prop :=
  amount p = 110
  /\ balance_after p = balance_before p - amount p
  /\ 0 <= balance_after p.

(** The cents the payment records hold against a user id. *)
Definition charged (userId : Z) (db : Db) : Z :=
  110 * Z.of_nat (List.length (filter (fun p => Z.eqb (p_user_id p) userId)
                                      (payments db))).

(** What the books of every reachable store satisfy: ids are distinct and
    were issued, payments are well formed and made out to issued ids, and
    for every user the balance and the cents charged add up to the 800 the
    account started with. *)
Definition books (db : Db) : Prop :=
  unique_ids db /\ ids_issued db
  /\ Forall (fun p => p_user_id p <= lastUserId db) (payments db)
  /\ Forall payment_ok (payments db)
  /\ Forall (fun u => 0 <= balance u /\ balance u + charged (u_id u) db = 800)
            (users db).

End FileDb.


(** ** app.js: the Express handlers over database.js

    A request carries [bearer], the value of
    [authHeader && authHeader.split(" ")[1]]: [None] when the header is
    missing or has no second part.  The rate limiter in front of the login
    route is middleware of the transport layer and is not modelled. *)

Module App.
Import FileDb.

Inductive Body : Type :=
| Error (message : string)
| LoginSuccessful (token : string) (id : Z) (name : string) (bal : Dollars)
| LogoutSuccessful
| PaymentProcessed (receipt : Receipt)
| UserCreated (id : Z) (name : string) (bal : Dollars)
| Me (id : Z) (name : string) (bal : Dollars).

Record Response : Type := { status : Z; body : Body }.

Definition json (code : Z) (b : Body) : Response :=
  {| status := code; body := b |}.

(** [req.user], set by [authenticateToken]. *)
Record ReqUser : Type := {
  req_id : Z;
  req_username : string;
  req_balance : Dollars
}.

Definition JWT_SECRET : string := "your-super-secret-key-change-in-production".

Section Crypto.
Variable kdf : Z -> string -> string -> string.
(** [crypto.createHash("sha256").update(token).digest("hex")] *)
Variable sha256_hex : string -> string.
(** [jwt.sign({userId, username}, secret, {expiresIn: "24h"})] at a clock
    reading, and whether [jwt.verify(token, secret)] returns at a clock
    reading instead of throwing. *)
Variable jwt_sign : Z -> string -> string -> Z -> string.
Variable jwt_verify : string -> string -> Z -> bool.

Definition hashToken (token : string) : string := sha256_hex token.

(** [authenticateToken]: the response it sends, or the [req.user] with
    which it calls [next()]. *)
Definition authenticateToken (db : Db) (bearer : option string) (nowMs : Z)
  : Response + ReqUser :=
  match bearer with
  | None => inl (json 401 (Error "Access token required"))
  | Some token =>
      if Js.falsy token
      then inl (json 401 (Error "Access token required"))
      else if jwt_verify token JWT_SECRET nowMs
      then
        let tokenHash := hashToken token in
        match validateSession db tokenHash nowMs with
        | None => inl (json 403 (Error "Invalid or expired token"))
        | Some (session, name, bal) =>
            inr {| req_id := user_id session;
                   req_username := name;
                   req_balance := {| cents := bal |} |}
        end
      else inl (json 403 (Error "Invalid token"))
  end.

(** POST /auth/login after its required-fields guard (lines 69-119). *)
Definition login (db : Db) (name password : string) (nowMs : Z)
  : Response * Db :=
  match findUser db name with
  | None => (json 401 (Error "Invalid credentials"), db)
  | Some user =>
      let now := Js.seconds nowMs in
      if now <? locked_until user
      then (json 423
              (Error "Account temporarily locked due to failed login attempts"),
            db)
      else if negb (Bcrypt.compareSync kdf password (password_hash user))
      then
        let newAttempts := failed_attempts user + 1 in
        let lockUntil := if 5 <=? newAttempts then now + 30 * 60 else 0 in
        (json 401 (Error "Invalid credentials"),
         updateFailedAttempts db (u_id user) newAttempts lockUntil)
      else
        let db1 := if 0 <? failed_attempts user
                   then updateFailedAttempts db (u_id user) 0 0
                   else db in
        let token := jwt_sign (u_id user) (username user) JWT_SECRET nowMs in
        let tokenHash := hashToken token in
        let expiresAt := now + 24 * 60 * 60 in
        (json 200 (LoginSuccessful token (u_id user) (username user)
                                   {| cents := balance user |}),
         saveSession db1 (u_id user) tokenHash expiresAt nowMs)
  end.

(** POST /auth/login *)
Definition post_auth_login (db : Db) (name password : string) (nowMs : Z)
  : Response * Db :=
  if Js.falsy name || Js.falsy password
  then (json 400 (Error "Username and password required"), db)
  else login db name password nowMs.

(** POST /auth/logout *)
Definition post_auth_logout (db : Db) (bearer : option string) (nowMs : Z)
  : Response * Db :=
  match authenticateToken db bearer nowMs with
  | inl response => (response, db)
  | inr _ =>
      match bearer with
      | None => (json 500 (Error "Internal server error"), db)
      | Some token =>
          (json 200 LogoutSuccessful, removeSession db (hashToken token))
      end
  end.

(** POST /payments *)
Definition post_payments (db : Db) (bearer : option string) (nowMs : Z)
  : Response * Db :=
  match authenticateToken db bearer nowMs with
  | inl response => (response, db)
  | inr user =>
      match processPayment db (req_id user) nowMs with
      | (Return receipt, db') => (json 200 (PaymentProcessed receipt), db')
      | (Throw InsufficientFunds, db') =>
          (json 400 (Error "Insufficient funds"), db')
      | (Throw _, db') => (json 500 (Error "Payment processing failed"), db')
      end
  end.

(** POST /auth/register; [fresh] is the salt [createUser] draws. *)
Definition post_auth_register (db : Db) (name password fresh : string)
           (nowMs : Z) : Response * Db :=
  if Js.falsy name || Js.falsy password
  then (json 400 (Error "Username and password required"), db)
  else if (String.length password <? 6)%nat
  then (json 400 (Error "Password must be at least 6 characters"), db)
  else
    match createUser kdf db name password fresh nowMs with
    | (Return (id, uname), db') =>
        (json 201 (UserCreated id uname {| cents := 800 |}), db')
    | (Throw CONSTRAINT_UNIQUE, db') =>
        (json 409 (Error "Username already exists"), db')
    | (Throw _, db') => (json 500 (Error "Internal server error"), db')
    end.

(** GET /me *)
Definition get_me (db : Db) (bearer : option string) (nowMs : Z)
  : Response * Db :=
  match authenticateToken db bearer nowMs with
  | inl response => (response, db)
  | inr user =>
      (json 200 (Me (req_id user) (req_username user) (req_balance user)), db)
  end.

(** *** The service as a state machine *)
Inductive Request : Type :=
| Register (name password fresh : string)
| Login (name password : string)
| Logout (bearer : option string)
| Payments (bearer : option string)
| GetMe (bearer : option string).

Definition handle (db : Db) (req : Request) (nowMs : Z) : Response * Db :=
  match req with
  | Register name password fresh =>
      post_auth_register db name password fresh nowMs
  | Login name password => post_auth_login db name password nowMs
  | Logout bearer => post_auth_logout db bearer nowMs
  | Payments bearer => post_payments db bearer nowMs
  | GetMe bearer => get_me db bearer nowMs
  end.

(** Requests handled one after the other, each at its clock reading. *)
Fixpoint serve (db : Db) (reqs : list (Request * Z)) : list Response * Db :=
  match reqs with
  | [] => ([], db)
  | (req, nowMs) :: later =>
      let '(response, db1) := handle db req nowMs in
      let '(responses, db2) := serve db1 later in
      (response :: responses, db2)
  end.

(** Login attempts for one user name, one after the other, each with its
    password and clock reading. *)
Fixpoint logins (db : Db) (name : string) (attempts : list (string * Z))
  : list Response * Db :=
  match attempts with
  | [] => ([], db)
  | (password, nowMs) :: later =>
      let '(response, db1) := login db name password nowMs in
      let '(responses, db2) := logins db1 name later in
      (response :: responses, db2)
  end.

(** The three answers of [login] to a failed attempt or a locked account. *)
Definition invalid_credentials : Response :=
  json 401 (Error "Invalid credentials").

Definition account_locked : Response :=
  json 423 (Error "Account temporarily locked due to failed login attempts").

(** The stores the service can be in, starting from the empty one. *)
Inductive reachable : Db -> Prop :=
| reachable_empty : reachable empty
| reachable_handle (db : Db) (req : Request) (nowMs : Z) :
    reachable db -> reachable (snd (handle db req nowMs)).

(** What every reachable store satisfies. *)
Definition consistent (db : Db) : Prop :=
  unique_ids db /\ ids_issued db /\ unique_usernames db
  /\ Forall attempts_ok (users db) /\ sessions_have_users db.

End Crypto.

End App.


(** ** appV2.js: the in-memory class [SimpleDatabase] and its routes

    The methods return strings; a [Reply] constructor stands for each
    string shape, with the interpolated values as arguments. *)

Module SimpleDatabase.

Record User : Type := {
  id : Z;
  username : string;
  passwordHash : Bcrypt.hash;
  balance : Z;
  failedAttempts : Z;
  lockedUntil : Z
}.

Record Session : Type := {
  s_id : Z;
  userId : Z;
  tokenHash : Bcrypt.hash;
  expiresAt : Z
}.

Record Payment : Type := {
  p_id : Z;
  p_userId : Z;
  amount : Z;
  balanceBefore : Z;
  balanceAfter : Z;
  timestamp : Z
}.

Record Db : Type := {
  users : list User;
  sessions : list Session;
  payments : list Payment;
  nextUserId : Z;
  nextSessionId : Z;
  nextPaymentId : Z
}.

(** [constructor()] *)
Definition new : Db :=
  {| users := []; sessions := []; payments := [];
     nextUserId := 1; nextSessionId := 1; nextPaymentId := 1 |}.

Inductive Reply : Type :=
| ERROR_User_already_exists
| ERROR_Invalid_credentials
| ERROR_Account_locked
| ERROR_Invalid_token
| ERROR_User_not_found
| ERROR_Insufficient_funds
| SUCCESS_User_created_with_ID (i : Z)
| SUCCESS_token_Balance (token : string) (bal : Dollars)
| SUCCESS_username_Balance (name : string) (bal : Dollars)
| SUCCESS_Payment_processed (newBalance : Dollars)
| SUCCESS_Logged_out.

(** [result.startsWith("ERROR:")] *)
Definition startsWith_ERROR (r : Reply) : bool :=
  match r with
  | ERROR_User_already_exists | ERROR_Invalid_credentials
  | ERROR_Account_locked | ERROR_Invalid_token | ERROR_User_not_found
  | ERROR_Insufficient_funds => true
  | _ => false
  end.

Definition set_users (db : Db) (us : list User) : Db :=
  {| users := us; sessions := sessions db; payments := payments db;
     nextUserId := nextUserId db; nextSessionId := nextSessionId db;
     nextPaymentId := nextPaymentId db |}.

Definition has_username (name : string) (u : User) : bool :=
  String.eqb (username u) name.

Definition has_id (i : Z) (u : User) : bool := Z.eqb (id u) i.

(** [user.failedAttempts++; if (user.failedAttempts >= 5) user.lockedUntil =
    now + 30 * 60] *)
Definition failed_login (now : Z) (u : User) : User :=
  let attempts := failedAttempts u + 1 in
  {| id := id u; username := username u; passwordHash := passwordHash u;
     balance := balance u; failedAttempts := attempts;
     lockedUntil := if 5 <=? attempts then now + 30 * 60 else lockedUntil u |}.

(** [user.failedAttempts = 0; user.lockedUntil = 0] *)
Definition reset_attempts (u : User) : User :=
  {| id := id u; username := username u; passwordHash := passwordHash u;
     balance := balance u; failedAttempts := 0; lockedUntil := 0 |}.

(** [user.balance -= paymentAmount] *)
Definition debit (amt : Z) (u : User) : User :=
  {| id := id u; username := username u; passwordHash := passwordHash u;
     balance := balance u - amt; failedAttempts := failedAttempts u;
     lockedUntil := lockedUntil u |}.

(** [`token_${user.id}_${Date.now()}`] *)
Definition make_token (userId nowMs : Z) : string :=
  ("token_" ++ Js.toString userId ++ "_" ++ Js.toString nowMs)%string.

Section Kdf.
Variable kdf : Z -> string -> string -> string.

(** [hashPassword]: [bcryptjs.hashSync(password, 12)], with the salt that
    call draws. *)
Definition hashPassword (password fresh : string) : Bcrypt.hash :=
  Bcrypt.hashSync kdf password 12 fresh.

(** [createUser] *)
Definition createUser (db : Db) (name password fresh : string)
  : Reply * Db :=
  match find (has_username name) (users db) with
  | Some _ => (ERROR_User_already_exists, db)
  | None =>
      let user := {| id := nextUserId db;
                     username := name;
                     passwordHash := hashPassword password fresh;
                     balance := 800;
                     failedAttempts := 0;
                     lockedUntil := 0 |} in
      (SUCCESS_User_created_with_ID (id user),
       {| users := users db ++ [user];
          sessions := sessions db; payments := payments db;
          nextUserId := nextUserId db + 1;
          nextSessionId := nextSessionId db;
          nextPaymentId := nextPaymentId db |})
  end.

(** [loginUser]; [fresh1] is the salt of [hashPassword(password)] and
    [fresh2] the salt of [hashPassword(token)]. *)
Definition loginUser (db : Db) (name password fresh1 fresh2 : string)
           (nowMs : Z) : Reply * Db :=
  match find (has_username name) (users db) with
  | None => (ERROR_Invalid_credentials, db)
  | Some user =>
      let now := Js.seconds nowMs in
      if now <? lockedUntil user
      then (ERROR_Account_locked, db)
      else
        let hashed := hashPassword password fresh1 in
        if negb (Bcrypt.hash_eqb (passwordHash user) hashed)
        then (ERROR_Invalid_credentials,
              set_users db (Js.update_first (has_username name)
                                            (failed_login now) (users db)))
        else
          let token := make_token (id user) nowMs in
          let session := {| s_id := nextSessionId db;
                            userId := id user;
                            tokenHash := hashPassword token fresh2;
                            expiresAt := now + 24 * 60 * 60 |} in
          (SUCCESS_token_Balance token {| cents := balance user |},
           {| users := Js.update_first (has_username name) reset_attempts
                                       (users db);
              sessions := sessions db ++ [session];
              payments := payments db;
              nextUserId := nextUserId db;
              nextSessionId := nextSessionId db + 1;
              nextPaymentId := nextPaymentId db |})
  end.

Definition live_with (h : Bcrypt.hash) (now : Z) (s : Session) : bool :=
  Bcrypt.hash_eqb (tokenHash s) h && (now <? expiresAt s).

(** [validateSession] *)
Definition validateSession (db : Db) (token fresh : string) (nowMs : Z)
  : Reply :=
  let hashed := hashPassword token fresh in
  let now := Js.seconds nowMs in
  match find (live_with hashed now) (sessions db) with
  | None => ERROR_Invalid_token
  | Some session =>
      match find (has_id (userId session)) (users db) with
      | None => ERROR_User_not_found
      | Some user =>
          SUCCESS_username_Balance (username user) {| cents := balance user |}
      end
  end.

Definition paymentAmount : Z := 110.

(** [processPayment] *)
Definition processPayment (db : Db) (token fresh : string) (nowMs : Z)
  : Reply * Db :=
  let hashed := hashPassword token fresh in
  let now := Js.seconds nowMs in
  match find (live_with hashed now) (sessions db) with
  | None => (ERROR_Invalid_token, db)
  | Some session =>
      match find (has_id (userId session)) (users db) with
      | None => (ERROR_User_not_found, db)
      | Some user =>
          if balance user <? paymentAmount
          then (ERROR_Insufficient_funds, db)
          else
            let balanceBefore := balance user in
            let balanceAfter := balance user - paymentAmount in
            let payment := {| p_id := nextPaymentId db;
                              p_userId := id user;
                              amount := paymentAmount;
                              balanceBefore := balanceBefore;
                              balanceAfter := balanceAfter;
                              timestamp := now |} in
            (SUCCESS_Payment_processed {| cents := balanceAfter |},
             {| users := Js.update_first (has_id (userId session))
                                         (debit paymentAmount) (users db);
                sessions := sessions db;
                payments := payments db ++ [payment];
                nextUserId := nextUserId db;
                nextSessionId := nextSessionId db;
                nextPaymentId := nextPaymentId db + 1 |})
      end
  end.

(** [logout] *)
Definition logout (db : Db) (token fresh : string) : Reply * Db :=
  let hashed := hashPassword token fresh in
  (SUCCESS_Logged_out,
   {| users := users db;
      sessions := filter (fun s => negb (Bcrypt.hash_eqb (tokenHash s) hashed))
                         (sessions db);
      payments := payments db;
      nextUserId := nextUserId db;
      nextSessionId := nextSessionId db;
      nextPaymentId := nextPaymentId db |}).

(** The routes answer with a status and either [{error: ...}] or
    [{message: ...}] built from the reply. *)
Inductive Body : Type :=
| error_required            (* "Username and password required" *)
| error_token_required      (* "Token required" *)
| error_of (r : Reply)      (* result.substring(7) *)
| message_of (r : Reply)
| login_successful (token : string) (bal : Dollars).

Record Response : Type := { status : Z; body : Body }.

Definition respond (r : Reply) (errorStatus : Z) : Response :=
  if startsWith_ERROR r
  then {| status := errorStatus; body := error_of r |}
  else {| status := 200; body := message_of r |}.

(** POST /register *)
Definition post_register (db : Db) (name password fresh : string)
  : Response * Db :=
  if Js.falsy name || Js.falsy password
  then ({| status := 400; body := error_required |}, db)
  else let '(result, db') := createUser db name password fresh in
       (respond result 400, db').

(** POST /login *)
Definition post_login (db : Db) (name password fresh1 fresh2 : string)
           (nowMs : Z) : Response * Db :=
  if Js.falsy name || Js.falsy password
  then ({| status := 400; body := error_required |}, db)
  else let '(result, db') := loginUser db name password fresh1 fresh2 nowMs in
       match result with
       | SUCCESS_token_Balance token bal =>
           ({| status := 200; body := login_successful token bal |}, db')
       | _ => (respond result 401, db')
       end.

(** POST /payment *)
Definition post_payment (db : Db) (bearer : option string) (fresh : string)
           (nowMs : Z) : Response * Db :=
  match bearer with
  | None => ({| status := 401; body := error_token_required |}, db)
  | Some token =>
      if Js.falsy token
      then ({| status := 401; body := error_token_required |}, db)
      else let '(result, db') := processPayment db token fresh nowMs in
           (respond result 400, db')
  end.

(** GET /me *)
Definition get_me (db : Db) (bearer : option string) (fresh : string)
           (nowMs : Z) : Response :=
  match bearer with
  | None => {| status := 401; body := error_token_required |}
  | Some token =>
      if Js.falsy token
      then {| status := 401; body := error_token_required |}
      else respond (validateSession db token fresh nowMs) 401
  end.

(** POST /logout *)
Definition post_logout (db : Db) (bearer : option string) (fresh : string)
  : Response * Db :=
  match bearer with
  | None => ({| status := 401; body := error_token_required |}, db)
  | Some token =>
      if Js.falsy token
      then ({| status := 401; body := error_token_required |}, db)
      else let '(result, db') := logout db token fresh in
           ({| status := 200; body := message_of result |}, db')
  end.

(** *** The class as a state machine: the methods that write. *)
Inductive Method : Type :=
| CreateUser (name password fresh : string)
| LoginUser (name password fresh1 fresh2 : string) (nowMs : Z)
| ProcessPayment (token fresh : string) (nowMs : Z)
| Logout (token fresh : string).

Definition call (db : Db) (m : Method) : Reply * Db :=
  match m with
  | CreateUser name password fresh => createUser db name password fresh
  | LoginUser name password fresh1 fresh2 nowMs =>
      loginUser db name password fresh1 fresh2 nowMs
  | ProcessPayment token fresh nowMs => processPayment db token fresh nowMs
  | Logout token fresh => logout db token fresh
  end.

(** The stores the class can be in, starting from [new]. *)
Inductive reachable : Db -> Prop :=
| reachable_new : reachable new
| reachable_call (db : Db) (m : Method) :
    reachable db -> reachable (snd (call db m)).

End Kdf.

(** Every session belongs to a user of the store. *)
Definition sessions_have_users (db : Db) : Prop :=
  Forall (fun s => In (userId s) (map id (users db))) (sessions db).

End SimpleDatabase.


(** ** Database.java

    [int] and [long] arithmetic wraps around; [hashPassword] is the
    hexadecimal SHA-256 digest, a function of the password alone. *)

Module JavaDatabase.

Definition int32 (z : Z) : Z := (z + 2 ^ 31) mod 2 ^ 32 - 2 ^ 31.
Definition int64 (z : Z) : Z := (z + 2 ^ 63) mod 2 ^ 64 - 2 ^ 63.

Record User : Type := {
  id : Z;
  username : string;
  passwordHash : string;
  balance : Z;
  failedAttempts : Z;
  lockedUntil : Z
}.

Record Session : Type := {
  s_id : Z;
  userId : Z;
  tokenHash : string;
  expiresAt : Z
}.

Record Payment : Type := {
  p_id : Z;
  p_userId : Z;
  amount : Z;
  balanceBefore : Z;
  balanceAfter : Z;
  timestamp : Z
}.

(** The static fields of [Database]. *)
Record Db : Type := {
  users : list User;
  sessions : list Session;
  payments : list Payment;
  nextUserId : Z;
  nextSessionId : Z;
  nextPaymentId : Z
}.

Definition initial : Db :=
  {| users := []; sessions := []; payments := [];
     nextUserId := 1; nextSessionId := 1; nextPaymentId := 1 |}.

Inductive Reply : Type :=
| ERROR_User_already_exists
| ERROR_Invalid_credentials
| ERROR_Account_locked
| ERROR_Invalid_token
| ERROR_User_not_found
| ERROR_Insufficient_funds
| SUCCESS_User_created_with_ID (i : Z)
| SUCCESS_token_Balance (token : string) (bal : Dollars)
| SUCCESS_username_Balance (name : string) (bal : Dollars)
| SUCCESS_Payment_processed (newBalance : Dollars)
| SUCCESS_Logged_out.

Definition set_users (db : Db) (us : list User) : Db :=
  {| users := us; sessions := sessions db; payments := payments db;
     nextUserId := nextUserId db; nextSessionId := nextSessionId db;
     nextPaymentId := nextPaymentId db |}.

Definition has_username (name : string) (u : User) : bool :=
  String.eqb (username u) name.

Definition has_id (i : Z) (u : User) : bool := Z.eqb (id u) i.

(** [new User(id, username, passwordHash)] *)
Definition new_User (i : Z) (name hash : string) : User :=
  {| id := i; username := name; passwordHash := hash; balance := 800;
     failedAttempts := 0; lockedUntil := 0 |}.

(** [user.failedAttempts++; if (user.failedAttempts >= 5) user.lockedUntil =
    now + (30 * 60)] *)
Definition failed_login (now : Z) (u : User) : User :=
  let attempts := int32 (failedAttempts u + 1) in
  {| id := id u; username := username u; passwordHash := passwordHash u;
     balance := balance u; failedAttempts := attempts;
     lockedUntil := if 5 <=? attempts then int64 (now + 30 * 60)
                    else lockedUntil u |}.

Definition reset_attempts (u : User) : User :=
  {| id := id u; username := username u; passwordHash := passwordHash u;
     balance := balance u; failedAttempts := 0; lockedUntil := 0 |}.

Definition debit (amt : Z) (u : User) : User :=
  {| id := id u; username := username u; passwordHash := passwordHash u;
     balance := int32 (balance u - amt); failedAttempts := failedAttempts u;
     lockedUntil := lockedUntil u |}.

(** ["token_" + user.id + "_" + System.currentTimeMillis()] *)
Definition make_token (userId nowMs : Z) : string :=
  ("token_" ++ Js.toString userId ++ "_" ++ Js.toString nowMs)%string.

(** [System.currentTimeMillis() / 1000] *)
Definition seconds (nowMs : Z) : Z := Z.quot nowMs 1000.

Section Sha.
Variable hashPassword : string -> string.

(** [createUser] *)
Definition createUser (db : Db) (name password : string) : Reply * Db :=
  match find (has_username name) (users db) with
  | Some _ => (ERROR_User_already_exists, db)
  | None =>
      let newUser := new_User (nextUserId db) name (hashPassword password) in
      (SUCCESS_User_created_with_ID (id newUser),
       {| users := users db ++ [newUser];
          sessions := sessions db; payments := payments db;
          nextUserId := int32 (nextUserId db + 1);
          nextSessionId := nextSessionId db;
          nextPaymentId := nextPaymentId db |})
  end.

(** [loginUser] *)
Definition loginUser (db : Db) (name password : string) (nowMs : Z)
  : Reply * Db :=
  match find (has_username name) (users db) with
  | None => (ERROR_Invalid_credentials, db)
  | Some user =>
      let now := seconds nowMs in
      if now <? lockedUntil user
      then (ERROR_Account_locked, db)
      else if negb (String.eqb (passwordHash user) (hashPassword password))
      then (ERROR_Invalid_credentials,
            set_users db (Js.update_first (has_username name)
                                          (failed_login now) (users db)))
      else
        let token := make_token (id user) nowMs in
        let session := {| s_id := nextSessionId db;
                          userId := id user;
                          tokenHash := hashPassword token;
                          expiresAt := int64 (now + 24 * 60 * 60) |} in
        (SUCCESS_token_Balance token {| cents := balance user |},
         {| users := Js.update_first (has_username name) reset_attempts
                                     (users db);
            sessions := sessions db ++ [session];
            payments := payments db;
            nextUserId := nextUserId db;
            nextSessionId := int32 (nextSessionId db + 1);
            nextPaymentId := nextPaymentId db |})
  end.

Definition live_with (h : string) (now : Z) (s : Session) : bool :=
  String.eqb (tokenHash s) h && (now <? expiresAt s).

(** [validateSession] *)
Definition validateSession (db : Db) (token : string) (nowMs : Z) : Reply :=
  match find (live_with (hashPassword token) (seconds nowMs)) (sessions db) with
  | None => ERROR_Invalid_token
  | Some validSession =>
      match find (has_id (userId validSession)) (users db) with
      | None => ERROR_User_not_found
      | Some user =>
          SUCCESS_username_Balance (username user) {| cents := balance user |}
      end
  end.

(** [logout] *)
Definition logout (db : Db) (token : string) : Reply * Db :=
  (SUCCESS_Logged_out,
   {| users := users db;
      sessions := filter (fun s => negb (String.eqb (tokenHash s)
                                                    (hashPassword token)))
                         (sessions db);
      payments := payments db;
      nextUserId := nextUserId db;
      nextSessionId := nextSessionId db;
      nextPaymentId := nextPaymentId db |}).

(** [new Payment(id, userId, amount, balanceBefore, balanceAfter)] *)
Definition new_Payment (i uid amt before after nowMs : Z) : Payment :=
  {| p_id := i; p_userId := uid; amount := amt; balanceBefore := before;
     balanceAfter := after; timestamp := seconds nowMs |}.

(** [processPayment] *)
Definition processPayment (db : Db) (token : string) (nowMs : Z)
  : Reply * Db :=
  match find (live_with (hashPassword token) (seconds nowMs)) (sessions db) with
  | None => (ERROR_Invalid_token, db)
  | Some validSession =>
      match find (has_id (userId validSession)) (users db) with
      | None => (ERROR_User_not_found, db)
      | Some user =>
          let paymentAmount := 110 in
          if balance user <? paymentAmount
          then (ERROR_Insufficient_funds, db)
          else
            let balanceBefore := balance user in
            let balanceAfter := int32 (balance user - paymentAmount) in
            (SUCCESS_Payment_processed {| cents := balanceAfter |},
             {| users := Js.update_first (has_id (userId validSession))
                                         (debit paymentAmount) (users db);
                sessions := sessions db;
                payments := payments db ++
                  [new_Payment (nextPaymentId db) (id user) paymentAmount
                               balanceBefore balanceAfter nowMs];
                nextUserId := nextUserId db;
                nextSessionId := nextSessionId db;
                nextPaymentId := int32 (nextPaymentId db + 1) |})
      end
  end.

(** [getUserInfo] *)
Definition getUserInfo (db : Db) (token : string) (nowMs : Z) : Reply :=
  validateSession db token nowMs.

End Sha.

End JavaDatabase.


(** ** The remote-store variant: [FirebaseDatabase.processPayment]

    The method is [async]: it gives up control at every [await], and the
    requests of other callers run in between.  A [Task] is the point at
    which a call is suspended, with the local variables it still needs; one
    [step] completes the awaited store operation and runs the call to its
    next [await] or to its [return].  The store is what the three database
    references hold, as key-value lists in key order. *)

Module FirebaseDatabase.

Record User : Type := {
  id : string;
  username : string;
  passwordHash : Bcrypt.hash;
  balance : Z;
  failedAttempts : Z;
  lockedUntil : Z
}.

Record Session : Type := {
  s_id : string;
  userId : string;
  tokenHash : Bcrypt.hash;
  expiresAt : Z
}.

Record Payment : Type := {
  p_id : string;
  p_userId : string;
  amount : Z;
  balanceBefore : Z;
  balanceAfter : Z
}.

Record Store : Type := {
  usersRef : list (string * User);
  sessionsRef : list (string * Session);
  paymentsRef : list (string * Payment)
}.

(** [ref.child(key).once("value")] *)
Fixpoint child {A : Type} (key : string) (l : list (string * A)) : option A :=
  match l with
  | [] => None
  | (k, v) :: r => if String.eqb k key then Some v else child key r
  end.

(** [ref.child(key).remove()] *)
Definition remove {A : Type} (key : string) (l : list (string * A))
  : list (string * A) :=
  filter (fun kv => negb (String.eqb (fst kv) key)) l.

(** [ref.child(key).set(v)] for a key the store does not hold yet or holds
    already. *)
Fixpoint set {A : Type} (key : string) (v : A) (l : list (string * A))
  : list (string * A) :=
  match l with
  | [] => [(key, v)]
  | (k, w) :: r => if String.eqb k key then (k, v) :: r
                   else (k, w) :: set key v r
  end.

Definition set_balance (b : Z) (u : User) : User :=
  {| id := id u; username := username u; passwordHash := passwordHash u;
     balance := b; failedAttempts := failedAttempts u;
     lockedUntil := lockedUntil u |}.

(** [usersRef.child(key).update({balance: b})] on a user the store holds.
    (On a missing key the real store would create a node with the balance
    alone; no method removes a user, so the call never meets one.) *)
Fixpoint update_balance (key : string) (b : Z) (l : list (string * User))
  : list (string * User) :=
  match l with
  | [] => []
  | (k, u) :: r => if String.eqb k key then (k, set_balance b u) :: r
                   else (k, u) :: update_balance key b r
  end.

(** What a call returns: [{success: false, error}] or
    [{success: true, payment}]. *)
Inductive Outcome : Type :=
| failure (error : string)
| success (paymentId : string) (amt before after : Dollars).

(** [sessionValidation.user] *)
Record Validated : Type := {
  v_id : string;
  v_username : string;
  v_balance : Dollars
}.

Inductive Task : Type :=
| ReadSessions
    (* validateSession: await this.sessionsRef.once("value") *)
| RemoveExpired (key : string) (rest : list (string * Session))
    (* inside the loop: await this.sessionsRef.child(key).remove() *)
| ReadSessionUser (validSession : Session)
    (* await this.usersRef.child(validSession.userId).once("value") *)
| CheckUser (validated : Validated)
    (* await this.usersRef.child(userId).once("value") *)
| ReadCurrentUser (userId : string)
    (* await userRef.once("value") *)
| UpdateBalance (userId : string) (currentBalance newBalance : Z)
    (* await userRef.update({balance: newBalance}) *)
| RecordPayment (paymentData : Payment)
    (* await this.paymentsRef.child(paymentData.id).set(paymentData) *)
| Returned (result : Outcome).

(** One call of [processPayment(token)]: its argument, the clock reading of
    [validateSession], the key [generateId()] will give its payment, and
    where it stands. *)
Record Call : Type := {
  token : string;
  nowMs : Z;
  newId : string;
  at_ : Task
}.

(** What [loginUser] returns. *)
Inductive LoginOutcome : Type :=
| login_failure (error : string)
| login_success (tok : string) (userId name : string) (bal : Dollars).

Definition set_attempts (attempts lockUntil : Z) (u : User) : User :=
  {| id := id u; username := username u; passwordHash := passwordHash u;
     balance := balance u; failedAttempts := attempts;
     lockedUntil := lockUntil |}.

(** [updateFailedAttempts]: [usersRef.child(userId).update({failedAttempts,
    lockedUntil})] on a user the store holds. *)
Fixpoint updateFailedAttempts (key : string) (attempts lockUntil : Z)
         (l : list (string * User)) : list (string * User) :=
  match l with
  | [] => []
  | (k, u) :: r =>
      if String.eqb k key then (k, set_attempts attempts lockUntil u) :: r
      else (k, u) :: updateFailedAttempts key attempts lockUntil r
  end.

(** [findUserByUsername]: the first of the users the query returns. *)
Definition findUserByUsername (st : Store) (name : string) : option User :=
  option_map snd
    (find (fun kv => String.eqb (username (snd kv)) name) (usersRef st)).

(** [`token_${user.id}_${Date.now()}`] *)
Definition make_token (userId : string) (nowMs : Z) : string :=
  ("token_" ++ userId ++ "_" ++ Js.toString nowMs)%string.

(** *** [createUser], which suspends twice *)

(** What [createUser] returns. *)
Inductive Registered : Type :=
| not_registered (error : string)
| registered (userId name : string) (bal : Dollars).

Inductive RegTask : Type :=
| QueryUsername
    (* await this.usersRef.orderByChild("username").equalTo(username)
         .once("value") *)
| SetUser (userData : User)
    (* await this.usersRef.child(userId).set(userData) *)
| RegReturned (result : Registered).

(** One call of [createUser(username, password)]: its arguments, the id
    [generateId()] will give, the salt [hashPassword] will draw, and where
    it stands. *)
Record Registration : Type := {
  r_username : string;
  r_password : string;
  r_newId : string;
  r_fresh : string;
  r_at : RegTask
}.

(** [equalTo(username)...once("value")] then [exists()] *)
Definition username_exists (name : string) (l : list (string * User)) : bool :=
  existsb (fun kv => String.eqb (username (snd kv)) name) l.

Definition paymentAmount : Z := 110.

Section Kdf.
Variable kdf : Z -> string -> string -> string.

(** [hashToken]: [bcrypt.hashSync(token, 5)] *)
Definition hashToken (tok fresh : string) : Bcrypt.hash :=
  Bcrypt.hashSync kdf tok 5 fresh.

(** [verifyToken] *)
Definition verifyToken (tok : string) (h : Bcrypt.hash) : bool :=
  Bcrypt.compareSync kdf tok h.

(** The [for] loop of [validateSession] over the entries read, up to the
    point where it suspends or the method goes on past it. *)
Fixpoint scan (tok : string) (now : Z) (entries : list (string * Session))
  : Task :=
  match entries with
  | [] => Returned (failure "Invalid or expired token")
  | (key, sessionData) :: rest =>
      if verifyToken tok (tokenHash sessionData)
      then if now <? expiresAt sessionData
           then ReadSessionUser sessionData
           else RemoveExpired key rest
      else scan tok now rest
  end.

(** One resumption of a call. *)
Definition step (st : Store) (c : Call) : Store * Task :=
  match at_ c with
  | ReadSessions =>
      match sessionsRef st with
      | [] => (st, Returned (failure "No active sessions"))
      | allSessions => (st, scan (token c) (Js.seconds (nowMs c)) allSessions)
      end
  | RemoveExpired key rest =>
      ({| usersRef := usersRef st;
          sessionsRef := remove key (sessionsRef st);
          paymentsRef := paymentsRef st |},
       scan (token c) (Js.seconds (nowMs c)) rest)
  | ReadSessionUser validSession =>
      match child (userId validSession) (usersRef st) with
      | None => (st, Returned (failure "User not found"))
      | Some userData =>
          (st, CheckUser {| v_id := id userData;
                            v_username := username userData;
                            v_balance := {| cents := balance userData |} |})
      end
  | CheckUser validated =>
      match child (v_id validated) (usersRef st) with
      | None => (st, Returned (failure "User not found in database"))
      | Some _ =>
          (* userBalanceInCents = sessionValidation.user.balance * 100 *)
          if cents (v_balance validated) <? paymentAmount
          then (st, Returned (failure "Insufficient funds"))
          else (st, ReadCurrentUser (v_id validated))
      end
  | ReadCurrentUser uid =>
      match child uid (usersRef st) with
      | None => (st, Returned (failure "User not found"))
      | Some currentUserData =>
          if balance currentUserData <? paymentAmount
          then (st, Returned (failure "Insufficient funds"))
          else (st, UpdateBalance uid (balance currentUserData)
                                  (balance currentUserData - paymentAmount))
      end
  | UpdateBalance uid currentBalance newBalance =>
      ({| usersRef := update_balance uid newBalance (usersRef st);
          sessionsRef := sessionsRef st;
          paymentsRef := paymentsRef st |},
       RecordPayment {| p_id := newId c; p_userId := uid;
                        amount := paymentAmount;
                        balanceBefore := currentBalance;
                        balanceAfter := newBalance |})
  | RecordPayment paymentData =>
      ({| usersRef := usersRef st;
          sessionsRef := sessionsRef st;
          paymentsRef := set (p_id paymentData) paymentData (paymentsRef st) |},
       Returned (success (p_id paymentData)
                         {| cents := paymentAmount |}
                         {| cents := balanceBefore paymentData |}
                         {| cents := balanceAfter paymentData |}))
  | Returned r => (st, Returned r)
  end.

Definition resume (c : Call) (t : Task) : Call :=
  {| token := token c; nowMs := nowMs c; newId := newId c; at_ := t |}.

(** The event loop: [schedule] names, turn by turn, the call that is
    resumed next. *)
Fixpoint run (schedule : list nat) (st : Store) (calls : list Call)
  : Store * list Call :=
  match schedule with
  | [] => (st, calls)
  | i :: later =>
      match nth_error calls i with
      | None => run later st calls
      | Some c =>
          let '(st', t) := step st c in
          run later st' (Js.set_at i (resume c t) calls)
      end
  end.

(** [loginUser], run with no other call between its [await]s; [fresh] is
    the salt of [hashToken(token)] and [sessionKey] what [generateId()]
    gives the session. *)
Definition loginUser (st : Store) (name password fresh : string) (now : Z)
           (sessionKey : string) : LoginOutcome * Store :=
  match findUserByUsername st name with
  | None => (login_failure "Invalid credentials", st)
  | Some user =>
      let nowS := Js.seconds now in
      if nowS <? lockedUntil user
      then (login_failure "Account temporarily locked", st)
      else if negb (Bcrypt.compareSync kdf password (passwordHash user))
      then
        let newAttempts := failedAttempts user + 1 in
        let lockUntil := if 5 <=? newAttempts then nowS + 30 * 60 else 0 in
        (login_failure "Invalid credentials",
         {| usersRef := updateFailedAttempts (id user) newAttempts lockUntil
                                             (usersRef st);
            sessionsRef := sessionsRef st;
            paymentsRef := paymentsRef st |})
      else
        let users1 := if 0 <? failedAttempts user
                      then updateFailedAttempts (id user) 0 0 (usersRef st)
                      else usersRef st in
        let tok := make_token (id user) now in
        let sessionData := {| s_id := sessionKey;
                              userId := id user;
                              tokenHash := hashToken tok fresh;
                              expiresAt := nowS + 24 * 60 * 60 |} in
        (login_success tok (id user) (username user)
                       {| cents := balance user |},
         {| usersRef := users1;
            sessionsRef := set sessionKey sessionData (sessionsRef st);
            paymentsRef := paymentsRef st |})
  end.

(** One resumption of a [createUser] call. *)
Definition reg_step (st : Store) (c : Registration) : Store * RegTask :=
  match r_at c with
  | QueryUsername =>
      if username_exists (r_username c) (usersRef st)
      then (st, RegReturned (not_registered "User already exists"))
      else (st, SetUser {| id := r_newId c;
                           username := r_username c;
                           passwordHash :=
                             Bcrypt.hashSync kdf (r_password c) 12 (r_fresh c);
                           balance := 800;
                           failedAttempts := 0;
                           lockedUntil := 0 |})
  | SetUser userData =>
      ({| usersRef := set (id userData) userData (usersRef st);
          sessionsRef := sessionsRef st;
          paymentsRef := paymentsRef st |},
       RegReturned (registered (id userData) (username userData)
                               {| cents := 800 |}))
  | RegReturned r => (st, RegReturned r)
  end.

Definition reg_resume (c : Registration) (t : RegTask) : Registration :=
  {| r_username := r_username c; r_password := r_password c;
     r_newId := r_newId c; r_fresh := r_fresh c; r_at := t |}.

Fixpoint reg_run (schedule : list nat) (st : Store) (calls : list Registration)
  : Store * list Registration :=
  match schedule with
  | [] => (st, calls)
  | i :: later =>
      match nth_error calls i with
      | None => reg_run later st calls
      | Some c =>
          let '(st', t) := reg_step st c in
          reg_run later st' (Js.set_at i (reg_resume c t) calls)
      end
  end.

(** [createUser(username, password)] as it starts. *)
Definition createUser (name password newId fresh : string) : Registration :=
  {| r_username := name; r_password := password; r_newId := newId;
     r_fresh := fresh; r_at := QueryUsername |}.

(** The first session, in key order, whose hash the token verifies. *)
Definition first_match (tok : string) (l : list (string * Session))
  : option (string * Session) :=
  find (fun kv => verifyToken tok (tokenHash (snd kv))) l.

(** [logout], run with no other call between its [await]s: the message it
    returns (with [success: true] in every case) and the store. *)
Definition logout (st : Store) (tok : string) : string * Store :=
  match sessionsRef st with
  | [] => ("No active sessions to logout"%string, st)
  | allSessions =>
      match first_match tok allSessions with
      | Some (key, _) =>
          ("Logged out successfully"%string,
           {| usersRef := usersRef st;
              sessionsRef := remove key (sessionsRef st);
              paymentsRef := paymentsRef st |})
      | None => ("Session not found, but logout successful"%string, st)
      end
  end.

(** [processPayment(token)] as it starts. *)
Definition processPayment (tok : string) (now : Z) (paymentKey : string)
  : Call :=
  {| token := tok; nowMs := now; newId := paymentKey; at_ := ReadSessions |}.

End Kdf.

(** A call that is about to write a balance writes one that is not
    negative. *)
Definition writes_nonneg (c : Call) : Prop :=
  match at_ c with
  | UpdateBalance _ _ newBalance => 0 <= newBalance
  | _ => True
  end.

Definition balances_nonneg (st : Store) : Prop :=
  Forall (fun kv => 0 <= balance (snd kv)) (usersRef st).

Definition succeeded (c : Call) : bool :=
  match at_ c with
  | Returned (success _ _ _ _) => true
  | _ => false
  end.

Definition returned (c : Call) : bool :=
  match at_ c with
  | Returned _ => true
  | _ => false
  end.

End FirebaseDatabase.


(** ** Sample digests and stores

    Stand-ins for the external digests, for running the model on concrete
    inputs. *)

Module Sample.

Definition kdf (r : Z) (fresh data : string) : string :=
  (fresh ++ "$" ++ data)%string.

Definition sha256_hex (data : string) : string := ("sha256:" ++ data)%string.

Definition jwt_sign (userId : Z) (name secret : string) (nowMs : Z) : string :=
  ("jwt." ++ name ++ "." ++ Js.toString (Js.seconds nowMs))%string.

(** Accepts the tokens [jwt_sign] makes. *)
Definition jwt_verify (token secret : string) (nowMs : Z) : bool :=
  String.prefix "jwt." token.

(** The JSON-file store after [createUser("alice", "secret1")]. *)
Definition alice_registered : FileDb.Db :=
  snd (FileDb.createUser kdf FileDb.empty "alice" "secret1" "salt-a" 1000).

(** Five wrong passwords for "alice", at seconds 10, 11, 12, 13 and 14. *)
Definition five_wrong : list (string * Z) :=
  [("guess1"%string, 10000); ("guess2"%string, 11000);
   ("guess3"%string, 12000); ("guess4"%string, 13000);
   ("guess5"%string, 14000)].

(** The store after them: "alice" is locked until second 1814. *)
Definition alice_locked : FileDb.Db :=
  snd (App.logins kdf sha256_hex jwt_sign alice_registered "alice" five_wrong).

(** "alice" logs in at second 20: the token she is given and the store
    that holds her session. *)
Definition alice_token : string := jwt_sign 1 "alice" App.JWT_SECRET 20000.

Definition alice_logged_in : FileDb.Db :=
  snd (App.login kdf sha256_hex jwt_sign alice_registered "alice" "secret1"
                 20000).

(** A remote store with one user, "alice", whose balance covers one
    charge, and the session of the token she was given at second 20. *)
Definition fb_alice : FirebaseDatabase.User :=
  {| FirebaseDatabase.id := "u1";
     FirebaseDatabase.username := "alice";
     FirebaseDatabase.passwordHash := Bcrypt.hashSync kdf "secret1" 12 "salt-a";
     FirebaseDatabase.balance := 110;
     FirebaseDatabase.failedAttempts := 0;
     FirebaseDatabase.lockedUntil := 0 |}.

Definition fb_registered : FirebaseDatabase.Store :=
  {| FirebaseDatabase.usersRef := [("u1"%string, fb_alice)];
     FirebaseDatabase.sessionsRef := [];
     FirebaseDatabase.paymentsRef := [] |}.

Definition fb_token : string := "token_u1_20000".

Definition fb_logged_in : FirebaseDatabase.Store :=
  snd (FirebaseDatabase.loginUser kdf fb_registered "alice" "secret1"
                                  "salt-t" 20000 "s1").

(** "alice" pays once, at second 30, with the token she was given. *)
Definition alice_charged : FileDb.Db :=
  snd (App.post_payments sha256_hex jwt_verify alice_logged_in
                         (Some alice_token) 30000).

(** A store as the JSON file may hold it: one user, "carol", with exactly
    110 cents. *)
Definition carol_store : FileDb.Db :=
  {| FileDb.users :=
       [{| FileDb.u_id := 3; FileDb.username := "carol";
           FileDb.password_hash := Bcrypt.hashSync kdf "carol-pw" 12 "salt-c";
           FileDb.balance := 110; FileDb.failed_attempts := 0;
           FileDb.locked_until := 0; FileDb.u_created_at := 5 |}];
     FileDb.sessions :=
       [{| FileDb.s_id := 1; FileDb.user_id := 3;
           FileDb.token_hash := sha256_hex "jwt.carol.5";
           FileDb.expires_at := 50; FileDb.s_created_at := 5 |};
        {| FileDb.s_id := 2; FileDb.user_id := 3;
           FileDb.token_hash := sha256_hex "jwt.carol.60";
           FileDb.expires_at := 86460; FileDb.s_created_at := 60 |}];
     FileDb.payments := [];
     FileDb.lastUserId := 3; FileDb.lastSessionId := 2;
     FileDb.lastPaymentId := 0 |}.

(** appV2.js: "alice" registers, and a login goes through because it
    draws the salt of her registration again. *)
Definition appv2_logged_in : SimpleDatabase.Db :=
  snd (SimpleDatabase.loginUser kdf
         (snd (SimpleDatabase.createUser kdf SimpleDatabase.new
                 "alice" "secret1" "salt-a"))
         "alice" "secret1" "salt-a" "salt-t" 20000).

End Sample.

(** * Properties *)

(** ** Arrays *)

Module JsFacts.
Import Js.

Lemma findIndex_of_find {A : Type} (p : A -> bool) (l : list A) (x : A) :
  find p l = Some x ->
  exists i, findIndex p l = Some i /\ nth_error l i = Some x.
Proof.
  induction l as [|y r IH]; simpl; [discriminate|].
  destruct (p y) eqn:Hy.
  - intros [= ->]. exists O. split; reflexivity.
  - intros H. destruct (IH H) as (i & Hi & Hn).
    exists (S i). rewrite Hi. split; [reflexivity | exact Hn].
Qed.

Lemma find_set_at {A : Type} (p : A -> bool) (l : list A) (i : nat) (y : A) :
  findIndex p l = Some i -> p y = true -> find p (set_at i y l) = Some y.
Proof.
  revert i. induction l as [|x r IH]; simpl; intros i; [discriminate|].
  destruct (p x) eqn:Hx.
  - intros [= <-] Hy. simpl. rewrite Hy. reflexivity.
  - destruct (findIndex p r) as [j|] eqn:Hj; [|discriminate].
    intros [= <-] Hy. simpl. rewrite Hx. apply IH; [reflexivity | exact Hy].
Qed.

Lemma nth_error_set_at_other {A : Type} (l : list A) (i j : nat) (y : A) :
  i <> j -> nth_error (set_at i y l) j = nth_error l j.
Proof.
  revert i j. induction l as [|x r IH]; intros i j Hij.
  - destruct i; reflexivity.
  - destruct i as [|i], j as [|j]; simpl; try reflexivity.
    + congruence.
    + apply IH. congruence.
Qed.

Lemma map_update_first {A B : Type} (g : A -> B) (p : A -> bool)
      (f : A -> A) (l : list A) :
  (forall x, g (f x) = g x) -> map g (update_first p f l) = map g l.
Proof.
  intros Hg. induction l as [|x r IH]; simpl; [reflexivity|].
  destruct (p x); simpl; [rewrite Hg | rewrite IH]; reflexivity.
Qed.

Lemma map_set_at {A B : Type} (g : A -> B) (l : list A) (i : nat) (x y : A) :
  nth_error l i = Some x -> g y = g x -> map g (set_at i y l) = map g l.
Proof.
  revert i. induction l as [|z r IH]; intros i; destruct i; simpl;
    try discriminate.
  - intros [= ->] ->. reflexivity.
  - intros Hn Hg. rewrite (IH _ Hn Hg). reflexivity.
Qed.

Lemma find_none_filter {A : Type} (p : A -> bool) (l : list A) :
  find p l = None -> filter p l = [].
Proof.
  induction l as [|x r IH]; simpl; [reflexivity|].
  destruct (p x); [discriminate | exact IH].
Qed.

End JsFacts.

(** ** The ledger of database.js *)

Module LedgerFacts.
Import FileDb.

Lemma has_id_set_balance (i : Z) (u : User) (b : Z) :
  has_id i (set_balance u b) = has_id i u.
Proof. reflexivity. Qed.

Lemma find_has_id (i : Z) (l : list User) (u : User) :
  find (has_id i) l = Some u -> u_id u = i.
Proof.
  intros H. apply find_some in H. destruct H as [_ H].
  unfold has_id in H. apply Z.eqb_eq in H. exact H.
Qed.

Lemma processPayment_insufficient (db : Db) (userId nowMs : Z) (user : User) :
  find (has_id userId) (users db) = Some user ->
  balance user < 110 ->
  processPayment db userId nowMs = (Throw InsufficientFunds, db).
Proof.
  intros Hfind Hlt.
  destruct (JsFacts.findIndex_of_find _ _ _ Hfind) as (i & Hi & Hn).
  unfold processPayment, paymentAmount. rewrite Hi, Hn.
  destruct (Z.ltb_spec (balance user) 110); [reflexivity | lia].
Qed.

Lemma processPayment_sufficient (db : Db) (userId nowMs : Z) (user : User) :
  find (has_id userId) (users db) = Some user ->
  110 <= balance user ->
  exists userIndex,
    Js.findIndex (has_id userId) (users db) = Some userIndex
    /\ processPayment db userId nowMs =
       (Return {| paymentId := lastPaymentId db + 1;
                  r_amount := {| cents := 110 |};
                  balanceBefore := {| cents := balance user |};
                  balanceAfter := {| cents := balance user - 110 |} |},
        {| users := Js.set_at userIndex
                      (set_balance user (balance user - 110)) (users db);
           sessions := sessions db;
           payments := payments db ++
             [{| p_id := lastPaymentId db + 1;
                 p_user_id := userId;
                 amount := 110;
                 balance_before := balance user;
                 balance_after := balance user - 110;
                 p_created_at := Js.seconds nowMs |}];
           lastUserId := lastUserId db;
           lastSessionId := lastSessionId db;
           lastPaymentId := lastPaymentId db + 1 |}).
Proof.
  intros Hfind Hge.
  destruct (JsFacts.findIndex_of_find _ _ _ Hfind) as (i & Hi & Hn).
  exists i. split; [exact Hi|].
  unfold processPayment, paymentAmount. rewrite Hi, Hn.
  destruct (Z.ltb_spec (balance user) 110); [lia | reflexivity].
Qed.

(** The user [processPayment] has charged, as the store holds it
    afterwards. *)
Lemma find_charged (l : list User) (userId : Z) (user : User) (i : nat)
      (b : Z) :
  find (has_id userId) l = Some user ->
  Js.findIndex (has_id userId) l = Some i ->
  find (has_id userId) (Js.set_at i (set_balance user b) l)
  = Some (set_balance user b).
Proof.
  intros Hfind Hi. apply JsFacts.find_set_at; [exact Hi|].
  rewrite has_id_set_balance.
  unfold has_id. apply Z.eqb_eq. eapply find_has_id; exact Hfind.
Qed.

(** C1.  [processPayment(userId)], for the user the store holds under
    [userId]: it returns a receipt exactly when the balance is at least
    110; it then writes [balance - 110] to that user alone and appends one
    payment record with [balance_before] the balance found and
    [balance_after = balance_before - 110]; otherwise it throws
    "Insufficient funds" and the store is the one it started from. *)
Theorem processPayment_charge (db : Db) (userId nowMs : Z) (user : User) :
  find (has_id userId) (users db) = Some user ->
  let result := processPayment db userId nowMs in
  ((exists receipt, fst result = Return receipt) <-> 110 <= balance user)
  /\ (110 <= balance user ->
      exists userIndex,
        Js.findIndex (has_id userId) (users db) = Some userIndex
        /\ result =
           (Return {| paymentId := lastPaymentId db + 1;
                      r_amount := {| cents := 110 |};
                      balanceBefore := {| cents := balance user |};
                      balanceAfter := {| cents := balance user - 110 |} |},
            {| users := Js.set_at userIndex
                          (set_balance user (balance user - 110)) (users db);
               sessions := sessions db;
               payments := payments db ++
                 [{| p_id := lastPaymentId db + 1;
                     p_user_id := userId;
                     amount := 110;
                     balance_before := balance user;
                     balance_after := balance user - 110;
                     p_created_at := Js.seconds nowMs |}];
               lastUserId := lastUserId db;
               lastSessionId := lastSessionId db;
               lastPaymentId := lastPaymentId db + 1 |})
        /\ find (has_id userId) (users (snd result))
           = Some (set_balance user (balance user - 110))
        /\ (forall j, j <> userIndex ->
              nth_error (users (snd result)) j = nth_error (users db) j))
  /\ (balance user < 110 -> result = (Throw InsufficientFunds, db)).
Proof.
  intros Hfind result. split; [|split].
  - split.
    + intros [receipt Hr].
      destruct (Z.lt_ge_cases (balance user) 110) as [Hlt | Hge];
        [|exact Hge].
      unfold result in Hr.
      rewrite (processPayment_insufficient _ _ _ _ Hfind Hlt) in Hr.
      discriminate Hr.
    + intros Hge.
      destruct (processPayment_sufficient db userId nowMs user Hfind Hge)
        as (i & _ & Heq).
      unfold result. rewrite Heq. eexists. reflexivity.
  - intros Hge.
    destruct (processPayment_sufficient db userId nowMs user Hfind Hge)
      as (i & Hi & Heq).
    exists i. unfold result. rewrite Heq.
    split; [exact Hi|]. split; [reflexivity|]. split.
    + apply find_charged; assumption.
    + intros j Hj. simpl. apply JsFacts.nth_error_set_at_other. congruence.
  - intros Hlt. apply (processPayment_insufficient _ _ _ user); assumption.
Qed.

(** C1 at the store of a fresh account: the first charge is recorded as
    before 800, after 690. *)
Lemma processPayment_charge_fresh :
  find (has_id 1) (users Sample.alice_registered)
  = Some {| u_id := 1; username := "alice";
            password_hash := Bcrypt.hashSync Sample.kdf "secret1" 12 "salt-a";
            balance := 800; failed_attempts := 0; locked_until := 0;
            u_created_at := 1 |}
  /\ payments (snd (processPayment Sample.alice_registered 1 2000))
     = [{| p_id := 1; p_user_id := 1; amount := 110; balance_before := 800;
           balance_after := 690; p_created_at := 2 |}].
Proof.
  split; [reflexivity|].
  pose proof (processPayment_charge Sample.alice_registered 1 2000 _
                                    (eq_refl _)) as H.
  destruct H as (_ & H & _).
  destruct (H ltac:(simpl; lia)) as (i & _ & Heq & _).
  rewrite Heq. reflexivity.
Defined.

(** A fresh account charged until it runs dry: seven charges go through,
    from before 800 / after 690 and before 690 / after 580 down to before
    140 / after 30, and the eighth throws "Insufficient funds" and changes
    nothing. *)
Lemma charges_of_a_fresh_account :
  let '(results, db) :=
    charges Sample.alice_registered 1
            [2000; 3000; 4000; 5000; 6000; 7000; 8000] in
  map (fun p => (balance_before p, balance_after p)) (payments db)
  = [(800, 690); (690, 580); (580, 470); (470, 360); (360, 250); (250, 140);
     (140, 30)]
  /\ map balance (users db) = [30]
  /\ processPayment db 1 9000 = (Throw InsufficientFunds, db).
Proof. vm_compute. repeat split. Qed.

End LedgerFacts.

(** ** Registration in database.js *)

Module RegistrationFacts.
Import FileDb.

Lemma find_username_none (name : string) (l : list User) :
  find (has_username name) l = None <-> ~ In name (map username l).
Proof.
  induction l as [|u r IH]; simpl.
  - split; [intros _ [] | reflexivity].
  - unfold has_username at 1. destruct (String.eqb_spec (username u) name) as [E|E].
    + split; [discriminate | intros H; exfalso; apply H; left; exact E].
    + rewrite IH. split; [intros H [F|F]; [exact (E F) | exact (H F)]
                         | intros H F; apply H; right; exact F].
Qed.

Lemma filter_update_first (p q : User -> bool) (f : User -> User)
      (l : list User) :
  (forall x, p (f x) = p x) ->
  List.length (filter p (Js.update_first q f l)) = List.length (filter p l).
Proof.
  intros Hp. induction l as [|x r IH]; simpl; [reflexivity|].
  destruct (q x); simpl.
  - rewrite Hp. destruct (p x); reflexivity.
  - destruct (p x); simpl; rewrite IH; reflexivity.
Qed.

Lemma filter_set_at (p : User -> bool) (l : list User) (i : nat)
      (x y : User) :
  nth_error l i = Some x -> p y = p x ->
  List.length (filter p (Js.set_at i y l)) = List.length (filter p l).
Proof.
  revert i. induction l as [|z r IH]; intros i; destruct i; simpl;
    try discriminate.
  - intros [= ->] ->. destruct (p x); reflexivity.
  - intros Hn Hp. destruct (p z); simpl; rewrite (IH _ Hn Hp); reflexivity.
Qed.

Lemma findIndex_nth (p : User -> bool) (l : list User) (i : nat) :
  Js.findIndex p l = Some i -> exists x, nth_error l i = Some x.
Proof.
  revert i. induction l as [|y r IH]; simpl; intros i; [discriminate|].
  destruct (p y).
  - intros [= <-]. exists y. reflexivity.
  - destruct (Js.findIndex p r) as [j|]; [|discriminate].
    intros [= <-]. simpl. apply IH. reflexivity.
Qed.

(** What [processPayment] does to the list of users: nothing, or a new
    balance for one of them. *)
Lemma processPayment_users (db : Db) (userId nowMs : Z) :
  users (snd (processPayment db userId nowMs)) = users db
  \/ exists i x b, nth_error (users db) i = Some x
                   /\ users (snd (processPayment db userId nowMs))
                      = Js.set_at i (set_balance x b) (users db).
Proof.
  unfold processPayment.
  destruct (Js.findIndex (has_id userId) (users db)) as [i|] eqn:Hi;
    [|left; reflexivity].
  destruct (nth_error (users db) i) as [x|] eqn:Hx; [|left; reflexivity].
  destruct (balance x <? paymentAmount); [left; reflexivity|].
  right. exists i, x, (balance x - paymentAmount). split; [exact Hx|reflexivity].
Qed.

Section Kdf.
Variable kdf : Z -> string -> string -> string.

Lemma createUser_users (db : Db) (name password fresh : string) (nowMs : Z) :
  (find (has_username name) (users db) <> None
   /\ createUser kdf db name password fresh nowMs
      = (Throw CONSTRAINT_UNIQUE, db))
  \/ (find (has_username name) (users db) = None
      /\ exists u, username u = name
                   /\ users (snd (createUser kdf db name password fresh nowMs))
                      = users db ++ [u]).
Proof.
  unfold createUser.
  destruct (find (has_username name) (users db)) eqn:Hf.
  - left. split; [discriminate | reflexivity].
  - right. split; [reflexivity|]. eexists. split; [|reflexivity]. reflexivity.
Qed.

(** No function of the store changes a user name or removes a user. *)
Lemma exec_usernames (db : Db) (op : Op) :
  map username (users (exec kdf db op)) = map username (users db)
  \/ exists name, find (has_username name) (users db) = None
                  /\ map username (users (exec kdf db op))
                     = map username (users db) ++ [name].
Proof.
  destruct op as [name password fresh nowMs | userId attempts lockUntil
                 | userId tokenHash expiresAt nowMs | tokenHash
                 | userId nowMs | nowMs]; simpl.
  - destruct (createUser_users db name password fresh nowMs)
      as [[_ ->] | (Hn & u & Hu & ->)].
    + left. reflexivity.
    + right. exists name. split; [exact Hn|].
      rewrite map_app. simpl. rewrite Hu. reflexivity.
  - left. apply JsFacts.map_update_first. reflexivity.
  - left. reflexivity.
  - left. reflexivity.
  - left. destruct (processPayment_users db userId nowMs)
      as [-> | (i & x & b & Hx & ->)]; [reflexivity|].
    eapply JsFacts.map_set_at; [exact Hx | reflexivity].
  - left. reflexivity.
Qed.

Lemma exec_unique_usernames (db : Db) (op : Op) :
  unique_usernames db -> unique_usernames (exec kdf db op).
Proof.
  unfold unique_usernames. intros H.
  destruct (exec_usernames db op) as [-> | (name & Hn & ->)]; [exact H|].
  apply find_username_none in Hn.
  apply NoDup_app; [exact H | repeat constructor; intros [] |].
  intros x Hx [<- | []]. exact (Hn Hx).
Qed.

Lemma count_of_usernames (name : string) (l : list User) :
  List.length (filter (has_username name) l)
  = count_occ string_dec (map username l) name.
Proof.
  induction l as [|u r IH]; simpl; [reflexivity|].
  unfold has_username at 1.
  destruct (String.eqb_spec (username u) name) as [E|E];
    destruct (string_dec (username u) name) as [E'|E']; try contradiction;
    simpl; rewrite IH; reflexivity.
Qed.

Lemma exec_count (db : Db) (op : Op) (name : string) :
  count_username name db = 1%nat -> count_username name (exec kdf db op) = 1%nat.
Proof.
  unfold count_username. rewrite !count_of_usernames. intros H.
  destruct (exec_usernames db op) as [-> | (name' & Hn & ->)]; [exact H|].
  rewrite count_occ_app, H. simpl.
  destruct (string_dec name' name) as [->|_]; [|reflexivity].
  exfalso. apply find_username_none in Hn. apply Hn.
  apply (count_occ_In string_dec). lia.
Qed.

Lemma count_one_found (db : Db) (name : string) :
  count_username name db = 1%nat ->
  find (has_username name) (users db) <> None.
Proof.
  unfold count_username. rewrite count_of_usernames. intros H Hn.
  apply find_username_none in Hn. apply Hn.
  apply (count_occ_In string_dec). lia.
Qed.

(** C8.  After [createUser(username, ...)] has returned, and whatever the
    store's functions are then called with, a further [createUser] for the
    same name throws CONSTRAINT_UNIQUE ("Username already exists") and
    leaves the store as it is, and exactly one user record carries the
    name; and every function of the store keeps user names distinct when
    they were (as they are in the empty store). *)
Theorem createUser_unique (db : Db) (name password fresh : string) (nowMs : Z)
        (created : Z * string) (db1 : Db) :
  createUser kdf db name password fresh nowMs = (Return created, db1) ->
  created = (lastUserId db + 1, name)
  /\ (forall (ops : list Op) (password2 fresh2 : string) (nowMs2 : Z),
        let db2 := exec_all kdf db1 ops in
        createUser kdf db2 name password2 fresh2 nowMs2
        = (Throw CONSTRAINT_UNIQUE, db2)
        /\ count_username name db2 = 1%nat)
  /\ unique_usernames empty
  /\ (forall (db0 : Db) (ops : list Op),
        unique_usernames db0 -> unique_usernames (exec_all kdf db0 ops)).
Proof.
  intros Hc.
  assert (Hone : count_username name db1 = 1%nat /\ created = (lastUserId db + 1, name)).
  { unfold createUser in Hc.
    destruct (find (has_username name) (users db)) eqn:Hf; [discriminate|].
    injection Hc as <- <-. split; [|reflexivity].
    unfold count_username. simpl. rewrite filter_app.
    rewrite (JsFacts.find_none_filter _ _ Hf). simpl.
    unfold has_username. simpl. rewrite String.eqb_refl. reflexivity. }
  destruct Hone as [Hone Hcr].
  split; [exact Hcr|]. split; [|split].
  - intros ops. clear Hc. revert db1 Hone. unfold exec_all.
    induction ops as [|op ops IH]; intros db1 Hone password2 fresh2 nowMs2.
    + simpl. split; [|exact Hone].
      destruct (createUser_users db1 name password2 fresh2 nowMs2)
        as [[_ H] | [H _]]; [exact H|].
      exfalso. exact (count_one_found _ _ Hone H).
    + simpl. apply IH. apply exec_count. exact Hone.
  - constructor.
  - intros db0 ops. revert db0. unfold exec_all.
    induction ops as [|op ops IH]; intros db0 H; simpl; [exact H|].
    apply IH. apply exec_unique_usernames. exact H.
Qed.

End Kdf.

(** C8 at the empty store: "alice" registers, and the second
    registration of "alice" is refused. *)
Lemma createUser_unique_alice :
  createUser Sample.kdf empty "alice" "secret1" "salt-a" 1000
  = (Return (1, "alice"%string), Sample.alice_registered)
  /\ createUser Sample.kdf Sample.alice_registered "alice" "other-pw" "salt-b"
                2000
     = (Throw CONSTRAINT_UNIQUE, Sample.alice_registered)
  /\ count_username "alice" Sample.alice_registered = 1%nat.
Proof.
  split; [reflexivity|].
  pose proof (createUser_unique Sample.kdf empty "alice" "secret1" "salt-a"
                1000 _ _ (eq_refl _)) as (_ & H & _).
  exact (H [] "other-pw"%string "salt-b"%string 2000).
Defined.

End RegistrationFacts.

(** ** What every store reached through app.js satisfies *)

Module StoreFacts.
Import FileDb.

Lemma find_id_in (i : Z) (l : list User) :
  (exists u, find (has_id i) l = Some u) <-> In i (map u_id l).
Proof.
  induction l as [|x r IH]; simpl.
  - split; [intros [u H]; discriminate | intros []].
  - unfold has_id at 1. destruct (Z.eqb_spec (u_id x) i) as [E|E].
    + split; [intros _; left; exact E | intros _; exists x; reflexivity].
    + rewrite IH. split; [intros H; right; exact H | intros [H|H]; [contradiction | exact H]].
Qed.

Lemma Forall_update_first {A : Type} (P : A -> Prop) (q : A -> bool)
      (f : A -> A) (l : list A) :
  Forall P l -> (forall x, P x -> P (f x)) -> Forall P (Js.update_first q f l).
Proof.
  intros H Hf. induction H as [|x r Hx Hr IH]; simpl; [constructor|].
  destruct (q x); constructor; auto.
Qed.

Lemma Forall_set_at {A : Type} (P : A -> Prop) (l : list A) (i : nat) (y : A) :
  Forall P l -> P y -> Forall P (Js.set_at i y l).
Proof.
  intros H Hy. revert i. induction H as [|x r Hx Hr IH]; intros i.
  - destruct i; constructor.
  - destruct i; simpl; constructor; auto.
Qed.

(** The user [find] returns is the first one with its own id, when ids are
    distinct. *)
Lemma find_by_own_id (p : User -> bool) (l : list User) (u : User) :
  NoDup (map u_id l) -> find p l = Some u -> find (has_id (u_id u)) l = Some u.
Proof.
  induction l as [|x r IH]; simpl; [discriminate|].
  intros Hnd Hf. inversion Hnd as [|? ? Hx Hr]; subst.
  destruct (p x).
  - injection Hf as ->. unfold has_id. rewrite Z.eqb_refl. reflexivity.
  - unfold has_id at 1. destruct (Z.eqb_spec (u_id x) (u_id u)) as [E|E].
    + exfalso. apply Hx. rewrite E. apply in_map.
      apply find_some in Hf. exact (proj1 Hf).
    + apply IH; assumption.
Qed.

(** Writing to the user [find] returned, through its id, changes that
    user where [find] finds it. *)
Lemma find_update_own (p : User -> bool) (f : User -> User) (l : list User)
      (u : User) :
  NoDup (map u_id l) -> find p l = Some u -> p (f u) = true ->
  find p (Js.update_first (has_id (u_id u)) f l) = Some (f u).
Proof.
  induction l as [|x r IH]; simpl; [discriminate|].
  intros Hnd Hf Hp. inversion Hnd as [|? ? Hx Hr]; subst.
  destruct (p x) eqn:Hpx.
  - injection Hf as ->. unfold has_id. rewrite Z.eqb_refl. simpl.
    rewrite Hp. reflexivity.
  - unfold has_id at 1. destruct (Z.eqb_spec (u_id x) (u_id u)) as [E|E].
    + exfalso. apply Hx. rewrite E. apply in_map.
      apply find_some in Hf. exact (proj1 Hf).
    + simpl. rewrite Hpx. apply IH; assumption.
Qed.

Lemma sessions_have_users_ids (db db' : Db) :
  sessions_have_users db ->
  (forall i, In i (map u_id (users db)) -> In i (map u_id (users db'))) ->
  (forall s, In s (sessions db') -> In s (sessions db)
                                    \/ In (user_id s) (map u_id (users db'))) ->
  sessions_have_users db'.
Proof.
  unfold sessions_have_users. intros H Hu Hs.
  apply Forall_forall. intros s Hin. apply find_id_in.
  destruct (Hs s Hin) as [Hold | Hnew]; [|exact Hnew].
  apply Hu. apply find_id_in.
  rewrite Forall_forall in H. exact (H s Hold).
Qed.

Lemma attempts_ok_set (a b : Z) (u : User) :
  0 <= a -> (b = 0 \/ 5 <= a) -> attempts_ok (set_attempts a b u).
Proof. intros Ha Hb. split; assumption. Qed.

Lemma consistent_updateFailedAttempts (db : Db) (userId a b : Z) :
  App.consistent db -> 0 <= a -> (b = 0 \/ 5 <= a) ->
  App.consistent (updateFailedAttempts db userId a b).
Proof.
  intros (Hid & Hiss & Hun & Hok & Hs) Ha Hb.
  assert (Hmap : map u_id (users (updateFailedAttempts db userId a b))
                 = map u_id (users db)).
  { apply JsFacts.map_update_first. reflexivity. }
  repeat split.
  - unfold unique_ids. rewrite Hmap. exact Hid.
  - unfold ids_issued in *. simpl.
    apply Forall_update_first; [exact Hiss | intros x Hx; exact Hx].
  - unfold unique_usernames. simpl.
    rewrite JsFacts.map_update_first; [exact Hun | reflexivity].
  - simpl. apply Forall_update_first; [exact Hok|].
    intros x _. apply attempts_ok_set; assumption.
  - apply (sessions_have_users_ids db); [exact Hs | |].
    + intros i. rewrite Hmap. auto.
    + intros s Hin. left. exact Hin.
Qed.

Lemma consistent_saveSession (db : Db) (userId : Z) (h : string)
      (e nowMs : Z) :
  App.consistent db -> In userId (map u_id (users db)) ->
  App.consistent (saveSession db userId h e nowMs).
Proof.
  intros (Hid & Hiss & Hun & Hok & Hs) Hin.
  repeat split; try assumption.
  apply (sessions_have_users_ids db); [exact Hs | auto |].
  simpl. intros s Hs'. apply in_app_or in Hs'.
  destruct Hs' as [Hs' | [<- | []]]; [left; exact Hs' | right; exact Hin].
Qed.

Lemma consistent_removeSession (db : Db) (h : string) :
  App.consistent db -> App.consistent (removeSession db h).
Proof.
  intros (Hid & Hiss & Hun & Hok & Hs).
  repeat split; try assumption.
  apply (sessions_have_users_ids db); [exact Hs | auto |].
  simpl. intros s Hin. left. apply filter_In in Hin. exact (proj1 Hin).
Qed.

Lemma consistent_processPayment (db : Db) (userId nowMs : Z) :
  App.consistent db -> App.consistent (snd (processPayment db userId nowMs)).
Proof.
  intros (Hid & Hiss & Hun & Hok & Hs).
  assert (Hsess : sessions (snd (processPayment db userId nowMs)) = sessions db).
  { unfold processPayment.
    destruct (Js.findIndex _ _); [|reflexivity].
    destruct (nth_error _ _); [|reflexivity].
    destruct (_ <? _); reflexivity. }
  assert (Hlast : lastUserId (snd (processPayment db userId nowMs))
                  = lastUserId db).
  { unfold processPayment.
    destruct (Js.findIndex _ _); [|reflexivity].
    destruct (nth_error _ _); [|reflexivity].
    destruct (_ <? _); reflexivity. }
  destruct (RegistrationFacts.processPayment_users db userId nowMs)
    as [Hu | (i & x & b & Hx & Hu)].
  - repeat split.
    + unfold unique_ids. rewrite Hu. exact Hid.
    + unfold ids_issued. rewrite Hu, Hlast. exact Hiss.
    + unfold unique_usernames. rewrite Hu. exact Hun.
    + rewrite Hu. exact Hok.
    + apply (sessions_have_users_ids db); [exact Hs | rewrite Hu; auto |].
      rewrite Hsess. auto.
  - assert (Hmap : map u_id (users (snd (processPayment db userId nowMs)))
                   = map u_id (users db)).
    { rewrite Hu. eapply JsFacts.map_set_at; [exact Hx | reflexivity]. }
    repeat split.
    + unfold unique_ids. rewrite Hmap. exact Hid.
    + unfold ids_issued in *. rewrite Hu, Hlast.
      apply Forall_set_at; [exact Hiss|].
      rewrite Forall_forall in Hiss. apply (Hiss x).
      eapply nth_error_In. exact Hx.
    + unfold unique_usernames. rewrite Hu.
      erewrite JsFacts.map_set_at; [exact Hun | exact Hx | reflexivity].
    + rewrite Hu. apply Forall_set_at; [exact Hok|].
      rewrite Forall_forall in Hok. apply (Hok x).
      eapply nth_error_In. exact Hx.
    + apply (sessions_have_users_ids db); [exact Hs | rewrite Hmap; auto |].
      rewrite Hsess. auto.
Qed.

Section Kdf.
Variable kdf : Z -> string -> string -> string.

Lemma consistent_createUser (db : Db) (name password fresh : string)
      (nowMs : Z) :
  App.consistent db ->
  App.consistent (snd (createUser kdf db name password fresh nowMs)).
Proof.
  intros (Hid & Hiss & Hun & Hok & Hs).
  unfold createUser.
  destruct (find (has_username name) (users db)) eqn:Hf;
    [repeat split; assumption|].
  simpl. repeat split.
  - unfold unique_ids. simpl. rewrite map_app. simpl.
    apply NoDup_app; [exact Hid | repeat constructor; intros [] |].
    intros i Hi [<- | []].
    unfold ids_issued in Hiss. rewrite Forall_forall in Hiss.
    apply in_map_iff in Hi. destruct Hi as (u & Hu & Hin).
    specialize (Hiss u Hin). lia.
  - unfold ids_issued in *. simpl. apply Forall_app. split.
    + eapply Forall_impl; [|exact Hiss]. simpl. intros u Hu. lia.
    + repeat constructor. simpl. lia.
  - unfold unique_usernames. simpl. rewrite map_app. simpl.
    apply RegistrationFacts.find_username_none in Hf.
    apply NoDup_app; [exact Hun | repeat constructor; intros [] |].
    intros x Hx [<- | []]. exact (Hf Hx).
  - simpl. apply Forall_app. split; [exact Hok|].
    repeat constructor; simpl; lia.
  - apply (sessions_have_users_ids db); [exact Hs | |].
    + simpl. intros i Hi. rewrite map_app. apply in_or_app. left. exact Hi.
    + simpl. auto.
Qed.

End Kdf.

End StoreFacts.

(** ** Login and lockout in app.js *)

Module AuthFacts.
Import FileDb.

Section Crypto.
Variable kdf : Z -> string -> string -> string.
Variable sha256_hex : string -> string.
Variable jwt_sign : Z -> string -> string -> Z -> string.
Variable jwt_verify : string -> string -> Z -> bool.

Local Abbreviation login := (App.login kdf sha256_hex jwt_sign).
Local Abbreviation logins := (App.logins kdf sha256_hex jwt_sign).
Local Abbreviation handle := (App.handle kdf sha256_hex jwt_sign jwt_verify).
Local Abbreviation reachable := (App.reachable kdf sha256_hex jwt_sign jwt_verify).
Local Abbreviation authenticateToken := (App.authenticateToken sha256_hex jwt_verify).

(** While the lock holds the password is not looked at and nothing is
    written. *)
Lemma login_locked (db : Db) (name password : string) (nowMs : Z) (u : User) :
  findUser db name = Some u ->
  Js.seconds nowMs < locked_until u ->
  login db name password nowMs = (App.account_locked, db).
Proof.
  intros Hf Hl. unfold App.login. rewrite Hf.
  destruct (Z.ltb_spec (Js.seconds nowMs) (locked_until u)); [reflexivity|lia].
Qed.

Lemma login_wrong (db : Db) (name password : string) (nowMs : Z) (u : User) :
  findUser db name = Some u ->
  locked_until u <= Js.seconds nowMs ->
  Bcrypt.compareSync kdf password (password_hash u) = false ->
  login db name password nowMs
  = (App.invalid_credentials,
     updateFailedAttempts db (u_id u) (failed_attempts u + 1)
       (if 5 <=? failed_attempts u + 1 then Js.seconds nowMs + 30 * 60 else 0)).
Proof.
  intros Hf Hl Hw. unfold App.login. rewrite Hf.
  destruct (Z.ltb_spec (Js.seconds nowMs) (locked_until u)); [lia|].
  rewrite Hw. reflexivity.
Qed.

Lemma login_right (db : Db) (name password : string) (nowMs : Z) (u : User) :
  findUser db name = Some u ->
  locked_until u <= Js.seconds nowMs ->
  Bcrypt.compareSync kdf password (password_hash u) = true ->
  login db name password nowMs
  = (App.json 200
       (App.LoginSuccessful (jwt_sign (u_id u) (username u) App.JWT_SECRET nowMs)
                            (u_id u) (username u) {| cents := balance u |}),
     saveSession
       (if 0 <? failed_attempts u
        then updateFailedAttempts db (u_id u) 0 0 else db)
       (u_id u)
       (sha256_hex (jwt_sign (u_id u) (username u) App.JWT_SECRET nowMs))
       (Js.seconds nowMs + 24 * 60 * 60) nowMs).
Proof.
  intros Hf Hl Hw. unfold App.login. rewrite Hf.
  destruct (Z.ltb_spec (Js.seconds nowMs) (locked_until u)); [lia|].
  rewrite Hw. reflexivity.
Qed.

Lemma findUser_updateFailedAttempts (db : Db) (name : string) (u : User)
      (a b : Z) :
  unique_ids db -> findUser db name = Some u ->
  findUser (updateFailedAttempts db (u_id u) a b) name
  = Some (set_attempts a b u).
Proof.
  intros Hid Hf. unfold findUser, updateFailedAttempts. simpl.
  apply StoreFacts.find_update_own; [exact Hid | exact Hf |].
  apply find_some in Hf. exact (proj2 Hf).
Qed.

Lemma unique_ids_updateFailedAttempts (db : Db) (i a b : Z) :
  unique_ids db -> unique_ids (updateFailedAttempts db i a b).
Proof.
  unfold unique_ids, updateFailedAttempts. simpl.
  rewrite JsFacts.map_update_first; [auto | reflexivity].
Qed.

(** A failed attempt on an account that is not locked: what [login]
    answers and what the account holds afterwards. *)
Lemma login_wrong_user (db : Db) (name password : string) (nowMs : Z)
      (u : User) :
  unique_ids db -> findUser db name = Some u ->
  locked_until u <= Js.seconds nowMs ->
  Bcrypt.compareSync kdf password (password_hash u) = false ->
  exists db',
    login db name password nowMs = (App.invalid_credentials, db')
    /\ unique_ids db'
    /\ findUser db' name
       = Some (set_attempts (failed_attempts u + 1)
                 (if 5 <=? failed_attempts u + 1
                  then Js.seconds nowMs + 1800 else 0) u).
Proof.
  intros Hid Hf Hl Hw. eexists. split; [|split].
  - apply login_wrong; eassumption.
  - apply unique_ids_updateFailedAttempts. exact Hid.
  - apply findUser_updateFailedAttempts; assumption.
Qed.

Lemma seconds_nonneg (nowMs : Z) : 0 <= nowMs -> 0 <= Js.seconds nowMs.
Proof. intros H. unfold Js.seconds. apply Z.div_pos; lia. Qed.

Lemma logins_locked (db : Db) (name : string) (u : User)
      (attempts : list (string * Z)) :
  findUser db name = Some u ->
  Forall (fun a => Js.seconds (snd a) < locked_until u) attempts ->
  logins db name attempts = (map (fun _ => App.account_locked) attempts, db).
Proof.
  intros Hf H. induction H as [|[password nowMs] later Ha Hl IH]; simpl.
  - reflexivity.
  - rewrite (login_locked _ _ _ _ _ Hf Ha). rewrite IH. reflexivity.
Qed.

(** C4.  An account with no counted failure, not locked at the first of
    five attempts with wrong passwords: all five are answered "Invalid
    credentials", and the fifth leaves the account with five failures and
    [locked_until] = its clock reading + 1800; every attempt made from
    then on before that time, with any password, is answered with the 423
    "Account temporarily locked" response and writes nothing.  And in
    general: whenever [locked_until] is ahead of the clock, [login]
    answers 423 whatever the password and leaves the store as it is. *)
Theorem lockout_after_five (db : Db) (name : string) (u : User)
        (p1 p2 p3 p4 p5 : string) (t1 t2 t3 t4 t5 : Z) :
  unique_ids db ->
  findUser db name = Some u ->
  failed_attempts u = 0 ->
  locked_until u <= Js.seconds t1 ->
  Forall (fun p => Bcrypt.compareSync kdf p (password_hash u) = false)
         [p1; p2; p3; p4; p5] ->
  Forall (fun t => 0 <= t) [t2; t3; t4; t5] ->
  (exists db5,
      logins db name [(p1, t1); (p2, t2); (p3, t3); (p4, t4); (p5, t5)]
      = (repeat App.invalid_credentials 5, db5)
      /\ findUser db5 name = Some (set_attempts 5 (Js.seconds t5 + 1800) u)
      /\ forall (password : string) (nowMs : Z),
           Js.seconds nowMs < Js.seconds t5 + 1800 ->
           login db5 name password nowMs = (App.account_locked, db5))
  /\ (forall (db' : Db) (name' password : string) (nowMs : Z) (u' : User),
        findUser db' name' = Some u' ->
        Js.seconds nowMs < locked_until u' ->
        login db' name' password nowMs = (App.account_locked, db')).
Proof.
  intros Hid Hf Hfa Hl Hw Ht.
  split; [|intros; eapply login_locked; eassumption].
  inversion Hw as [|? ? W1 Hw1]; subst. inversion Hw1 as [|? ? W2 Hw2]; subst.
  inversion Hw2 as [|? ? W3 Hw3]; subst. inversion Hw3 as [|? ? W4 Hw4]; subst.
  inversion Hw4 as [|? ? W5 _]; subst.
  inversion Ht as [|? ? T2 Ht2]; subst. inversion Ht2 as [|? ? T3 Ht3]; subst.
  inversion Ht3 as [|? ? T4 Ht4]; subst. inversion Ht4 as [|? ? T5 _]; subst.
  apply seconds_nonneg in T2, T3, T4, T5.
  destruct (login_wrong_user db name p1 t1 u Hid Hf Hl W1)
    as (db1 & E1 & Hid1 & Hf1).
  rewrite Hfa in Hf1. simpl in Hf1.
  destruct (login_wrong_user db1 name p2 t2 _ Hid1 Hf1 T2 W2)
    as (db2 & E2 & Hid2 & Hf2).
  simpl in Hf2.
  destruct (login_wrong_user db2 name p3 t3 _ Hid2 Hf2 T3 W3)
    as (db3 & E3 & Hid3 & Hf3).
  simpl in Hf3.
  destruct (login_wrong_user db3 name p4 t4 _ Hid3 Hf3 T4 W4)
    as (db4 & E4 & Hid4 & Hf4).
  simpl in Hf4.
  destruct (login_wrong_user db4 name p5 t5 _ Hid4 Hf4 T5 W5)
    as (db5 & E5 & Hid5 & Hf5).
  simpl in Hf5.
  exists db5. split; [|split].
  - simpl. rewrite E1, E2, E3, E4, E5. reflexivity.
  - exact Hf5.
  - intros password nowMs Hlt.
    eapply login_locked; [exact Hf5 | simpl; exact Hlt].
Qed.

End Crypto.

(** C4 for "alice": five wrong guesses lock her account until second
    14 + 1800, and her own password is answered 423 one second before. *)
Lemma lockout_after_five_alice :
  findUser Sample.alice_locked "alice"
  = Some {| u_id := 1; username := "alice";
            password_hash := Bcrypt.hashSync Sample.kdf "secret1" 12 "salt-a";
            balance := 800; failed_attempts := 5; locked_until := 1814;
            u_created_at := 1 |}
  /\ App.login Sample.kdf Sample.sha256_hex Sample.jwt_sign
               Sample.alice_locked "alice" "secret1" 1813999
     = (App.account_locked, Sample.alice_locked).
Proof.
  pose proof (lockout_after_five Sample.kdf Sample.sha256_hex Sample.jwt_sign
                Sample.alice_registered "alice" _
                "guess1" "guess2" "guess3" "guess4" "guess5"
                10000 11000 12000 13000 14000
                ltac:(repeat constructor; simpl; intuition discriminate)
                (eq_refl _) (eq_refl _)
                ltac:(vm_compute; discriminate)
                ltac:(repeat constructor)
                ltac:(repeat constructor; lia)) as [(db5 & E & Hf & Hl) _].
  assert (Hdb : db5 = Sample.alice_locked).
  { unfold Sample.alice_locked, Sample.five_wrong. rewrite E. reflexivity. }
  subst db5. split.
  - rewrite Hf. reflexivity.
  - apply Hl. vm_compute. reflexivity.
Defined.

End AuthFacts.

(** ** The stores app.js reaches, and an expired lock *)

Module ServiceFacts.
Import FileDb.

Section Crypto.
Variable kdf : Z -> string -> string -> string.
Variable sha256_hex : string -> string.
Variable jwt_sign : Z -> string -> string -> Z -> string.
Variable jwt_verify : string -> string -> Z -> bool.

Local Abbreviation login := (App.login kdf sha256_hex jwt_sign).
Local Abbreviation logins := (App.logins kdf sha256_hex jwt_sign).
Local Abbreviation handle := (App.handle kdf sha256_hex jwt_sign jwt_verify).
Local Abbreviation reachable :=
  (App.reachable kdf sha256_hex jwt_sign jwt_verify).

Lemma found_user_in (db : Db) (name : string) (u : User) :
  findUser db name = Some u -> In u (users db).
Proof. intros H. apply find_some in H. exact (proj1 H). Qed.

Lemma consistent_login (db : Db) (name password : string) (nowMs : Z) :
  App.consistent db -> App.consistent (snd (login db name password nowMs)).
Proof.
  intros Hc. unfold App.login.
  destruct (findUser db name) as [u|] eqn:Hf; [|exact Hc].
  assert (Hin : In u (users db)) by (eapply found_user_in; exact Hf).
  assert (Hok : attempts_ok u).
  { destruct Hc as (_ & _ & _ & Hok & _).
    rewrite Forall_forall in Hok. exact (Hok u Hin). }
  destruct Hok as [Hfa Hlk].
  destruct (Js.seconds nowMs <? locked_until u); [exact Hc|].
  destruct (negb (Bcrypt.compareSync kdf password (password_hash u))).
  - simpl. apply StoreFacts.consistent_updateFailedAttempts; [exact Hc|lia|].
    destruct (Z.leb_spec 5 (failed_attempts u + 1)); [right; lia | left; reflexivity].
  - simpl. apply StoreFacts.consistent_saveSession.
    + destruct (0 <? failed_attempts u); [|exact Hc].
      apply StoreFacts.consistent_updateFailedAttempts;
        [exact Hc | lia | left; reflexivity].
    + destruct (0 <? failed_attempts u).
      * unfold updateFailedAttempts. simpl.
        rewrite JsFacts.map_update_first; [|reflexivity].
        apply in_map. exact Hin.
      * apply in_map. exact Hin.
Qed.

Lemma consistent_handle (db : Db) (req : App.Request) (nowMs : Z) :
  App.consistent db -> App.consistent (snd (handle db req nowMs)).
Proof.
  intros Hc.
  destruct req as [name password fresh | name password | bearer | bearer
                  | bearer]; simpl.
  - unfold App.post_auth_register.
    destruct (Js.falsy name || Js.falsy password); [exact Hc|].
    destruct (String.length password <? 6)%nat; [exact Hc|].
    pose proof (StoreFacts.consistent_createUser kdf db name password fresh
                  nowMs Hc) as H.
    destruct (createUser kdf db name password fresh nowMs) as [[[i n]|e] db'].
    + exact H.
    + destruct e; exact H.
  - unfold App.post_auth_login.
    destruct (Js.falsy name || Js.falsy password); [exact Hc|].
    apply consistent_login. exact Hc.
  - unfold App.post_auth_logout.
    destruct (App.authenticateToken _ _ _ _ _); [exact Hc|].
    destruct bearer; [|exact Hc].
    apply StoreFacts.consistent_removeSession. exact Hc.
  - unfold App.post_payments.
    destruct (App.authenticateToken _ _ _ _ _) as [r|user]; [exact Hc|].
    pose proof (StoreFacts.consistent_processPayment db (App.req_id user)
                  nowMs Hc) as H.
    destruct (processPayment db (App.req_id user) nowMs) as [[r|e] db'].
    + exact H.
    + destruct e; exact H.
  - unfold App.get_me.
    destruct (App.authenticateToken _ _ _ _ _); exact Hc.
Qed.

Lemma consistent_empty : App.consistent empty.
Proof. repeat split; constructor. Qed.

(** X1.  Every store the service reaches from the empty one is consistent:
    ids and user names are distinct, a lock comes with five or more counted
    failures, and every session belongs to a user. *)
Lemma reachable_consistent (db : Db) : reachable db -> App.consistent db.
Proof.
  intros H. induction H as [|db req nowMs _ IH].
  - exact consistent_empty.
  - apply consistent_handle. exact IH.
Qed.

(** C10.  An account whose lock was set and has run out, with no
    successful login since ([locked_until] is still the lock, not 0): the
    attempts made during the window were all answered 423 and counted
    nothing, the count of failures is still five or more, and one further
    attempt with a wrong password is answered "Invalid credentials" and
    sets a new lock of 1800 seconds from its clock reading. *)
Theorem relock_after_expiry (db : Db) (name : string) (u : User)
        (during : list (string * Z)) (password : string) (nowMs : Z) :
  App.consistent db ->
  findUser db name = Some u ->
  locked_until u <> 0 ->
  Forall (fun a => Js.seconds (snd a) < locked_until u) during ->
  locked_until u <= Js.seconds nowMs ->
  Bcrypt.compareSync kdf password (password_hash u) = false ->
  5 <= failed_attempts u
  /\ logins db name during = (map (fun _ => App.account_locked) during, db)
  /\ exists db',
       login db name password nowMs = (App.invalid_credentials, db')
       /\ findUser db' name
          = Some (set_attempts (failed_attempts u + 1)
                               (Js.seconds nowMs + 1800) u).
Proof.
  intros Hc Hf Hset Hduring Hexp Hw.
  assert (H5 : 5 <= failed_attempts u).
  { destruct Hc as (_ & _ & _ & Hok & _).
    rewrite Forall_forall in Hok.
    destruct (Hok u (found_user_in _ _ _ Hf)) as [_ [H0 | H5]];
      [contradiction | exact H5]. }
  split; [exact H5|]. split.
  - apply (AuthFacts.logins_locked kdf sha256_hex jwt_sign db name u);
      assumption.
  - destruct (AuthFacts.login_wrong_user kdf sha256_hex jwt_sign db name
                password nowMs u (proj1 Hc) Hf Hexp Hw)
      as (db' & E & _ & Hf').
    exists db'. split; [exact E|].
    rewrite Hf'. destruct (Z.leb_spec 5 (failed_attempts u + 1));
      [reflexivity | lia].
Qed.

(** X11.  In a consistent store of app.js, a login to an account that is
    not locked, with the password the account was created with, is
    answered 200 with the id, the name and the balance of the account, and
    leaves the account with no counted failure and no lock. *)
Lemma login_registered_password (db : Db) (name password fresh : string)
      (nowMs : Z) (u : User) :
  App.consistent db ->
  findUser db name = Some u ->
  password_hash u = Bcrypt.hashSync kdf password 12 fresh ->
  locked_until u <= Js.seconds nowMs ->
  exists token db',
    login db name password nowMs
    = (App.json 200 (App.LoginSuccessful token (u_id u) (username u)
                                         {| cents := balance u |}), db')
    /\ exists u', findUser db' name = Some u'
                  /\ failed_attempts u' = 0 /\ locked_until u' = 0
                  /\ balance u' = balance u /\ u_id u' = u_id u.
Proof.
  intros Hc Hf Hh Hl.
  assert (Hw : Bcrypt.compareSync kdf password (password_hash u) = true).
  { rewrite Hh. unfold Bcrypt.compareSync, Bcrypt.hashSync. simpl.
    apply String.eqb_refl. }
  rewrite (AuthFacts.login_right kdf sha256_hex jwt_sign db name password
             nowMs u Hf Hl Hw).
  do 2 eexists. split; [reflexivity|].
  assert (Hok : attempts_ok u).
  { destruct Hc as (_ & _ & _ & Hok & _).
    rewrite Forall_forall in Hok. exact (Hok u (found_user_in _ _ _ Hf)). }
  destruct (Z.ltb_spec 0 (failed_attempts u)) as [Hpos | Hzero].
  - exists (set_attempts 0 0 u). split; [|repeat split].
    change (findUser (updateFailedAttempts db (u_id u) 0 0) name
            = Some (set_attempts 0 0 u)).
    apply AuthFacts.findUser_updateFailedAttempts; [exact (proj1 Hc)|exact Hf].
  - exists u. split; [exact Hf|].
    destruct Hok as [H0 [Hlk | H5]]; repeat split; lia.
Qed.

End Crypto.

(** C10 for "alice": her lock ran out at second 1814; attempts at seconds
    100 and 1813 were answered 423, and one wrong guess at second 2000
    locks the account again, until second 3800. *)
Lemma relock_after_expiry_alice :
  App.logins Sample.kdf Sample.sha256_hex Sample.jwt_sign Sample.alice_locked
             "alice" [("secret1"%string, 100000); ("guess6"%string, 1813000)]
  = ([App.account_locked; App.account_locked], Sample.alice_locked)
  /\ exists db',
       App.login Sample.kdf Sample.sha256_hex Sample.jwt_sign
                 Sample.alice_locked "alice" "guess7" 2000000
       = (App.invalid_credentials, db')
       /\ option_map (fun u => (failed_attempts u, locked_until u))
                     (findUser db' "alice")
          = Some (6, 3800).
Proof.
  pose proof (relock_after_expiry Sample.kdf Sample.sha256_hex Sample.jwt_sign
                Sample.alice_locked "alice" _
                [("secret1"%string, 100000); ("guess6"%string, 1813000)]
                "guess7" 2000000
                ltac:(repeat split; repeat constructor; simpl;
                      intuition discriminate)
                (eq_refl _)
                ltac:(vm_compute; discriminate)
                ltac:(repeat constructor)
                ltac:(vm_compute; discriminate)
                (eq_refl _)) as (_ & Hduring & db' & E & Hf).
  split; [exact Hduring|].
  exists db'. split; [exact E|]. rewrite Hf. reflexivity.
Defined.

(** X1 on the store in which "alice" has registered, logged in and paid
    once. *)
Lemma reachable_consistent_alice : App.consistent Sample.alice_charged.
Proof.
  apply (reachable_consistent Sample.kdf Sample.sha256_hex Sample.jwt_sign
           Sample.jwt_verify).
  exact (App.reachable_handle Sample.kdf Sample.sha256_hex Sample.jwt_sign
           Sample.jwt_verify _ (App.Payments (Some Sample.alice_token)) 30000
           (App.reachable_handle Sample.kdf Sample.sha256_hex Sample.jwt_sign
              Sample.jwt_verify _ (App.Login "alice" "secret1") 20000
              (App.reachable_handle Sample.kdf Sample.sha256_hex
                 Sample.jwt_sign Sample.jwt_verify _
                 (App.Register "alice" "secret1" "salt-a") 1000
                 (App.reachable_empty Sample.kdf Sample.sha256_hex
                    Sample.jwt_sign Sample.jwt_verify)))).
Defined.

(** X11 for "alice", whose lock ran out at second 1814: her own password
    at second 2000 logs her in and clears the five failures and the lock. *)
Lemma login_registered_password_alice :
  exists token db',
    App.login Sample.kdf Sample.sha256_hex Sample.jwt_sign Sample.alice_locked
              "alice" "secret1" 2000000
    = (App.json 200 (App.LoginSuccessful token 1 "alice" {| cents := 800 |}),
       db')
    /\ option_map (fun u => (failed_attempts u, locked_until u))
                  (findUser db' "alice")
       = Some (0, 0).
Proof.
  destruct (login_registered_password Sample.kdf Sample.sha256_hex
              Sample.jwt_sign Sample.alice_locked "alice" "secret1" "salt-a"
              2000000 _
              ltac:(repeat split; repeat constructor; simpl;
                    intuition discriminate)
              (eq_refl _) (eq_refl _) ltac:(vm_compute; discriminate))
    as (token & db' & E & u' & Hu & Hfa & Hlk & _).
  exists token, db'. split; [exact E|].
  rewrite Hu. simpl. rewrite Hfa, Hlk. reflexivity.
Defined.

End ServiceFacts.

(** ** Sessions in database.js and app.js *)

Module SessionFacts.
Import FileDb.

Lemma live_with_iff (h : string) (now : Z) (s : Session) :
  live_with h now s = true <-> token_hash s = h /\ now < expires_at s.
Proof.
  unfold live_with. rewrite andb_true_iff, String.eqb_eq, Z.ltb_lt. tauto.
Qed.

Lemma find_live_none (db : Db) (h : string) (now : Z) :
  find (live_with h now) (sessions db) = None <->
  (forall s, In s (sessions db) -> token_hash s = h -> expires_at s <= now).
Proof.
  split.
  - intros Hn s Hin Hh.
    pose proof (find_none _ _ Hn s Hin) as Hl.
    destruct (Z.le_gt_cases (expires_at s) now) as [Hle | Hgt]; [exact Hle|].
    assert (live_with h now s = true) by (apply live_with_iff; split; [exact Hh | lia]).
    congruence.
  - intros H. destruct (find (live_with h now) (sessions db)) as [s|] eqn:Hf;
      [|reflexivity].
    apply find_some in Hf. destruct Hf as [Hin Hl].
    apply live_with_iff in Hl. destruct Hl as [Hh Hlt].
    specialize (H s Hin Hh). lia.
Qed.

Lemma find_app_skip {A : Type} (p : A -> bool) (l r : list A) :
  (forall x, In x l -> p x = false) -> find p (l ++ r) = find p r.
Proof.
  induction l as [|y l IH]; simpl; intros H; [reflexivity|].
  rewrite (H y (or_introl eq_refl)). apply IH.
  intros x Hx. apply H. right. exact Hx.
Qed.

Section Crypto.
Variable kdf : Z -> string -> string -> string.
Variable sha256_hex : string -> string.
Variable jwt_sign : Z -> string -> string -> Z -> string.

Local Abbreviation login := (App.login kdf sha256_hex jwt_sign).

(** What a successful login leaves in the store: the users with the
    counters of the one who logged in reset, and one more session, for the
    digest of the token, that expires 86400 seconds later. *)
Lemma login_issues_session (db : Db) (name password : string) (issuedMs : Z)
      (token : string) (i : Z) (n : string) (b : Dollars) (db' : Db) :
  login db name password issuedMs
  = (App.json 200 (App.LoginSuccessful token i n b), db') ->
  exists u,
    findUser db name = Some u
    /\ i = u_id u /\ n = username u /\ b = {| cents := balance u |}
    /\ users db' = (if 0 <? failed_attempts u
                    then Js.update_first (has_id (u_id u)) (set_attempts 0 0)
                                         (users db)
                    else users db)
    /\ sessions db' = sessions db ++
         [{| s_id := lastSessionId db + 1; user_id := i;
             token_hash := sha256_hex token;
             expires_at := Js.seconds issuedMs + 86400;
             s_created_at := Js.seconds issuedMs |}].
Proof.
  unfold App.login.
  destruct (findUser db name) as [u|]; [|discriminate].
  destruct (Js.seconds issuedMs <? locked_until u); [discriminate|].
  destruct (negb _); [discriminate|].
  intros [= <- <- <- <- <-]. exists u.
  split; [reflexivity|]. split; [reflexivity|]. split; [reflexivity|].
  split; [reflexivity|].
  destruct (0 <? failed_attempts u); split; reflexivity.
Qed.

(** A token that login has issued resolves to its user for the 86400
    seconds that follow, and to nothing from then on. *)
Lemma issued_session_lifetime (db : Db) (name password : string)
      (issuedMs : Z) (token : string) (i : Z) (n : string) (b : Dollars)
      (db' : Db) :
  unique_ids db ->
  (forall s, In s (sessions db) -> token_hash s <> sha256_hex token) ->
  login db name password issuedMs
  = (App.json 200 (App.LoginSuccessful token i n b), db') ->
  forall nowMs,
    (Js.seconds nowMs < Js.seconds issuedMs + 86400 ->
     exists session,
       validateSession db' (sha256_hex token) nowMs
       = Some (session, n, cents b)
       /\ user_id session = i)
    /\ (Js.seconds issuedMs + 86400 <= Js.seconds nowMs ->
        validateSession db' (sha256_hex token) nowMs = None).
Proof.
  intros Hid Hfresh Hlogin nowMs.
  destruct (login_issues_session _ _ _ _ _ _ _ _ _ Hlogin)
    as (u & Hu & -> & -> & -> & Husers & Hsess).
  assert (Hskip : forall x, In x (sessions db) ->
            live_with (sha256_hex token) (Js.seconds nowMs) x = false).
  { intros x Hx. unfold live_with.
    rewrite (proj2 (String.eqb_neq _ _) (Hfresh x Hx)). reflexivity. }
  unfold validateSession. rewrite Hsess, (find_app_skip _ _ _ Hskip).
  cbn [find]. unfold live_with. cbn [token_hash expires_at].
  rewrite String.eqb_refl. cbn [andb].
  split; intros Ht.
  - destruct (Z.ltb_spec (Js.seconds nowMs) (Js.seconds issuedMs + 86400));
      [|lia].
    cbn [user_id]. rewrite Husers. destruct (0 <? failed_attempts u).
    + rewrite (StoreFacts.find_update_own (has_id (u_id u)) (set_attempts 0 0)
                 (users db) u Hid).
      * eexists. split; reflexivity.
      * eapply StoreFacts.find_by_own_id; [exact Hid | exact Hu].
      * unfold has_id. simpl. apply Z.eqb_refl.
    + rewrite (StoreFacts.find_by_own_id _ _ _ Hid Hu).
      eexists. split; reflexivity.
  - destruct (Z.ltb_spec (Js.seconds nowMs) (Js.seconds issuedMs + 86400));
      [lia | reflexivity].
Qed.

(** C5.  [validateSession(tokenHash)] has one failure value, [null]
    ([None]).  (1) When it returns a value, a stored session carries the
    hash and expires after the clock reading, and the name and balance
    returned are those of the user the session belongs to.  (2) In a store
    where every session belongs to a user, a stored session with the hash
    that expires after the clock reading is enough for it to return a
    value.  (3) It returns [null] when no stored session carries the hash
    or all that do have expired, and (4) when the session it finds belongs
    to no user.  (5) The session of a token that login has just issued, in
    a store with distinct ids and no other session for the digest of that
    token, resolves to the user who logged in while fewer than 86400
    seconds have passed and to [null] from 86400 seconds on. *)
Theorem validateSession_TokenInvalid (db : Db) (tokenHash : string)
        (nowMs : Z) :
  (forall (session : Session) (name : string) (bal : Z),
      validateSession db tokenHash nowMs = Some (session, name, bal) ->
      In session (sessions db)
      /\ token_hash session = tokenHash
      /\ Js.seconds nowMs < expires_at session
      /\ exists user, find (has_id (user_id session)) (users db) = Some user
                      /\ u_id user = user_id session
                      /\ name = username user /\ bal = balance user)
  /\ (sessions_have_users db ->
      (exists session, In session (sessions db)
                       /\ token_hash session = tokenHash
                       /\ Js.seconds nowMs < expires_at session) ->
      exists result, validateSession db tokenHash nowMs = Some result)
  /\ ((forall session, In session (sessions db) ->
                       token_hash session = tokenHash ->
                       expires_at session <= Js.seconds nowMs) ->
      validateSession db tokenHash nowMs = None)
  /\ (forall session,
        find (live_with tokenHash (Js.seconds nowMs)) (sessions db)
        = Some session ->
        find (has_id (user_id session)) (users db) = None ->
        validateSession db tokenHash nowMs = None)
  /\ (forall (name password : string) (issuedMs : Z) (token : string) (i : Z)
             (n : string) (b : Dollars) (db' : Db),
        unique_ids db ->
        (forall s, In s (sessions db) -> token_hash s <> sha256_hex token) ->
        login db name password issuedMs
        = (App.json 200 (App.LoginSuccessful token i n b), db') ->
        (Js.seconds nowMs < Js.seconds issuedMs + 86400 ->
         exists session,
           validateSession db' (sha256_hex token) nowMs
           = Some (session, n, cents b)
           /\ user_id session = i)
        /\ (Js.seconds issuedMs + 86400 <= Js.seconds nowMs ->
            validateSession db' (sha256_hex token) nowMs = None)).
Proof.
  unfold validateSession at 1 2 3 4. split; [|split; [|split; [|split]]].
  - intros session name bal H.
    destruct (find _ (sessions db)) as [s|] eqn:Hs; [|discriminate].
    destruct (find _ (users db)) as [u|] eqn:Hu; [|discriminate].
    injection H as <- <- <-. apply find_some in Hs. destruct Hs as [Hin Hl].
    apply live_with_iff in Hl. destruct Hl as [Hh Hlt].
    split; [exact Hin|]. split; [exact Hh|]. split; [exact Hlt|].
    exists u. split; [exact Hu|]. split; [|split; reflexivity].
    eapply LedgerFacts.find_has_id. exact Hu.
  - intros Hinv (s & Hin & Hh & Hlt).
    destruct (find _ (sessions db)) as [s'|] eqn:Hs.
    + apply find_some in Hs. destruct Hs as [Hin' _].
      unfold sessions_have_users in Hinv. rewrite Forall_forall in Hinv.
      destruct (Hinv s' Hin') as [u ->]. eexists. reflexivity.
    + exfalso. pose proof (proj1 (find_live_none db tokenHash _) Hs s Hin Hh).
      lia.
  - intros H. apply find_live_none in H. rewrite H. reflexivity.
  - intros s Hs Hu. rewrite Hs, Hu. reflexivity.
  - intros name password issuedMs token i n b db' Hid Hfresh Hlogin.
    exact (issued_session_lifetime db name password issuedMs token i n b db'
             Hid Hfresh Hlogin nowMs).
Qed.

End Crypto.

(** C5 on the store that holds the session of "alice", issued at second
    20: the digest of her token resolves to her at second 86419 and to
    nothing at second 86420; a digest no session carries resolves to
    nothing. *)
Lemma validateSession_TokenInvalid_alice :
  (exists session,
      validateSession Sample.alice_logged_in
                      (Sample.sha256_hex Sample.alice_token) 86419999
      = Some (session, "alice"%string, 800))
  /\ validateSession Sample.alice_logged_in
                     (Sample.sha256_hex Sample.alice_token) 86420000 = None
  /\ validateSession Sample.alice_logged_in
                     (Sample.sha256_hex "never-issued") 30000 = None.
Proof.
  split; [|split].
  - destruct (validateSession_TokenInvalid Sample.kdf Sample.sha256_hex
                Sample.jwt_sign Sample.alice_logged_in
                (Sample.sha256_hex Sample.alice_token) 86419999)
      as (Hid & Hlive & _ & _).
    assert (Hinv : sessions_have_users Sample.alice_logged_in).
    { repeat constructor. eexists. reflexivity. }
    assert (Hex : exists session,
               In session (sessions Sample.alice_logged_in)
               /\ token_hash session = Sample.sha256_hex Sample.alice_token
               /\ Js.seconds 86419999 < expires_at session).
    { eexists. split; [left; reflexivity|]. split; reflexivity. }
    destruct (Hlive Hinv Hex) as [[[s n] b] Hr].
    exists s. rewrite Hr.
    destruct (Hid s n b Hr) as (Hin & _ & _ & u & Hu & _ & -> & ->).
    destruct Hin as [<- | []].
    vm_compute in Hu. injection Hu as <-. reflexivity.
  - destruct (validateSession_TokenInvalid Sample.kdf Sample.sha256_hex
                Sample.jwt_sign Sample.alice_registered
                (Sample.sha256_hex Sample.alice_token) 86420000)
      as (_ & _ & _ & _ & Hissued).
    destruct (Hissued "alice"%string "secret1"%string 20000 Sample.alice_token
                1 "alice"%string {| cents := 800 |} Sample.alice_logged_in
                ltac:(repeat constructor; simpl; intuition discriminate)
                ltac:(intros s [])
                (eq_refl _)) as [_ Hexpired].
    apply Hexpired. vm_compute. discriminate.
  - apply (validateSession_TokenInvalid Sample.kdf Sample.sha256_hex
             Sample.jwt_sign Sample.alice_logged_in
             (Sample.sha256_hex "never-issued") 30000).
    intros s [<- | []] H. vm_compute in H. discriminate.
Defined.

End SessionFacts.

(** ** Logout in app.js: behind [authenticateToken] *)

Module LogoutFacts.
Import FileDb.

Lemma removeSession_none_left (db : Db) (h : string) (s : Session) :
  In s (sessions (removeSession db h)) -> token_hash s <> h.
Proof.
  unfold removeSession. simpl. intros Hin. apply filter_In in Hin.
  destruct Hin as [_ Hn]. apply negb_true_iff in Hn.
  apply String.eqb_neq. exact Hn.
Qed.

Lemma removeSession_idempotent (db : Db) (h : string) :
  removeSession (removeSession db h) h = removeSession db h.
Proof.
  unfold removeSession, set_sessions. simpl. f_equal.
  induction (sessions db) as [|s r IH]; simpl; [reflexivity|].
  destruct (negb (token_hash s =? h)%string) eqn:E; simpl.
  - rewrite E, IH. reflexivity.
  - exact IH.
Qed.

Lemma validateSession_removed (db : Db) (h : string) (nowMs : Z) :
  validateSession (removeSession db h) h nowMs = None.
Proof.
  unfold validateSession.
  rewrite (proj2 (SessionFacts.find_live_none (removeSession db h) h
                    (Js.seconds nowMs))); [reflexivity|].
  intros s Hin Hh. exfalso. exact (removeSession_none_left db h s Hin Hh).
Qed.

Section Crypto.
Variable sha256_hex : string -> string.
Variable jwt_verify : string -> string -> Z -> bool.

Local Abbreviation authenticateToken :=
  (App.authenticateToken sha256_hex jwt_verify).
Local Abbreviation post_auth_logout :=
  (App.post_auth_logout sha256_hex jwt_verify).

Lemma authenticateToken_rejects (db : Db) (bearer : option string)
      (nowMs : Z) (response : App.Response) :
  authenticateToken db bearer nowMs = inl response ->
  App.status response = 401 \/ App.status response = 403.
Proof.
  unfold App.authenticateToken.
  destruct bearer as [token|]; [|intros [= <-]; left; reflexivity].
  destruct (Js.falsy token); [intros [= <-]; left; reflexivity|].
  destruct (jwt_verify token App.JWT_SECRET nowMs);
    [|intros [= <-]; right; reflexivity].
  destruct (validateSession db _ nowMs) as [[[s n] b]|];
    [discriminate | intros [= <-]; right; reflexivity].
Qed.

Lemma authenticateToken_accepts (db : Db) (bearer : option string)
      (nowMs : Z) (user : App.ReqUser) :
  authenticateToken db bearer nowMs = inr user ->
  exists token session,
    bearer = Some token /\ Js.falsy token = false
    /\ jwt_verify token App.JWT_SECRET nowMs = true
    /\ validateSession db (sha256_hex token) nowMs
       = Some (session, App.req_username user, cents (App.req_balance user))
    /\ App.req_id user = user_id session.
Proof.
  unfold App.authenticateToken, App.hashToken.
  destruct bearer as [token|]; [|discriminate].
  destruct (Js.falsy token) eqn:Hf; [discriminate|].
  destruct (jwt_verify token App.JWT_SECRET nowMs) eqn:Hv; [|discriminate].
  destruct (validateSession db _ nowMs) as [[[s n] b]|] eqn:Hs; [|discriminate].
  intros [= <-]. exists token, s. repeat split; assumption.
Qed.

(** A token whose digest no session carries is turned away by
    [authenticateToken]. *)
Lemma authenticateToken_no_session (db : Db) (token : string) (nowMs : Z) :
  Js.falsy token = false ->
  validateSession db (sha256_hex token) nowMs = None ->
  exists response,
    authenticateToken db (Some token) nowMs = inl response
    /\ App.status response = 403.
Proof.
  intros Hf Hv. unfold App.authenticateToken, App.hashToken. rewrite Hf, Hv.
  destruct (jwt_verify token App.JWT_SECRET nowMs);
    eexists; split; reflexivity.
Qed.

(** C6, as app.js has it.  POST /auth/logout answers 200 exactly when the
    token passes [authenticateToken].  It then removes every session that
    carries the digest of the token, and a further logout with the same
    token, at any time, is answered 403 and changes nothing.  A request
    that [authenticateToken] turns away gets its answer, 401 or 403,
    and the store stays as it is.  [removeSession] itself cannot fail and
    removing twice is removing once. *)
Theorem logout_behind_gate (db : Db) (bearer : option string) (nowMs : Z) :
  let result := post_auth_logout db bearer nowMs in
  (App.status (fst result) = 200
   <-> exists user, authenticateToken db bearer nowMs = inr user)
  /\ (forall user, authenticateToken db bearer nowMs = inr user ->
        exists token,
          bearer = Some token
          /\ result = (App.json 200 App.LogoutSuccessful,
                       removeSession db (sha256_hex token))
          /\ (forall s, In s (sessions (snd result)) ->
                        token_hash s <> sha256_hex token)
          /\ forall nowMs2,
               exists response,
                 post_auth_logout (snd result) bearer nowMs2
                 = (response, snd result)
                 /\ App.status response = 403)
  /\ (forall response, authenticateToken db bearer nowMs = inl response ->
        result = (response, db)
        /\ (App.status response = 401 \/ App.status response = 403))
  /\ (forall h, removeSession (removeSession db h) h = removeSession db h).
Proof.
  intros result.
  assert (Hacc : forall user, authenticateToken db bearer nowMs = inr user ->
            exists token,
              bearer = Some token /\ Js.falsy token = false
              /\ result = (App.json 200 App.LogoutSuccessful,
                           removeSession db (sha256_hex token))).
  { intros user Ha.
    destruct (authenticateToken_accepts _ _ _ _ Ha)
      as (token & s & -> & Hf & _).
    exists token. split; [reflexivity|]. split; [exact Hf|].
    unfold result, App.post_auth_logout. rewrite Ha. reflexivity. }
  assert (Hrej : forall response,
            authenticateToken db bearer nowMs = inl response ->
            result = (response, db)).
  { intros response Ha. unfold result, App.post_auth_logout.
    rewrite Ha. reflexivity. }
  split; [|split; [|split]].
  - split.
    + intros Hs.
      destruct (authenticateToken db bearer nowMs) as [r|user] eqn:Ha;
        [|exists user; reflexivity].
      exfalso. rewrite (Hrej r eq_refl) in Hs. simpl in Hs.
      destruct (authenticateToken_rejects _ _ _ _ Ha) as [H|H]; lia.
    + intros [user Ha]. destruct (Hacc user Ha) as (token & _ & _ & ->).
      reflexivity.
  - intros user Ha. destruct (Hacc user Ha) as (token & -> & Hf & Hr).
    exists token. split; [reflexivity|]. split; [exact Hr|].
    rewrite Hr. simpl. split.
    + intros s. apply removeSession_none_left.
    + intros nowMs2.
      destruct (authenticateToken_no_session
                  (removeSession db (sha256_hex token)) token nowMs2 Hf
                  (validateSession_removed db _ nowMs2)) as (r & Hr2 & Hs).
      exists r. split; [|exact Hs].
      unfold App.post_auth_logout. rewrite Hr2. reflexivity.
  - intros response Ha. split; [exact (Hrej response Ha)|].
    exact (authenticateToken_rejects _ _ _ _ Ha).
  - apply removeSession_idempotent.
Qed.

End Crypto.

(** Against C6 as stated: a token no session was issued for is answered
    403, not success; and of two logouts with the token "alice" was given,
    the first is answered 200 and the second 403. *)
Lemma logout_refused :
  App.post_auth_logout Sample.sha256_hex Sample.jwt_verify FileDb.empty
                       (Some "jwt.nobody.0"%string) 5000
  = (App.json 403 (App.Error "Invalid or expired token"), FileDb.empty)
  /\ fst (App.post_auth_logout Sample.sha256_hex Sample.jwt_verify
                               Sample.alice_logged_in
                               (Some Sample.alice_token) 30000)
     = App.json 200 App.LogoutSuccessful
  /\ fst (App.post_auth_logout Sample.sha256_hex Sample.jwt_verify
            (snd (App.post_auth_logout Sample.sha256_hex Sample.jwt_verify
                    Sample.alice_logged_in (Some Sample.alice_token) 30000))
            (Some Sample.alice_token) 31000)
     = App.json 403 (App.Error "Invalid or expired token").
Proof. repeat split. Qed.

(** C6 as amended, for the token of "alice": her logout is accepted and
    leaves no session behind. *)
Lemma logout_behind_gate_alice :
  App.status (fst (App.post_auth_logout Sample.sha256_hex Sample.jwt_verify
                     Sample.alice_logged_in (Some Sample.alice_token) 30000))
  = 200
  /\ sessions (snd (App.post_auth_logout Sample.sha256_hex Sample.jwt_verify
                      Sample.alice_logged_in (Some Sample.alice_token) 30000))
     = [].
Proof.
  destruct (logout_behind_gate Sample.sha256_hex Sample.jwt_verify
              Sample.alice_logged_in (Some Sample.alice_token) 30000)
    as (Hiff & Hacc & _).
  split.
  - apply Hiff. eexists. reflexivity.
  - destruct (Hacc _ eq_refl) as (token & Hb & Hr & _).
    injection Hb as <-. rewrite Hr. reflexivity.
Defined.

End LogoutFacts.

(** ** appV2.js: comparing freshly salted hashes *)

Module SimpleDatabaseFacts.
Import SimpleDatabase.

Lemma hash_eqb_salt (a b : Bcrypt.hash) :
  Bcrypt.salt a <> Bcrypt.salt b -> Bcrypt.hash_eqb a b = false.
Proof.
  intros H. unfold Bcrypt.hash_eqb.
  apply String.eqb_neq in H. rewrite H.
  rewrite andb_false_r. reflexivity.
Qed.

Lemma hash_eqb_refl (a : Bcrypt.hash) : Bcrypt.hash_eqb a a = true.
Proof.
  unfold Bcrypt.hash_eqb.
  rewrite Z.eqb_refl, !String.eqb_refl. reflexivity.
Qed.

Lemma find_update_first_same (p : User -> bool) (f : User -> User)
      (l : list User) (u : User) :
  find p l = Some u -> p (f u) = true ->
  find p (Js.update_first p f l) = Some (f u).
Proof.
  induction l as [|x r IH]; simpl; [discriminate|].
  destruct (p x) eqn:Hx.
  - intros [= ->] Hp. simpl. rewrite Hp. reflexivity.
  - intros Hf Hp. simpl. rewrite Hx. apply IH; assumption.
Qed.

Section Kdf.
Variable kdf : Z -> string -> string -> string.

(** C3 on appV2.js.  [loginUser] hashes the password it is given with a
    salt of its own and compares the two hash strings.  For an account that
    is not locked, the password the account was created with and a salt
    other than the one drawn at registration, it answers "ERROR: Invalid
    credentials" and counts a failed attempt. *)
Theorem loginUser_rejects_registered_password (db : Db)
        (name password fresh fresh1 fresh2 : string) (nowMs : Z) (u : User) :
  find (has_username name) (users db) = Some u ->
  passwordHash u = hashPassword kdf password fresh ->
  lockedUntil u <= Js.seconds nowMs ->
  fresh1 <> fresh ->
  exists db',
    loginUser kdf db name password fresh1 fresh2 nowMs
    = (ERROR_Invalid_credentials, db')
    /\ sessions db' = sessions db
    /\ exists u', find (has_username name) (users db') = Some u'
                  /\ failedAttempts u' = failedAttempts u + 1.
Proof.
  intros Hf Hh Hl Hs. unfold loginUser. rewrite Hf.
  destruct (Z.ltb_spec (Js.seconds nowMs) (lockedUntil u)); [lia|].
  rewrite hash_eqb_salt.
  - simpl. eexists. split; [reflexivity|]. split; [reflexivity|].
    exists (failed_login (Js.seconds nowMs) u). split; [|reflexivity].
    simpl. apply find_update_first_same; [exact Hf|].
    apply find_some in Hf. exact (proj2 Hf).
  - rewrite Hh. simpl. congruence.
Qed.

(** The only logins appV2.js lets through draw the salt of the
    registration again. *)
Lemma loginUser_success_same_salt (db : Db)
      (name password fresh1 fresh2 : string) (nowMs : Z) (token : string)
      (bal : Dollars) (db' : Db) :
  loginUser kdf db name password fresh1 fresh2 nowMs
  = (SUCCESS_token_Balance token bal, db') ->
  exists u, find (has_username name) (users db) = Some u
            /\ Bcrypt.salt (passwordHash u) = fresh1
            /\ token = make_token (id u) nowMs.
Proof.
  unfold loginUser.
  destruct (find (has_username name) (users db)) as [u|]; [|discriminate].
  destruct (Js.seconds nowMs <? lockedUntil u); [discriminate|].
  destruct (Bcrypt.hash_eqb (passwordHash u) (hashPassword kdf password fresh1))
    eqn:E; simpl; [|discriminate].
  intros [= <- _ _]. exists u. split; [reflexivity|]. split; [|reflexivity].
  unfold Bcrypt.hash_eqb in E. apply andb_true_iff in E. destruct E as [E _].
  apply andb_true_iff in E. destruct E as [_ E].
  apply String.eqb_eq in E. exact E.
Qed.

(** C7 on appV2.js.  POST /register checks that both fields are present
    and nothing else: with a new user name and a password of fewer than six
    characters it answers 200 and the store holds the new user. *)
Theorem post_register_short_password (db : Db) (name password fresh : string) :
  Js.falsy name = false -> Js.falsy password = false ->
  (String.length password < 6)%nat ->
  find (has_username name) (users db) = None ->
  exists db',
    post_register kdf db name password fresh
    = ({| status := 200;
          body := message_of (SUCCESS_User_created_with_ID (nextUserId db)) |},
       db')
    /\ users db' = users db ++
         [{| id := nextUserId db; username := name;
             passwordHash := hashPassword kdf password fresh;
             balance := 800; failedAttempts := 0; lockedUntil := 0 |}].
Proof.
  intros Hn Hp _ Hf. unfold post_register, createUser.
  rewrite Hn, Hp, Hf. simpl. eexists. split; reflexivity.
Qed.

(** The ledger part of [processPayment] in appV2.js (C1 there): once the
    token has led to a session and the session to a user, the payment goes
    through exactly when the balance is at least 110. *)
Lemma processPayment_ledger (db : Db) (token fresh : string) (nowMs : Z)
      (session : Session) (user : User) :
  find (live_with (hashPassword kdf token fresh) (Js.seconds nowMs))
       (sessions db) = Some session ->
  find (has_id (userId session)) (users db) = Some user ->
  (110 <= balance user ->
   exists db',
     processPayment kdf db token fresh nowMs
     = (SUCCESS_Payment_processed {| cents := balance user - 110 |}, db')
     /\ payments db' = payments db ++
          [{| p_id := nextPaymentId db; p_userId := id user; amount := 110;
              balanceBefore := balance user;
              balanceAfter := balance user - 110;
              timestamp := Js.seconds nowMs |}]
     /\ find (has_id (userId session)) (users db')
        = Some (debit 110 user))
  /\ (balance user < 110 ->
      processPayment kdf db token fresh nowMs = (ERROR_Insufficient_funds, db)).
Proof.
  intros Hs Hu. unfold processPayment. rewrite Hs, Hu. unfold paymentAmount.
  split; intros Hb.
  - destruct (Z.ltb_spec (balance user) 110); [lia|].
    eexists. split; [reflexivity|]. split; [reflexivity|].
    simpl. apply find_update_first_same; [exact Hu|].
    apply find_some in Hu. exact (proj2 Hu).
  - destruct (Z.ltb_spec (balance user) 110); [reflexivity|lia].
Qed.

End Kdf.

(** C3 on appV2.js, for "alice": registered with the salt "salt-a", she
    logs in with her password; the salt drawn is "salt-b". *)
Lemma loginUser_rejects_alice :
  fst (loginUser Sample.kdf
         (snd (createUser Sample.kdf new "alice" "secret1" "salt-a"))
         "alice" "secret1" "salt-b" "salt-c" 20000)
  = ERROR_Invalid_credentials.
Proof.
  destruct (loginUser_rejects_registered_password Sample.kdf
              (snd (createUser Sample.kdf new "alice" "secret1" "salt-a"))
              "alice" "secret1" "salt-a" "salt-b" "salt-c" 20000 _
              (eq_refl _) (eq_refl _)
              ltac:(vm_compute; discriminate)
              ltac:(discriminate)) as (db' & E & _).
  rewrite E. reflexivity.
Defined.

(** C7 on appV2.js: "bob" registers with the password "abc". *)
Lemma post_register_short_password_bob :
  exists db',
    post_register Sample.kdf new "bob" "abc" "salt-a"
    = ({| status := 200; body := message_of (SUCCESS_User_created_with_ID 1) |},
       db')
    /\ users db'
       = [{| id := 1; username := "bob";
             passwordHash := hashPassword Sample.kdf "abc" "salt-a";
             balance := 800; failedAttempts := 0; lockedUntil := 0 |}].
Proof.
  exact (post_register_short_password Sample.kdf new "bob" "abc" "salt-a"
           (eq_refl _) (eq_refl _) ltac:(simpl; lia) (eq_refl _)).
Defined.

End SimpleDatabaseFacts.

(** ** Short passwords in app.js and Database.java *)

Module PasswordFacts.

(** POST /auth/register of app.js refuses a password of fewer than six
    characters with a 400 and leaves the store as it is. *)
Lemma post_auth_register_short_password
      (kdf : Z -> string -> string -> string) (db : FileDb.Db)
      (name password fresh : string) (nowMs : Z) :
  (String.length password < 6)%nat ->
  exists response,
    App.post_auth_register kdf db name password fresh nowMs = (response, db)
    /\ App.status response = 400.
Proof.
  intros Hlen. unfold App.post_auth_register.
  destruct (Js.falsy name || Js.falsy password);
    [eexists; split; reflexivity|].
  destruct (Nat.ltb_spec (String.length password) 6); [|lia].
  eexists. split; reflexivity.
Qed.

(** [createUser] of Database.java takes any password. *)
Lemma java_createUser_any_password (hashPassword : string -> string)
      (db : JavaDatabase.Db) (name password : string) :
  find (JavaDatabase.has_username name) (JavaDatabase.users db) = None ->
  fst (JavaDatabase.createUser hashPassword db name password)
  = JavaDatabase.SUCCESS_User_created_with_ID (JavaDatabase.nextUserId db).
Proof.
  intros Hf. unfold JavaDatabase.createUser. rewrite Hf. reflexivity.
Qed.

End PasswordFacts.

(** ** The bearer token of the three variants that build it by hand *)

Module TokenFacts.

(** C9.  In appV2.js, Database.java and the remote-store variant the token
    of every successful login is the text "token_", the id of the user,
    "_" and the clock reading in milliseconds: a function of the user id
    and the time of the login and of nothing else. *)
Theorem token_is_id_and_time :
  (forall (kdf : Z -> string -> string -> string) (db : SimpleDatabase.Db)
          (name password fresh1 fresh2 : string) (nowMs : Z) (token : string)
          (bal : Dollars) (db' : SimpleDatabase.Db),
      SimpleDatabase.loginUser kdf db name password fresh1 fresh2 nowMs
      = (SimpleDatabase.SUCCESS_token_Balance token bal, db') ->
      exists u,
        find (SimpleDatabase.has_username name) (SimpleDatabase.users db)
        = Some u
        /\ token = ("token_" ++ Js.toString (SimpleDatabase.id u) ++ "_"
                             ++ Js.toString nowMs)%string)
  /\ (forall (hashPassword : string -> string) (db : JavaDatabase.Db)
             (name password : string) (nowMs : Z) (token : string)
             (bal : Dollars) (db' : JavaDatabase.Db),
         JavaDatabase.loginUser hashPassword db name password nowMs
         = (JavaDatabase.SUCCESS_token_Balance token bal, db') ->
         exists u,
           find (JavaDatabase.has_username name) (JavaDatabase.users db)
           = Some u
           /\ token = ("token_" ++ Js.toString (JavaDatabase.id u) ++ "_"
                                ++ Js.toString nowMs)%string)
  /\ (forall (kdf : Z -> string -> string -> string)
             (st : FirebaseDatabase.Store) (name password fresh : string)
             (nowMs : Z) (sessionKey token userId uname : string)
             (bal : Dollars) (st' : FirebaseDatabase.Store),
         FirebaseDatabase.loginUser kdf st name password fresh nowMs sessionKey
         = (FirebaseDatabase.login_success token userId uname bal, st') ->
         exists u,
           FirebaseDatabase.findUserByUsername st name = Some u
           /\ userId = FirebaseDatabase.id u
           /\ token = ("token_" ++ userId ++ "_" ++ Js.toString nowMs)%string).
Proof.
  split; [|split].
  - intros kdf db name password fresh1 fresh2 nowMs token bal db' H.
    destruct (SimpleDatabaseFacts.loginUser_success_same_salt kdf _ _ _ _ _ _
                _ _ _ H) as (u & Hu & _ & Ht).
    exists u. split; [exact Hu | exact Ht].
  - intros hashPassword db name password nowMs token bal db'.
    unfold JavaDatabase.loginUser.
    destruct (find _ (JavaDatabase.users db)) as [u|]; [|discriminate].
    destruct (_ <? _); [discriminate|].
    destruct (negb _); [discriminate|].
    intros [= <- _ _]. exists u. split; reflexivity.
  - intros kdf st name password fresh nowMs sessionKey token userId uname bal
           st'.
    unfold FirebaseDatabase.loginUser.
    destruct (FirebaseDatabase.findUserByUsername st name) as [u|];
      [|discriminate].
    destruct (_ <? _); [discriminate|].
    destruct (negb _); [discriminate|].
    intros [= <- <- _ _ _]. exists u. repeat split.
Qed.

(** C9 on the remote store: "alice", whose id is "u1", logs in at the
    clock reading 20000 and is given "token_u1_20000", whatever the digest
    functions are. *)
Lemma token_of_alice (kdf : Z -> string -> string -> string) :
  fst (FirebaseDatabase.loginUser kdf
         {| FirebaseDatabase.usersRef :=
              [("u1"%string,
                {| FirebaseDatabase.id := "u1";
                   FirebaseDatabase.username := "alice";
                   FirebaseDatabase.passwordHash :=
                     Bcrypt.hashSync kdf "secret1" 12 "salt-a";
                   FirebaseDatabase.balance := 800;
                   FirebaseDatabase.failedAttempts := 0;
                   FirebaseDatabase.lockedUntil := 0 |})];
            FirebaseDatabase.sessionsRef := [];
            FirebaseDatabase.paymentsRef := [] |}
         "alice" "secret1" "salt-t" 20000 "s1")
  = FirebaseDatabase.login_success "token_u1_20000" "u1" "alice"
                                   {| cents := 800 |}.
Proof.
  unfold FirebaseDatabase.loginUser. simpl.
  unfold Bcrypt.compareSync. simpl. rewrite String.eqb_refl. reflexivity.
Qed.

(** C9 for "alice" in the three variants, with the sample digests. *)
Lemma token_is_id_and_time_alice :
  fst (FirebaseDatabase.loginUser Sample.kdf Sample.fb_registered
         "alice" "secret1" "salt-t" 20000 "s1")
  = FirebaseDatabase.login_success "token_u1_20000" "u1" "alice"
                                   {| cents := 110 |}
  /\ fst (JavaDatabase.loginUser Sample.sha256_hex
            (snd (JavaDatabase.createUser Sample.sha256_hex
                    JavaDatabase.initial "alice" "secret1"))
            "alice" "secret1" 20000)
     = JavaDatabase.SUCCESS_token_Balance "token_1_20000" {| cents := 800 |}.
Proof.
  destruct token_is_id_and_time as (_ & Hjava & Hfb).
  split.
  - destruct (FirebaseDatabase.loginUser Sample.kdf Sample.fb_registered
                "alice" "secret1" "salt-t" 20000 "s1") as [r st'] eqn:E.
    assert (Hr : r = FirebaseDatabase.login_success "token_u1_20000" "u1"
                       "alice" {| cents := 110 |})
      by (vm_compute in E; congruence).
    subst r.
    destruct (Hfb _ _ _ _ _ _ _ _ _ _ _ _ E) as (u & _ & _ & _).
    reflexivity.
  - destruct (JavaDatabase.loginUser Sample.sha256_hex
                (snd (JavaDatabase.createUser Sample.sha256_hex
                        JavaDatabase.initial "alice" "secret1"))
                "alice" "secret1" 20000) as [r db'] eqn:E.
    assert (Hr : r = JavaDatabase.SUCCESS_token_Balance "token_1_20000"
                       {| cents := 800 |})
      by (vm_compute in E; congruence).
    subst r.
    destruct (Hjava _ _ _ _ _ _ _ _ E) as (u & _ & _).
    reflexivity.
Defined.

End TokenFacts.

(** ** Charges that overlap *)

Module ConcurrencyFacts.

(** *** database.js: calls cannot overlap *)

Lemma charges_insufficient (db : FileDb.Db) (userId : Z) (user : FileDb.User)
      (clocks : list Z) :
  find (FileDb.has_id userId) (FileDb.users db) = Some user ->
  FileDb.balance user < 110 ->
  FileDb.charges db userId clocks
  = (map (fun _ => Throw FileDb.InsufficientFunds) clocks, db).
Proof.
  intros Hf Hb. induction clocks as [|nowMs later IH]; simpl; [reflexivity|].
  rewrite (LedgerFacts.processPayment_insufficient db userId nowMs user Hf Hb).
  rewrite IH. reflexivity.
Qed.

(** X12.  Any number of calls of [processPayment] of database.js for a
    user with exactly 110 cents: the first returns, leaves the balance at 0
    and records one payment; every other one throws "Insufficient funds". *)
Lemma charges_exactly_one (db : FileDb.Db) (userId : Z) (user : FileDb.User)
      (nowMs : Z) (later : list Z) :
  find (FileDb.has_id userId) (FileDb.users db) = Some user ->
  FileDb.balance user = 110 ->
  exists receipt db',
    FileDb.charges db userId (nowMs :: later)
    = (Return receipt :: map (fun _ => Throw FileDb.InsufficientFunds) later,
       db')
    /\ find (FileDb.has_id userId) (FileDb.users db')
       = Some (FileDb.set_balance user 0)
    /\ List.length (FileDb.payments db')
       = S (List.length (FileDb.payments db)).
Proof.
  intros Hf Hb.
  destruct (LedgerFacts.processPayment_sufficient db userId nowMs user Hf
              ltac:(lia)) as (i & Hi & Heq).
  pose proof (LedgerFacts.find_charged _ _ _ _ (FileDb.balance user - 110)
                Hf Hi) as Hfound.
  rewrite Hb in Hfound. change (110 - 110) with 0 in Hfound.
  destruct (FileDb.processPayment db userId nowMs) as [r db1] eqn:E.
  injection Heq as -> Hdb.
  assert (Hfound1 : find (FileDb.has_id userId) (FileDb.users db1)
                    = Some (FileDb.set_balance user 0)).
  { rewrite Hdb. cbn [FileDb.users]. rewrite Hb.
    change (110 - 110) with 0. exact Hfound. }
  cbn [FileDb.charges]. rewrite E.
  rewrite (charges_insufficient db1 userId _ later Hfound1 ltac:(simpl; lia)).
  do 2 eexists. split; [reflexivity|]. split; [exact Hfound1|].
  rewrite Hdb. simpl. rewrite length_app. simpl. lia.
Qed.

(** X12 for "carol", who holds 110 cents: three calls. *)
Lemma charges_exactly_one_carol :
  exists receipt db',
    FileDb.charges Sample.carol_store 3 [100000; 100000; 100001]
    = ([Return receipt; Throw FileDb.InsufficientFunds;
        Throw FileDb.InsufficientFunds], db')
    /\ map FileDb.balance (FileDb.users db') = [0]
    /\ List.length (FileDb.payments db') = 1%nat.
Proof.
  destruct (charges_exactly_one Sample.carol_store 3 _ 100000 [100000; 100001]
              (eq_refl _) (eq_refl _))
    as (receipt & db' & E & Hu & Hp).
  exists receipt, db'. split; [exact E|]. split; [|exact Hp].
  assert (Hdb : db' = snd (FileDb.charges Sample.carol_store 3
                             [100000; 100000; 100001]))
    by (rewrite E; reflexivity).
  rewrite Hdb. reflexivity.
Defined.

(** *** The remote store: calls overlap at every [await] *)

Import FirebaseDatabase.

Lemma child_update_balance (key : string) (b : Z) (l : list (string * User))
      (u : User) :
  child key l = Some u ->
  child key (update_balance key b l) = Some (set_balance b u).
Proof.
  induction l as [|[k w] r IH]; simpl; [discriminate|].
  destruct (String.eqb k key) eqn:E; simpl; rewrite E.
  - intros [= ->]. reflexivity.
  - exact IH.
Qed.

Lemma child_set_other {A : Type} (key key' : string) (v : A)
      (l : list (string * A)) :
  key' <> key -> child key' (set key v l) = child key' l.
Proof.
  intros Hne. induction l as [|[k w] r IH]; simpl.
  - apply String.eqb_neq in Hne. rewrite String.eqb_sym, Hne. reflexivity.
  - destruct (String.eqb k key) eqn:E; simpl.
    + apply String.eqb_eq in E. subst k.
      apply String.eqb_neq in Hne. rewrite String.eqb_sym, Hne. reflexivity.
    + rewrite IH. reflexivity.
Qed.

Lemma child_set_same {A : Type} (key : string) (v : A) (l : list (string * A)) :
  child key (set key v l) = Some v.
Proof.
  induction l as [|[k w] r IH]; simpl.
  - rewrite String.eqb_refl. reflexivity.
  - destruct (String.eqb k key) eqn:E; simpl; rewrite E; [reflexivity|exact IH].
Qed.

Lemma length_set_new {A : Type} (key : string) (v : A) (l : list (string * A)) :
  child key l = None -> List.length (set key v l) = S (List.length l).
Proof.
  induction l as [|[k w] r IH]; simpl; [reflexivity|].
  destruct (String.eqb k key); [discriminate|].
  intros H. simpl. rewrite (IH H). reflexivity.
Qed.

Section Kdf.
Variable kdf : Z -> string -> string -> string.

Lemma run_turn (i : nat) (later : list nat) (st st' : Store)
      (calls : list Call) (c : Call) (t : Task) :
  nth_error calls i = Some c ->
  step kdf st c = (st', t) ->
  run kdf (i :: later) st calls
  = run kdf later st' (Js.set_at i (resume c t) calls).
Proof. intros Hn Hs. simpl. rewrite Hn, Hs. reflexivity. Qed.

Lemma step_ReadSessions (st : Store) (c : Call) (s : Session) :
  at_ c = ReadSessions ->
  scan kdf (token c) (Js.seconds (nowMs c)) (sessionsRef st)
  = ReadSessionUser s ->
  step kdf st c = (st, ReadSessionUser s).
Proof.
  intros Ha Hs. unfold step. rewrite Ha.
  destruct (sessionsRef st); [discriminate | rewrite Hs; reflexivity].
Qed.

Lemma step_ReadSessionUser (st : Store) (c : Call) (s : Session) (u : User) :
  at_ c = ReadSessionUser s ->
  child (userId s) (usersRef st) = Some u ->
  step kdf st c
  = (st, CheckUser {| v_id := id u; v_username := username u;
                      v_balance := {| cents := balance u |} |}).
Proof. intros Ha Hu. unfold step. rewrite Ha, Hu. reflexivity. Qed.

Lemma step_CheckUser (st : Store) (c : Call) (v : Validated) (u : User) :
  at_ c = CheckUser v ->
  child (v_id v) (usersRef st) = Some u ->
  110 <= cents (v_balance v) ->
  step kdf st c = (st, ReadCurrentUser (v_id v)).
Proof.
  intros Ha Hu Hb. unfold step. rewrite Ha, Hu. unfold paymentAmount.
  destruct (Z.ltb_spec (cents (v_balance v)) 110); [lia | reflexivity].
Qed.

Lemma step_ReadCurrentUser (st : Store) (c : Call) (uid : string) (u : User) :
  at_ c = ReadCurrentUser uid ->
  child uid (usersRef st) = Some u ->
  110 <= balance u ->
  step kdf st c = (st, UpdateBalance uid (balance u) (balance u - 110)).
Proof.
  intros Ha Hu Hb. unfold step. rewrite Ha, Hu. unfold paymentAmount.
  destruct (Z.ltb_spec (balance u) 110); [lia | reflexivity].
Qed.

(** C2 on the remote store.  Two calls of [processPayment] with the token
    of a live session whose user holds exactly 110 cents, resumed in turn
    (first call, second call, first call, ...): both read the balance 110
    before either writes, both write 0, and both return a payment with
    before 110 and after 0.  Two payment records are stored for one debit
    of 110; the balance ends at 0. *)
Theorem overlapping_charges_both_succeed (st : Store) (tok : string)
        (now1 now2 : Z) (p1 p2 : string) (session : Session) (user : User) :
  scan kdf tok (Js.seconds now1) (sessionsRef st) = ReadSessionUser session ->
  scan kdf tok (Js.seconds now2) (sessionsRef st) = ReadSessionUser session ->
  child (userId session) (usersRef st) = Some user ->
  id user = userId session ->
  balance user = 110 ->
  p1 <> p2 ->
  child p1 (paymentsRef st) = None ->
  child p2 (paymentsRef st) = None ->
  exists st',
    run kdf [0; 1; 0; 1; 0; 1; 0; 1; 0; 1; 0; 1]%nat st
        [processPayment tok now1 p1; processPayment tok now2 p2]
    = (st',
       [resume (processPayment tok now1 p1)
               (Returned (success p1 {| cents := 110 |} {| cents := 110 |}
                                  {| cents := 0 |}));
        resume (processPayment tok now2 p2)
               (Returned (success p2 {| cents := 110 |} {| cents := 110 |}
                                  {| cents := 0 |}))])
    /\ child (id user) (usersRef st') = Some (set_balance 0 user)
    /\ child p1 (paymentsRef st')
       = Some {| p_id := p1; p_userId := id user; amount := 110;
                 balanceBefore := 110; balanceAfter := 0 |}
    /\ child p2 (paymentsRef st')
       = Some {| p_id := p2; p_userId := id user; amount := 110;
                 balanceBefore := 110; balanceAfter := 0 |}
    /\ List.length (paymentsRef st') = S (S (List.length (paymentsRef st))).
Proof.
  intros H1 H2 Hu Hid Hb Hp Hn1 Hn2.
  assert (Hu' : child (id user) (usersRef st) = Some user)
    by (rewrite Hid; exact Hu).
  unfold processPayment.
  (* both calls read the sessions, then the user of the session *)
  erewrite run_turn; [|reflexivity | eapply step_ReadSessions; [reflexivity|exact H1]].
  erewrite run_turn; [|reflexivity | eapply step_ReadSessions; [reflexivity|exact H2]].
  cbn [Js.set_at resume token nowMs newId].
  erewrite run_turn; [|reflexivity | eapply step_ReadSessionUser; [reflexivity|exact Hu]].
  erewrite run_turn; [|reflexivity | eapply step_ReadSessionUser; [reflexivity|exact Hu]].
  cbn [Js.set_at resume token nowMs newId].
  erewrite run_turn;
    [|reflexivity | eapply step_CheckUser; [reflexivity | exact Hu' | simpl; lia]].
  erewrite run_turn;
    [|reflexivity | eapply step_CheckUser; [reflexivity | exact Hu' | simpl; lia]].
  cbn [Js.set_at resume token nowMs newId v_id].
  (* both read the balance before either writes it *)
  erewrite run_turn;
    [|reflexivity | eapply step_ReadCurrentUser; [reflexivity | exact Hu' | lia]].
  erewrite run_turn;
    [|reflexivity | eapply step_ReadCurrentUser; [reflexivity | exact Hu' | lia]].
  cbn [Js.set_at resume token nowMs newId].
  rewrite Hb.
  (* both write 110 - 110, then both record a payment *)
  cbn. eexists. split; [reflexivity|]. cbn.
  split; [|split; [|split]].
  - rewrite (child_update_balance _ 0 _ (set_balance (110 - 110) user)).
    + reflexivity.
    + apply child_update_balance. exact Hu'.
  - rewrite child_set_other; [|exact Hp]. apply child_set_same.
  - apply child_set_same.
  - rewrite length_set_new.
    + rewrite length_set_new; [reflexivity | exact Hn1].
    + rewrite child_set_other; [exact Hn2 | congruence].
Qed.

End Kdf.

(** C2 for "alice" on the remote store: the two calls use the token she
    was given at second 20 and run at second 30. *)
Lemma overlapping_charges_alice :
  map succeeded
      (snd (run Sample.kdf [0; 1; 0; 1; 0; 1; 0; 1; 0; 1; 0; 1]%nat
                Sample.fb_logged_in
                [processPayment Sample.fb_token 30000 "p1";
                 processPayment Sample.fb_token 30001 "p2"]))
  = [true; true]
  /\ List.length
       (paymentsRef
          (fst (run Sample.kdf [0; 1; 0; 1; 0; 1; 0; 1; 0; 1; 0; 1]%nat
                    Sample.fb_logged_in
                    [processPayment Sample.fb_token 30000 "p1";
                     processPayment Sample.fb_token 30001 "p2"])))
     = 2%nat.
Proof.
  destruct (overlapping_charges_both_succeed Sample.kdf Sample.fb_logged_in
              Sample.fb_token 30000 30001 "p1" "p2" _ Sample.fb_alice
              (eq_refl _) (eq_refl _) (eq_refl _) (eq_refl _) (eq_refl _)
              ltac:(discriminate) (eq_refl _) (eq_refl _))
    as (st' & E & _ & _ & _ & Hlen).
  rewrite E. split; [reflexivity | exact Hlen].
Defined.

End ConcurrencyFacts.

(** ** appV2.js: sessions always have their user *)

Module SimpleDatabaseStoreFacts.
Import SimpleDatabase.

Lemma id_in_find (i : Z) (l : list User) :
  In i (map id l) -> find (has_id i) l <> None.
Proof.
  induction l as [|x r IH]; simpl; [intros []|].
  unfold has_id at 1. destruct (Z.eqb_spec (id x) i) as [E|E].
  - discriminate.
  - intros [H|H]; [contradiction | exact (IH H)].
Qed.

Section Kdf.
Variable kdf : Z -> string -> string -> string.

Lemma call_users (db : Db) (m : Method) :
  map id (users (snd (call kdf db m))) = map id (users db)
  \/ exists u, users (snd (call kdf db m)) = users db ++ [u].
Proof.
  destruct m as [name password fresh | name password fresh1 fresh2 nowMs
                | token fresh nowMs | token fresh]; simpl.
  - unfold createUser. destruct (find _ (users db)); [left; reflexivity|].
    right. eexists. reflexivity.
  - left. unfold loginUser. destruct (find _ (users db)); [|reflexivity].
    destruct (_ <? _); [reflexivity|].
    destruct (negb _); simpl;
      apply JsFacts.map_update_first; reflexivity.
  - left. unfold processPayment.
    destruct (find _ (sessions db)); [|reflexivity].
    destruct (find _ (users db)); [|reflexivity].
    destruct (_ <? _); [reflexivity|]. simpl.
    apply JsFacts.map_update_first. reflexivity.
  - left. reflexivity.
Qed.

Lemma call_sessions (db : Db) (m : Method) (s : Session) :
  In s (sessions (snd (call kdf db m))) ->
  In s (sessions db) \/ In (userId s) (map id (users db)).
Proof.
  destruct m as [name password fresh | name password fresh1 fresh2 nowMs
                | token fresh nowMs | token fresh]; simpl.
  - unfold createUser. destruct (find _ (users db)); simpl; auto.
  - unfold loginUser. destruct (find _ (users db)) as [u|] eqn:Hu; [|auto].
    destruct (_ <? _); [auto|].
    destruct (negb _); simpl; [auto|].
    intros Hin. apply in_app_or in Hin. destruct Hin as [H | [<- | []]];
      [left; exact H|].
    right. simpl. apply in_map. apply find_some in Hu. exact (proj1 Hu).
  - unfold processPayment.
    destruct (find _ (sessions db)); [|auto].
    destruct (find _ (users db)); [|auto].
    destruct (_ <? _); simpl; auto.
  - intros Hin. left. apply filter_In in Hin. exact (proj1 Hin).
Qed.

Lemma reachable_sessions_have_users (db : Db) :
  reachable kdf db -> sessions_have_users db.
Proof.
  intros H. induction H as [|db m _ IH].
  - constructor.
  - unfold sessions_have_users in *. apply Forall_forall. intros s Hin.
    assert (Hold : In (userId s) (map id (users db))).
    { destruct (call_sessions db m s Hin) as [Hs | Hu]; [|exact Hu].
      rewrite Forall_forall in IH. exact (IH s Hs). }
    destruct (call_users db m) as [-> | [u ->]]; [exact Hold|].
    rewrite map_app. apply in_or_app. left. exact Hold.
Qed.

(** X14.  In every store appV2.js reaches, [validateSession] fails with
    "ERROR: Invalid token" and with nothing else: the session it finds
    always has its user. *)
Lemma validateSession_one_error (db : Db) (token fresh : string) (nowMs : Z) :
  reachable kdf db ->
  validateSession kdf db token fresh nowMs <> ERROR_User_not_found.
Proof.
  intros Hr. apply reachable_sessions_have_users in Hr.
  unfold validateSession.
  destruct (find _ (sessions db)) as [s|] eqn:Hs; [|discriminate].
  apply find_some in Hs. destruct Hs as [Hin _].
  unfold sessions_have_users in Hr. rewrite Forall_forall in Hr.
  pose proof (id_in_find _ _ (Hr s Hin)) as Hu.
  destruct (find (has_id (userId s)) (users db)); [discriminate|].
  contradiction.
Qed.

(** The lock of appV2.js is checked before the password, and a failure
    counted at five or more sets it for 1800 seconds. *)
Lemma appv2_loginUser_locked (db : Db) (name password fresh1 fresh2 : string)
      (nowMs : Z) (u : User) :
  find (has_username name) (users db) = Some u ->
  Js.seconds nowMs < lockedUntil u ->
  loginUser kdf db name password fresh1 fresh2 nowMs
  = (ERROR_Account_locked, db).
Proof.
  intros Hf Hl. unfold loginUser. rewrite Hf.
  destruct (Z.ltb_spec (Js.seconds nowMs) (lockedUntil u)); [reflexivity|lia].
Qed.

Lemma appv2_loginUser_relock (db : Db) (name password fresh1 fresh2 : string)
      (nowMs : Z) (u : User) :
  find (has_username name) (users db) = Some u ->
  lockedUntil u <= Js.seconds nowMs ->
  Bcrypt.hash_eqb (passwordHash u) (hashPassword kdf password fresh1) = false ->
  4 <= failedAttempts u ->
  exists db' u',
    loginUser kdf db name password fresh1 fresh2 nowMs
    = (ERROR_Invalid_credentials, db')
    /\ find (has_username name) (users db') = Some u'
    /\ failedAttempts u' = failedAttempts u + 1
    /\ lockedUntil u' = Js.seconds nowMs + 1800.
Proof.
  intros Hf Hl Hw H4. unfold loginUser. rewrite Hf.
  destruct (Z.ltb_spec (Js.seconds nowMs) (lockedUntil u)); [lia|].
  rewrite Hw. simpl. do 2 eexists. split; [reflexivity|]. split.
  - simpl. apply SimpleDatabaseFacts.find_update_first_same; [exact Hf|].
    apply find_some in Hf. exact (proj2 Hf).
  - split; [reflexivity|]. simpl.
    destruct (Z.leb_spec 5 (failedAttempts u + 1)); [reflexivity|lia].
Qed.

Lemma find_appv2_username_none (name : string) (l : list User) :
  find (has_username name) l = None <-> ~ In name (map username l).
Proof.
  induction l as [|u r IH]; simpl.
  - split; [intros _ [] | reflexivity].
  - unfold has_username at 1.
    destruct (String.eqb_spec (username u) name) as [E|E].
    + split; [discriminate | intros H; exfalso; apply H; left; exact E].
    + rewrite IH. split; [intros H [F|F]; [exact (E F) | exact (H F)]
                         | intros H F; apply H; right; exact F].
Qed.

(** Registration in appV2.js (C8 there): the second [createUser] for a
    name answers "ERROR: User already exists" and changes nothing, and no
    method of the class makes two users share a name. *)
Lemma appv2_createUser_twice (db : Db) (name password fresh : string)
      (i : Z) (db1 : Db) (password2 fresh2 : string) :
  createUser kdf db name password fresh
  = (SUCCESS_User_created_with_ID i, db1) ->
  createUser kdf db1 name password2 fresh2 = (ERROR_User_already_exists, db1).
Proof.
  unfold createUser at 1.
  destruct (find (has_username name) (users db)) eqn:Hf; [discriminate|].
  intros [= _ <-]. unfold createUser. simpl.
  rewrite (SessionFacts.find_app_skip _ _ _ (find_none _ _ Hf)).
  simpl. unfold has_username. simpl.
  rewrite String.eqb_refl. reflexivity.
Qed.

Lemma appv2_unique_usernames (db : Db) (m : Method) :
  NoDup (map username (users db)) ->
  NoDup (map username (users (snd (call kdf db m)))).
Proof.
  intros H.
  destruct m as [name password fresh | name password fresh1 fresh2 nowMs
                | token fresh nowMs | token fresh]; simpl.
  - unfold createUser.
    destruct (find (has_username name) (users db)) eqn:Hf; [exact H|].
    simpl. rewrite map_app. simpl.
    apply find_appv2_username_none in Hf.
    apply NoDup_app; [exact H | repeat constructor; intros [] |].
    intros x Hx [<- | []]. exact (Hf Hx).
  - unfold loginUser. destruct (find _ (users db)); [|exact H].
    destruct (_ <? _); [exact H|].
    destruct (negb _); simpl;
      (rewrite JsFacts.map_update_first; [exact H | reflexivity]).
  - unfold processPayment.
    destruct (find _ (sessions db)); [|exact H].
    destruct (find _ (users db)); [|exact H].
    destruct (_ <? _); [exact H|]. simpl.
    rewrite JsFacts.map_update_first; [exact H | reflexivity].
  - exact H.
Qed.

End Kdf.

(** X14 on the store in which "alice" has a session. *)
Lemma validateSession_one_error_alice :
  validateSession Sample.kdf Sample.appv2_logged_in "token_1_20000" "salt-t"
                  30000
  <> ERROR_User_not_found.
Proof.
  apply validateSession_one_error.
  exact (reachable_call Sample.kdf _
           (LoginUser "alice" "secret1" "salt-a" "salt-t" 20000)
           (reachable_call Sample.kdf _
              (CreateUser "alice" "secret1" "salt-a")
              (reachable_new Sample.kdf))).
Defined.

End SimpleDatabaseStoreFacts.

(** ** appV2.js: tokens are looked up by a freshly salted hash *)

Module SimpleDatabaseTokenFacts.
Import SimpleDatabase.

Lemma filter_keeps_all {A : Type} (q : A -> bool) (l : list A) :
  (forall x, In x l -> q x = true) -> filter q l = l.
Proof.
  induction l as [|x r IH]; simpl; intros H; [reflexivity|].
  rewrite (H x (or_introl eq_refl)). f_equal.
  apply IH. intros y Hy. apply H. right. exact Hy.
Qed.

Section Kdf.
Variable kdf : Z -> string -> string -> string.

Lemma no_session_with_salt (db : Db) (token fresh : string) (now : Z) :
  (forall s, In s (sessions db) -> Bcrypt.salt (tokenHash s) <> fresh) ->
  forall s, In s (sessions db) ->
            Bcrypt.hash_eqb (tokenHash s) (hashPassword kdf token fresh) = false.
Proof.
  intros H s Hin. apply SimpleDatabaseFacts.hash_eqb_salt. simpl.
  exact (H s Hin).
Qed.

(** X15.  appV2.js hashes the token it is given with a salt of its own and
    looks for a session with an equal hash string.  Whenever that salt is
    the salt of no stored session hash, [validateSession] and
    [processPayment] answer "ERROR: Invalid token", whatever token they
    were given, and [logout] answers "SUCCESS: Logged out" and removes no
    session. *)
Theorem fresh_salt_finds_no_session (db : Db) (token fresh : string)
        (nowMs : Z) :
  (forall s, In s (sessions db) -> Bcrypt.salt (tokenHash s) <> fresh) ->
  validateSession kdf db token fresh nowMs = ERROR_Invalid_token
  /\ processPayment kdf db token fresh nowMs = (ERROR_Invalid_token, db)
  /\ logout kdf db token fresh = (SUCCESS_Logged_out, db).
Proof.
  intros H.
  assert (Hfind : find (live_with (hashPassword kdf token fresh)
                                  (Js.seconds nowMs)) (sessions db) = None).
  { destruct (find _ (sessions db)) as [s|] eqn:Hs; [|reflexivity].
    apply find_some in Hs. destruct Hs as [Hin Hl].
    unfold live_with in Hl.
    rewrite (no_session_with_salt db token fresh (Js.seconds nowMs) H s Hin)
      in Hl. discriminate. }
  split; [|split].
  - unfold validateSession. rewrite Hfind. reflexivity.
  - unfold processPayment. rewrite Hfind. reflexivity.
  - unfold logout. f_equal.
    assert (Hkeep : filter (fun s => negb (Bcrypt.hash_eqb (tokenHash s)
                                             (hashPassword kdf token fresh)))
                           (sessions db) = sessions db).
    { apply filter_keeps_all. intros s Hin.
      rewrite (no_session_with_salt db token fresh 0 H s Hin). reflexivity. }
    rewrite Hkeep. destruct db. reflexivity.
Qed.

End Kdf.

(** X15 on the store in which "alice" has a session, hashed with the salt
    "salt-t": her own token, hashed with "salt-u", is not found, and her
    logout leaves the session where it is. *)
Lemma fresh_salt_finds_no_session_alice :
  validateSession Sample.kdf Sample.appv2_logged_in "token_1_20000" "salt-u"
                  30000
  = ERROR_Invalid_token
  /\ snd (logout Sample.kdf Sample.appv2_logged_in "token_1_20000" "salt-u")
     = Sample.appv2_logged_in
  /\ List.length (sessions Sample.appv2_logged_in) = 1%nat.
Proof.
  destruct (fresh_salt_finds_no_session Sample.kdf Sample.appv2_logged_in
              "token_1_20000" "salt-u" 30000) as (Hv & _ & Hl).
  - intros s [<- | []]. discriminate.
  - split; [exact Hv|]. split; [rewrite Hl; reflexivity | reflexivity].
Defined.

End SimpleDatabaseTokenFacts.

(** ** Database.java: the lock *)

Module JavaFacts.
Import JavaDatabase.

Section Sha.
Variable hashPassword : string -> string.

Lemma java_loginUser_locked (db : Db) (name password : string) (nowMs : Z)
      (u : User) :
  find (has_username name) (users db) = Some u ->
  seconds nowMs < lockedUntil u ->
  loginUser hashPassword db name password nowMs = (ERROR_Account_locked, db).
Proof.
  intros Hf Hl. unfold loginUser. rewrite Hf.
  destruct (Z.ltb_spec (seconds nowMs) (lockedUntil u)); [reflexivity|lia].
Qed.

Lemma int32_small (z : Z) : - 2 ^ 31 <= z < 2 ^ 31 -> int32 z = z.
Proof. intros H. unfold int32. rewrite Z.mod_small; lia. Qed.

Lemma int64_small (z : Z) : - 2 ^ 63 <= z < 2 ^ 63 -> int64 z = z.
Proof. intros H. unfold int64. rewrite Z.mod_small; lia. Qed.

(** A wrong password on an account with four or more counted failures
    (and fewer than [Integer.MAX_VALUE]) sets the lock for 1800 seconds. *)
Lemma java_loginUser_relock (db : Db) (name password : string) (nowMs : Z)
      (u : User) :
  find (has_username name) (users db) = Some u ->
  lockedUntil u <= seconds nowMs ->
  String.eqb (passwordHash u) (hashPassword password) = false ->
  4 <= failedAttempts u < 2 ^ 31 - 1 ->
  0 <= seconds nowMs < 2 ^ 62 ->
  exists db' u',
    loginUser hashPassword db name password nowMs
    = (ERROR_Invalid_credentials, db')
    /\ find (has_username name) (users db') = Some u'
    /\ failedAttempts u' = failedAttempts u + 1
    /\ lockedUntil u' = seconds nowMs + 1800.
Proof.
  intros Hf Hl Hw H4 Hn. unfold loginUser. rewrite Hf.
  destruct (Z.ltb_spec (seconds nowMs) (lockedUntil u)); [lia|].
  rewrite Hw. simpl. do 2 eexists. split; [reflexivity|]. split.
  - simpl. apply find_some in Hf as Hp.
    revert Hf. generalize (users db).
    induction l as [|x r IH]; simpl; [discriminate|].
    destruct (has_username name x) eqn:Hx.
    + intros [= ->]. simpl. unfold has_username in *. simpl. rewrite Hx.
      reflexivity.
    + intros Hf. simpl. rewrite Hx. apply IH. exact Hf.
  - simpl. rewrite int32_small by lia. split; [reflexivity|].
    destruct (Z.leb_spec 5 (failedAttempts u + 1)); [|lia].
    apply int64_small. lia.
Qed.

End Sha.

End JavaFacts.

(** ** The remote store: no balance below zero, whatever the schedule *)

Module RemoteBalanceFacts.
Import FirebaseDatabase.

Lemma update_balance_nonneg (key : string) (b : Z) (l : list (string * User)) :
  0 <= b ->
  Forall (fun kv => 0 <= balance (snd kv)) l ->
  Forall (fun kv => 0 <= balance (snd kv)) (update_balance key b l).
Proof.
  intros Hb H. induction H as [|[k u] r Hu Hr IH]; simpl; [constructor|].
  destruct (String.eqb k key); constructor; auto.
Qed.

Section Kdf.
Variable kdf : Z -> string -> string -> string.

Lemma scan_not_writing (tok : string) (now : Z)
      (entries : list (string * Session)) :
  match scan kdf tok now entries with
  | UpdateBalance _ _ _ => False
  | _ => True
  end.
Proof.
  induction entries as [|[key s] rest IH]; simpl; [exact I|].
  destruct (verifyToken kdf tok (tokenHash s)); [|exact IH].
  destruct (now <? expiresAt s); exact I.
Qed.

Lemma step_nonneg (st : Store) (c : Call) :
  balances_nonneg st -> writes_nonneg c ->
  balances_nonneg (fst (step kdf st c))
  /\ writes_nonneg (resume c (snd (step kdf st c))).
Proof.
  unfold balances_nonneg, writes_nonneg, step. intros Hst Hc.
  destruct (at_ c) as [| key rest | validSession | validated | uid
                      | uid cur newBalance | paymentData | r].
  - destruct (sessionsRef st) as [|e es]; cbn [fst snd resume at_];
      [split; [exact Hst|exact I]|].
    split; [exact Hst|].
    pose proof (scan_not_writing (token c) (Js.seconds (nowMs c)) (e :: es)) as H.
    destruct (scan kdf (token c) (Js.seconds (nowMs c)) (e :: es));
      try exact I. contradiction.
  - cbn [fst snd resume at_ usersRef]. split; [exact Hst|].
    pose proof (scan_not_writing (token c) (Js.seconds (nowMs c)) rest) as H.
    destruct (scan kdf (token c) (Js.seconds (nowMs c)) rest);
      try exact I. contradiction.
  - destruct (child _ (usersRef st)); simpl; split; try exact Hst; exact I.
  - destruct (child _ (usersRef st)); simpl; [|split; [exact Hst|exact I]].
    destruct (_ <? _); simpl; split; try exact Hst; exact I.
  - destruct (child uid (usersRef st)) as [u|]; simpl;
      [|split; [exact Hst|exact I]].
    unfold paymentAmount.
    destruct (Z.ltb_spec (balance u) 110); simpl; split; try exact Hst;
      try exact I. lia.
  - simpl. split; [|exact I]. apply update_balance_nonneg; assumption.
  - simpl. split; [exact Hst|exact I].
  - simpl. split; [exact Hst|exact I].
Qed.

(** X17.  Whatever the order in which the calls of [processPayment] are
    resumed, wherever each of them stands, no balance of the remote store
    goes below zero. *)
Lemma run_balances_nonneg (schedule : list nat) (st : Store)
      (calls : list Call) :
  balances_nonneg st -> Forall writes_nonneg calls ->
  balances_nonneg (fst (run kdf schedule st calls))
  /\ Forall writes_nonneg (snd (run kdf schedule st calls)).
Proof.
  revert st calls. induction schedule as [|i later IH]; intros st calls Hst Hc.
  - split; assumption.
  - simpl. destruct (nth_error calls i) as [c|] eqn:Hn; [|apply IH; assumption].
    assert (Hci : writes_nonneg c).
    { rewrite Forall_forall in Hc. apply Hc. eapply nth_error_In. exact Hn. }
    pose proof (step_nonneg st c Hst Hci) as [H1 H2].
    destruct (step kdf st c) as [st' t]. simpl in H1, H2.
    apply IH; [exact H1|].
    apply StoreFacts.Forall_set_at; assumption.
Qed.

End Kdf.

(** X17 for three calls with the token of "alice", who holds 110 cents,
    resumed in an order of no pattern. *)
Lemma run_balances_nonneg_alice :
  balances_nonneg
    (fst (run Sample.kdf [2; 0; 0; 1; 2; 1; 0; 2; 1; 1; 0; 2; 2; 0; 1; 0; 1; 2]%nat
              Sample.fb_logged_in
              [processPayment Sample.fb_token 30000 "p1";
               processPayment Sample.fb_token 30001 "p2";
               processPayment Sample.fb_token 30002 "p3"])).
Proof.
  apply (run_balances_nonneg Sample.kdf).
  - repeat constructor. simpl. lia.
  - repeat constructor.
Defined.

End RemoteBalanceFacts.

(** ** The books of database.js under app.js *)

Module BooksFacts.
Import FileDb.

Lemma findIndex_none_of_find {A : Type} (p : A -> bool) (l : list A) :
  find p l = None -> Js.findIndex p l = None.
Proof.
  induction l as [|x r IH]; simpl; [reflexivity|].
  destruct (p x); [discriminate|]. intros H. rewrite (IH H). reflexivity.
Qed.

Lemma set_at_is_update_first {A : Type} (p : A -> bool) (f : A -> A)
      (l : list A) (i : nat) (x : A) :
  find p l = Some x -> Js.findIndex p l = Some i ->
  Js.set_at i (f x) l = Js.update_first p f l.
Proof.
  revert i. induction l as [|y r IH]; simpl; intros i; [discriminate|].
  destruct (p y).
  - intros [= ->] [= <-]. reflexivity.
  - intros Hf. destruct (Js.findIndex p r) as [j|]; [|discriminate].
    intros [= <-]. simpl. rewrite (IH j Hf eq_refl). reflexivity.
Qed.

(** Where keys are distinct, [update_first] on a key changes the one
    element with that key and no other. *)
Lemma Forall_update_key (g : User -> Z) (k : Z) (f : User -> User)
      (Q : User -> Prop) (l : list User) :
  NoDup (map g l) ->
  (forall x, In x l -> g x = k -> Q (f x)) ->
  (forall x, In x l -> g x <> k -> Q x) ->
  Forall Q (Js.update_first (fun x => Z.eqb (g x) k) f l).
Proof.
  induction l as [|x r IH]; simpl; intros Hnd Hk Hn; [constructor|].
  inversion Hnd as [|? ? Hx Hr]; subst.
  destruct (Z.eqb_spec (g x) k) as [E|E].
  - constructor; [apply Hk; [left; reflexivity | exact E]|].
    apply Forall_forall. intros y Hy. apply Hn; [right; exact Hy|].
    intros Ey. apply Hx. rewrite E, <- Ey. apply in_map. exact Hy.
  - constructor; [apply Hn; [left; reflexivity | exact E]|].
    apply IH; [exact Hr | |]; intros y Hy; [apply Hk | apply Hn]; right;
      exact Hy.
Qed.

Lemma charged_app (userId : Z) (db : Db) (ps : list Payment) (p : Payment) :
  payments db = ps ++ [p] ->
  charged userId db
  = 110 * Z.of_nat (List.length (filter (fun q => Z.eqb (p_user_id q) userId) ps))
    + (if Z.eqb (p_user_id p) userId then 110 else 0).
Proof.
  intros H. unfold charged.
  rewrite H, filter_app, length_app, Nat2Z.inj_add. cbn [filter].
  destruct (Z.eqb (p_user_id p) userId); cbn [List.length]; lia.
Qed.

Lemma charged_none (userId : Z) (db : Db) :
  Forall (fun p => p_user_id p < userId) (payments db) ->
  charged userId db = 0.
Proof.
  unfold charged. intros H.
  induction H as [|p r Hp Hr IH]; simpl; [reflexivity|].
  destruct (Z.eqb_spec (p_user_id p) userId); [lia | exact IH].
Qed.

(** The books depend on the users, the payments and the last id issued. *)
Lemma books_same (db db' : Db) :
  map (fun u => (u_id u, balance u)) (users db')
  = map (fun u => (u_id u, balance u)) (users db) ->
  payments db' = payments db -> lastUserId db' = lastUserId db ->
  books db -> books db'.
Proof.
  intros Hu Hp Hl (Hid & Hiss & Hpi & Hpo & Hb).
  assert (Hids : map u_id (users db') = map u_id (users db)).
  { transitivity (map fst (map (fun u => (u_id u, balance u)) (users db'))).
    - rewrite map_map. reflexivity.
    - rewrite Hu, map_map. reflexivity. }
  assert (Hpair : forall (P : Z * Z -> Prop),
            Forall (fun u => P (u_id u, balance u)) (users db) ->
            Forall (fun u => P (u_id u, balance u)) (users db')).
  { intros P H.
    apply (proj1 (Forall_map (fun u => (u_id u, balance u)) P (users db'))).
    rewrite Hu.
    apply (proj2 (Forall_map (fun u => (u_id u, balance u)) P (users db))).
    exact H. }
  unfold books, unique_ids, ids_issued, charged in *. rewrite Hids, Hp, Hl.
  repeat split; try assumption.
  - exact (Hpair (fun q => fst q <= lastUserId db) Hiss).
  - exact (Hpair (fun q => 0 <= snd q
                           /\ snd q + 110 * Z.of_nat (List.length
                                (filter (fun p => Z.eqb (p_user_id p) (fst q))
                                        (payments db))) = 800) Hb).
Qed.

Lemma books_updateFailedAttempts (db : Db) (i a b : Z) :
  books db -> books (updateFailedAttempts db i a b).
Proof.
  apply books_same; try reflexivity.
  simpl. apply JsFacts.map_update_first. reflexivity.
Qed.

Lemma books_processPayment (db : Db) (userId nowMs : Z) :
  books db -> books (snd (processPayment db userId nowMs)).
Proof.
  intros Hb.
  destruct (find (has_id userId) (users db)) as [user|] eqn:Hf.
  - destruct (Z.lt_ge_cases (balance user) 110) as [Hlt | Hge].
    + rewrite (LedgerFacts.processPayment_insufficient _ _ _ _ Hf Hlt).
      exact Hb.
    + destruct (LedgerFacts.processPayment_sufficient db userId nowMs user
                  Hf Hge) as (i & Hi & ->).
      destruct Hb as (Hid & Hiss & Hpi & Hpo & Hbal).
      unfold unique_ids, ids_issued in Hid, Hiss.
      pose proof (LedgerFacts.find_has_id _ _ _ Hf) as Huid.
      assert (Hin : In user (users db))
        by (apply find_some in Hf; exact (proj1 Hf)).
      assert (Huser : 0 <= balance user
                      /\ balance user + charged (u_id user) db = 800).
      { rewrite Forall_forall in Hbal. exact (Hbal user Hin). }
      unfold books, unique_ids, ids_issued. cbn [snd users payments lastUserId].
      rewrite (set_at_is_update_first (has_id userId)
                 (fun u => set_balance u (balance user - 110)) _ _ _ Hf Hi).
      split; [|split; [|split; [|split]]].
      * rewrite JsFacts.map_update_first; [exact Hid | reflexivity].
      * apply StoreFacts.Forall_update_first; [exact Hiss|].
        intros x Hx. exact Hx.
      * apply Forall_app. split; [exact Hpi|].
        repeat constructor. simpl. rewrite <- Huid.
        rewrite Forall_forall in Hiss. exact (Hiss user Hin).
      * apply Forall_app. split; [exact Hpo|].
        repeat constructor; simpl; lia.
      * apply (Forall_update_key u_id userId); [exact Hid | |].
        -- intros x _ Hxid. cbn [balance u_id set_balance].
           split; [lia|].
           erewrite charged_app; [|reflexivity].
           cbn [p_user_id]. rewrite Hxid, Z.eqb_refl.
           unfold charged in Huser. rewrite Huid in Huser. lia.
        -- intros x Hx Hne. rewrite Forall_forall in Hbal.
           destruct (Hbal x Hx) as [H0 H800]. split; [exact H0|].
           erewrite charged_app; [|reflexivity].
           cbn [p_user_id].
           destruct (Z.eqb_spec userId (u_id x)) as [E|_]; [congruence|].
           unfold charged in H800. lia.
  - unfold processPayment. rewrite (findIndex_none_of_find _ _ Hf). exact Hb.
Qed.

Section Crypto.
Variable kdf : Z -> string -> string -> string.
Variable sha256_hex : string -> string.
Variable jwt_sign : Z -> string -> string -> Z -> string.
Variable jwt_verify : string -> string -> Z -> bool.

Local Abbreviation handle := (App.handle kdf sha256_hex jwt_sign jwt_verify).
Local Abbreviation reachable :=
  (App.reachable kdf sha256_hex jwt_sign jwt_verify).

Lemma books_createUser (db : Db) (name password fresh : string) (nowMs : Z) :
  books db -> books (snd (createUser kdf db name password fresh nowMs)).
Proof.
  intros Hb. unfold createUser.
  destruct (find (has_username name) (users db)); [exact Hb|].
  destruct Hb as (Hid & Hiss & Hpi & Hpo & Hbal).
  unfold books, unique_ids, ids_issued. cbn [snd users payments lastUserId].
  split; [|split; [|split; [|split]]].
  - rewrite map_app. simpl.
    apply NoDup_app; [exact Hid | repeat constructor; intros [] |].
    intros i Hi [<- | []].
    unfold ids_issued in Hiss. rewrite Forall_forall in Hiss.
    apply in_map_iff in Hi. destruct Hi as (u & Hu & Hin).
    specialize (Hiss u Hin). lia.
  - apply Forall_app. split.
    + eapply Forall_impl; [|exact Hiss]. simpl. intros u Hu. lia.
    + repeat constructor. simpl. lia.
  - eapply Forall_impl; [|exact Hpi]. simpl. intros p Hp. lia.
  - exact Hpo.
  - apply Forall_app. split.
    + eapply Forall_impl; [|exact Hbal]. simpl. intros u Hu. exact Hu.
    + repeat constructor; simpl; [lia|].
      rewrite charged_none; [reflexivity|].
      simpl. eapply Forall_impl; [|exact Hpi]. simpl. intros p Hp. lia.
Qed.

Lemma books_handle (db : Db) (req : App.Request) (nowMs : Z) :
  books db -> books (snd (handle db req nowMs)).
Proof.
  intros Hb.
  destruct req as [name password fresh | name password | bearer | bearer
                  | bearer]; simpl.
  - unfold App.post_auth_register.
    destruct (Js.falsy name || Js.falsy password); [exact Hb|].
    destruct (String.length password <? 6)%nat; [exact Hb|].
    pose proof (books_createUser db name password fresh nowMs Hb) as H.
    destruct (createUser kdf db name password fresh nowMs) as [[[i n]|e] db'].
    + exact H.
    + destruct e; exact H.
  - unfold App.post_auth_login.
    destruct (Js.falsy name || Js.falsy password); [exact Hb|].
    unfold App.login. destruct (findUser db name) as [u|]; [|exact Hb].
    destruct (Js.seconds nowMs <? locked_until u); [exact Hb|].
    destruct (negb _); simpl.
    + apply books_updateFailedAttempts. exact Hb.
    + destruct (0 <? failed_attempts u).
      * eapply books_same; [| | |apply books_updateFailedAttempts; exact Hb];
          reflexivity.
      * eapply books_same; [| | |exact Hb]; reflexivity.
  - unfold App.post_auth_logout.
    destruct (App.authenticateToken _ _ _ _ _); [exact Hb|].
    destruct bearer; [|exact Hb].
    eapply books_same; [| | |exact Hb]; reflexivity.
  - unfold App.post_payments.
    destruct (App.authenticateToken _ _ _ _ _) as [r|user]; [exact Hb|].
    pose proof (books_processPayment db (App.req_id user) nowMs Hb) as H.
    destruct (processPayment db (App.req_id user) nowMs) as [[r|e] db'].
    + exact H.
    + destruct e; exact H.
  - unfold App.get_me.
    destruct (App.authenticateToken _ _ _ _ _); exact Hb.
Qed.

Lemma reachable_books (db : Db) : reachable db -> books db.
Proof.
  intros H. induction H as [|db req nowMs _ IH].
  - repeat split; constructor.
  - apply books_handle. exact IH.
Qed.

(** X2.  In every store app.js reaches, no balance is negative, and every
    payment record is for 110 cents, has [balance_after = balance_before -
    110] and a [balance_after] that is not negative. *)
Theorem reachable_ledger_sound (db : Db) :
  reachable db ->
  Forall (fun u => 0 <= balance u) (users db)
  /\ Forall payment_ok (payments db).
Proof.
  intros H. destruct (reachable_books db H) as (_ & _ & _ & Hpo & Hbal).
  split; [|exact Hpo].
  eapply Forall_impl; [|exact Hbal]. simpl. intros u Hu. exact (proj1 Hu).
Qed.

(** X3.  In every store app.js reaches, each account's balance plus 110
    cents for every payment recorded against its id is the 800 cents it was
    opened with: no debit without its record, no record without its
    debit. *)
Theorem reachable_ledger_balanced (db : Db) (u : User) :
  reachable db -> In u (users db) ->
  balance u + charged (u_id u) db = 800.
Proof.
  intros H Hin. destruct (reachable_books db H) as (_ & _ & _ & _ & Hbal).
  rewrite Forall_forall in Hbal. exact (proj2 (Hbal u Hin)).
Qed.

End Crypto.

(** X2 on the store in which "alice" has registered, logged in and paid
    once. *)
Lemma reachable_ledger_sound_alice :
  Forall (fun u => 0 <= balance u) (users Sample.alice_charged)
  /\ Forall payment_ok (payments Sample.alice_charged).
Proof.
  apply (reachable_ledger_sound Sample.kdf Sample.sha256_hex Sample.jwt_sign
           Sample.jwt_verify).
  exact (App.reachable_handle Sample.kdf Sample.sha256_hex Sample.jwt_sign
           Sample.jwt_verify _ (App.Payments (Some Sample.alice_token)) 30000
           (App.reachable_handle Sample.kdf Sample.sha256_hex Sample.jwt_sign
              Sample.jwt_verify _ (App.Login "alice" "secret1") 20000
              (App.reachable_handle Sample.kdf Sample.sha256_hex
                 Sample.jwt_sign Sample.jwt_verify _
                 (App.Register "alice" "secret1" "salt-a") 1000
                 (App.reachable_empty Sample.kdf Sample.sha256_hex
                    Sample.jwt_sign Sample.jwt_verify)))).
Defined.

(** X3 on the same store: "alice" holds 690 cents and one payment is
    recorded against her id. *)
Lemma reachable_ledger_balanced_alice :
  map balance (users Sample.alice_charged) = [690]
  /\ forall u, In u (users Sample.alice_charged) ->
               balance u + charged (u_id u) Sample.alice_charged = 800.
Proof.
  split; [reflexivity|].
  intros u Hin.
  apply (reachable_ledger_balanced Sample.kdf Sample.sha256_hex
           Sample.jwt_sign Sample.jwt_verify); [|exact Hin].
  exact (App.reachable_handle Sample.kdf Sample.sha256_hex Sample.jwt_sign
           Sample.jwt_verify _ (App.Payments (Some Sample.alice_token)) 30000
           (App.reachable_handle Sample.kdf Sample.sha256_hex Sample.jwt_sign
              Sample.jwt_verify _ (App.Login "alice" "secret1") 20000
              (App.reachable_handle Sample.kdf Sample.sha256_hex
                 Sample.jwt_sign Sample.jwt_verify _
                 (App.Register "alice" "secret1" "salt-a") 1000
                 (App.reachable_empty Sample.kdf Sample.sha256_hex
                    Sample.jwt_sign Sample.jwt_verify)))).
Defined.

End BooksFacts.

(** ** The handlers of app.js, composed *)

Module HandlerFacts.
Import FileDb.

Lemma falsy_false (s : string) : Js.falsy s = false <-> s <> ""%string.
Proof. unfold Js.falsy. apply String.eqb_neq. Qed.

Lemma validateSession_some (db : Db) (h : string) (nowMs : Z) (s : Session)
      (n : string) (b : Z) :
  validateSession db h nowMs = Some (s, n, b) ->
  find (live_with h (Js.seconds nowMs)) (sessions db) = Some s
  /\ exists u, find (has_id (user_id s)) (users db) = Some u
               /\ n = username u /\ b = balance u.
Proof.
  unfold validateSession.
  destruct (find _ (sessions db)) as [s'|]; [|discriminate].
  destruct (find _ (users db)) as [u|] eqn:Hu; [|discriminate].
  intros [= <- <- <-]. split; [reflexivity|]. exists u. repeat split. exact Hu.
Qed.

Section Crypto.
Variable kdf : Z -> string -> string -> string.
Variable sha256_hex : string -> string.
Variable jwt_sign : Z -> string -> string -> Z -> string.
Variable jwt_verify : string -> string -> Z -> bool.

Local Abbreviation authenticateToken :=
  (App.authenticateToken sha256_hex jwt_verify).
Local Abbreviation post_auth_register := (App.post_auth_register kdf).
Local Abbreviation post_auth_login :=
  (App.post_auth_login kdf sha256_hex jwt_sign).
Local Abbreviation post_auth_logout :=
  (App.post_auth_logout sha256_hex jwt_verify).
Local Abbreviation post_payments := (App.post_payments sha256_hex jwt_verify).
Local Abbreviation get_me := (App.get_me sha256_hex jwt_verify).

(** X4.  POST /auth/register answers 201 exactly when both fields are
    non-empty, the password has six characters or more and the name is not
    taken; the store then gains one user, with the next id, 800 cents, no
    counted failure and no lock, and nothing else changes.  In every other
    case the answer is 400 or 409 and the store is left as it is. *)
Theorem register_outcomes (db : Db) (name password fresh : string) (nowMs : Z) :
  let result := post_auth_register db name password fresh nowMs in
  (App.status (fst result) = 201
   <-> name <> ""%string /\ password <> ""%string
       /\ (6 <= String.length password)%nat /\ findUser db name = None)
  /\ (App.status (fst result) = 201 ->
      result
      = (App.json 201 (App.UserCreated (lastUserId db + 1) name
                                       {| cents := 800 |}),
         {| users := users db ++
              [{| u_id := lastUserId db + 1; username := name;
                  password_hash := Bcrypt.hashSync kdf password 12 fresh;
                  balance := 800; failed_attempts := 0; locked_until := 0;
                  u_created_at := Js.seconds nowMs |}];
            sessions := sessions db; payments := payments db;
            lastUserId := lastUserId db + 1;
            lastSessionId := lastSessionId db;
            lastPaymentId := lastPaymentId db |}))
  /\ (App.status (fst result) <> 201 ->
      snd result = db
      /\ (App.status (fst result) = 400 \/ App.status (fst result) = 409)).
Proof.
  intros result. unfold result, App.post_auth_register, createUser, findUser.
  destruct (Js.falsy name) eqn:Hn; simpl.
  { apply String.eqb_eq in Hn. subst name.
    split; [split; [discriminate | intros (H & _); contradiction]|].
    split; [discriminate | intros _; split; [reflexivity | left; reflexivity]]. }
  destruct (Js.falsy password) eqn:Hp; simpl.
  { apply String.eqb_eq in Hp. subst password.
    split; [split; [discriminate | intros (_ & H & _); contradiction]|].
    split; [discriminate | intros _; split; [reflexivity | left; reflexivity]]. }
  apply falsy_false in Hn, Hp.
  destruct (Nat.ltb_spec (String.length password) 6) as [Hlen | Hlen]; simpl.
  { split; [split; [discriminate | intros (_ & _ & H & _); lia]|].
    split; [discriminate | intros _; split; [reflexivity | left; reflexivity]]. }
  destruct (find (has_username name) (users db)) eqn:Hf; simpl.
  { split; [split; [discriminate | intros (_ & _ & _ & H); discriminate]|].
    split; [discriminate | intros _; split; [reflexivity | right; reflexivity]]. }
  split; [split; [intros _; repeat split; assumption | reflexivity]|].
  split; [reflexivity | intros H; contradiction].
Qed.

(** What POST /payments does with a token [authenticateToken] accepts. *)
Lemma post_payments_accepted (db : Db) (bearer : option string) (nowMs : Z)
      (user : App.ReqUser) :
  authenticateToken db bearer nowMs = inr user ->
  exists u,
    find (has_id (App.req_id user)) (users db) = Some u
    /\ cents (App.req_balance user) = balance u
    /\ (110 <= balance u ->
        exists db',
          post_payments db bearer nowMs
          = (App.json 200
               (App.PaymentProcessed
                  {| paymentId := lastPaymentId db + 1;
                     r_amount := {| cents := 110 |};
                     balanceBefore := {| cents := balance u |};
                     balanceAfter := {| cents := balance u - 110 |} |}),
             db')
          /\ find (has_id (App.req_id user)) (users db')
             = Some (set_balance u (balance u - 110))
          /\ sessions db' = sessions db)
    /\ (balance u < 110 ->
        post_payments db bearer nowMs
        = (App.json 400 (App.Error "Insufficient funds"), db)).
Proof.
  intros Ha.
  destruct (LogoutFacts.authenticateToken_accepts _ _ _ _ _ _ Ha)
    as (token & s & _ & _ & _ & Hv & Hid).
  destruct (validateSession_some _ _ _ _ _ _ Hv) as (_ & u & Hu & _ & Hb).
  rewrite <- Hid in Hu. exists u. split; [exact Hu|]. split; [exact Hb|].
  split.
  - intros Hge.
    destruct (LedgerFacts.processPayment_sufficient db (App.req_id user)
                nowMs u Hu Hge) as (i & Hi & Heq).
    eexists. unfold App.post_payments. rewrite Ha, Heq.
    split; [reflexivity|]. split; [|reflexivity].
    cbn [users]. apply LedgerFacts.find_charged; assumption.
  - intros Hlt. unfold App.post_payments. rewrite Ha.
    rewrite (LedgerFacts.processPayment_insufficient _ _ _ _ Hu Hlt).
    reflexivity.
Qed.

(** X7.  POST /payments never answers 500.  A request [authenticateToken]
    turns away gets its 401 or 403 and changes nothing.  Otherwise the
    user of the session is in the store: with 110 cents or more the answer
    is 200 with a receipt from that balance to 110 less, the user holds the
    new balance and the sessions are untouched; with less the answer is
    400 "Insufficient funds" and nothing changes. *)
Theorem post_payments_outcomes (db : Db) (bearer : option string) (nowMs : Z) :
  match authenticateToken db bearer nowMs with
  | inl response =>
      post_payments db bearer nowMs = (response, db)
      /\ (App.status response = 401 \/ App.status response = 403)
  | inr user =>
      exists u,
        find (has_id (App.req_id user)) (users db) = Some u
        /\ cents (App.req_balance user) = balance u
        /\ (110 <= balance u ->
            exists db',
              post_payments db bearer nowMs
              = (App.json 200
                   (App.PaymentProcessed
                      {| paymentId := lastPaymentId db + 1;
                         r_amount := {| cents := 110 |};
                         balanceBefore := {| cents := balance u |};
                         balanceAfter := {| cents := balance u - 110 |} |}),
                 db')
              /\ find (has_id (App.req_id user)) (users db')
                 = Some (set_balance u (balance u - 110))
              /\ sessions db' = sessions db)
        /\ (balance u < 110 ->
            post_payments db bearer nowMs
            = (App.json 400 (App.Error "Insufficient funds"), db))
  end.
Proof.
  destruct (authenticateToken db bearer nowMs) as [response|user] eqn:Ha.
  - split; [unfold App.post_payments; rewrite Ha; reflexivity|].
    exact (LogoutFacts.authenticateToken_rejects _ _ _ _ _ _ Ha).
  - exact (post_payments_accepted db bearer nowMs user Ha).
Qed.

(** X8.  A charge shows in what GET /me answers next: when the token is
    accepted for the same user at both clock readings and the account holds
    110 cents or more, POST /payments answers 200 and GET /me on the store
    it leaves reports the balance less 110. *)
Theorem charge_then_me (db : Db) (bearer : option string) (t1 t2 : Z)
        (user1 user2 : App.ReqUser) :
  authenticateToken db bearer t1 = inr user1 ->
  authenticateToken db bearer t2 = inr user2 ->
  App.req_id user2 = App.req_id user1 ->
  110 <= cents (App.req_balance user1) ->
  exists receipt db',
    post_payments db bearer t1
    = (App.json 200 (App.PaymentProcessed receipt), db')
    /\ balanceAfter receipt = {| cents := cents (App.req_balance user1) - 110 |}
    /\ get_me db' bearer t2
       = (App.json 200 (App.Me (App.req_id user1) (App.req_username user2)
                               (balanceAfter receipt)), db').
Proof.
  intros Ha1 Ha2 Hsame Hge.
  destruct (post_payments_accepted db bearer t1 user1 Ha1)
    as (u & Hu & Hb & Hok & _).
  rewrite Hb in Hge.
  destruct (Hok Hge) as (db' & Hpay & Hfound & Hsess).
  do 2 eexists. split; [exact Hpay|]. cbn [balanceAfter].
  split; [rewrite Hb; reflexivity|].
  destruct (LogoutFacts.authenticateToken_accepts _ _ _ _ _ _ Ha2)
    as (token & s & -> & Hf & Hj & Hv & Hid).
  destruct (validateSession_some _ _ _ _ _ _ Hv) as (Hs & u2 & Hu2 & Hn2 & _).
  unfold App.get_me, App.authenticateToken, App.hashToken.
  rewrite Hf, Hj. unfold validateSession. rewrite Hsess, Hs.
  rewrite <- Hid in Hu2 |- *. rewrite Hsame in Hu2 |- *.
  rewrite Hfound. cbn [username balance set_balance App.req_id
                       App.req_username App.req_balance].
  rewrite Hu in Hu2. injection Hu2 as <-.
  rewrite Hn2, <- Hid, Hsame. reflexivity.
Qed.

(** X5.  Login, then GET /me: in a store with distinct ids that holds no
    session for the digest of the token, the token a login returns resolves,
    for the 86400 seconds that follow and while the JWT verifies, to the
    id, name and balance the login answered with, and GET /me changes
    nothing. *)
Theorem login_then_me (db : Db) (name password : string) (t0 : Z)
        (token : string) (i : Z) (n : string) (b : Dollars) (db1 : Db)
        (t1 : Z) :
  unique_ids db ->
  (forall s, In s (sessions db) -> token_hash s <> sha256_hex token) ->
  post_auth_login db name password t0
  = (App.json 200 (App.LoginSuccessful token i n b), db1) ->
  token <> ""%string ->
  jwt_verify token App.JWT_SECRET t1 = true ->
  Js.seconds t1 < Js.seconds t0 + 86400 ->
  get_me db1 (Some token) t1 = (App.json 200 (App.Me i n b), db1).
Proof.
  intros Hid Hfresh Hlogin Htok Hjwt Hlive.
  assert (Hl : App.login kdf sha256_hex jwt_sign db name password t0
               = (App.json 200 (App.LoginSuccessful token i n b), db1)).
  { unfold App.post_auth_login in Hlogin.
    destruct (Js.falsy name || Js.falsy password); [discriminate|exact Hlogin]. }
  destruct (SessionFacts.issued_session_lifetime kdf sha256_hex jwt_sign db
              name password t0 token i n b db1 Hid Hfresh Hl t1)
    as [Hval _].
  destruct (Hval Hlive) as (s & Hv & Hs).
  unfold App.get_me, App.authenticateToken, App.hashToken.
  rewrite (proj2 (falsy_false token) Htok), Hjwt, Hv.
  rewrite Hs. destruct b. reflexivity.
Qed.

(** X6.  After a logout that was answered 200, the same token is turned
    away everywhere: POST /payments and GET /me answer 403 at any later
    clock reading and change nothing. *)
Theorem logout_then_refused (db : Db) (bearer : option string) (t0 t : Z) :
  App.status (fst (post_auth_logout db bearer t0)) = 200 ->
  let db' := snd (post_auth_logout db bearer t0) in
  (exists response, post_payments db' bearer t = (response, db')
                    /\ App.status response = 403)
  /\ (exists response, get_me db' bearer t = (response, db')
                       /\ App.status response = 403).
Proof.
  intros H200 db'.
  destruct (authenticateToken db bearer t0) as [r|user] eqn:Ha.
  - exfalso. unfold App.post_auth_logout in H200. rewrite Ha in H200.
    simpl in H200.
    destruct (LogoutFacts.authenticateToken_rejects _ _ _ _ _ _ Ha); lia.
  - destruct (LogoutFacts.authenticateToken_accepts _ _ _ _ _ _ Ha)
      as (token & s & -> & Hf & _).
    assert (Hdb : db' = removeSession db (sha256_hex token)).
    { unfold db', App.post_auth_logout. rewrite Ha. reflexivity. }
    destruct (LogoutFacts.authenticateToken_no_session sha256_hex jwt_verify
                db' token t Hf) as (r & Hr & Hs).
    { rewrite Hdb. apply LogoutFacts.validateSession_removed. }
    split; exists r; (split; [|exact Hs]).
    + unfold App.post_payments. rewrite Hr. reflexivity.
    + unfold App.get_me. rewrite Hr. reflexivity.
Qed.

End Crypto.

(** X4 for "alice" on the empty store. *)
Lemma register_outcomes_alice :
  App.post_auth_register Sample.kdf empty "alice" "secret1" "salt-a" 1000
  = (App.json 201 (App.UserCreated 1 "alice" {| cents := 800 |}),
     Sample.alice_registered).
Proof.
  destruct (register_outcomes Sample.kdf empty "alice" "secret1" "salt-a" 1000)
    as (Hiff & Hok & _).
  rewrite Hok; [reflexivity|].
  apply Hiff. repeat split; try discriminate. simpl. lia.
Defined.

(** X7 for "alice": her payment at second 30 is answered 200 with a
    receipt from 800 to 690. *)
Lemma post_payments_outcomes_alice :
  fst (App.post_payments Sample.sha256_hex Sample.jwt_verify
         Sample.alice_logged_in (Some Sample.alice_token) 30000)
  = App.json 200
      (App.PaymentProcessed
         {| paymentId := 1; r_amount := {| cents := 110 |};
            balanceBefore := {| cents := 800 |};
            balanceAfter := {| cents := 690 |} |}).
Proof.
  pose proof (post_payments_outcomes Sample.sha256_hex Sample.jwt_verify
                Sample.alice_logged_in (Some Sample.alice_token) 30000) as H.
  change (App.authenticateToken Sample.sha256_hex Sample.jwt_verify
            Sample.alice_logged_in (Some Sample.alice_token) 30000)
    with (@inr App.Response App.ReqUser
               {| App.req_id := 1; App.req_username := "alice";
                  App.req_balance := {| cents := 800 |} |}) in H.
  destruct H as (u & Hu & Hb & Hok & _). simpl in Hb.
  destruct (Hok ltac:(lia)) as (db' & Heq & _).
  rewrite Heq, <- Hb. reflexivity.
Defined.

(** X8 for "alice": she pays at second 30 and asks for her account at
    second 40. *)
Lemma charge_then_me_alice :
  exists receipt db',
    App.post_payments Sample.sha256_hex Sample.jwt_verify
                      Sample.alice_logged_in (Some Sample.alice_token) 30000
    = (App.json 200 (App.PaymentProcessed receipt), db')
    /\ balanceAfter receipt = {| cents := 690 |}
    /\ App.get_me Sample.sha256_hex Sample.jwt_verify db'
                  (Some Sample.alice_token) 40000
       = (App.json 200 (App.Me 1 "alice" (balanceAfter receipt)), db').
Proof.
  exact (charge_then_me Sample.sha256_hex Sample.jwt_verify
           Sample.alice_logged_in (Some Sample.alice_token) 30000 40000
           {| App.req_id := 1; App.req_username := "alice";
              App.req_balance := {| cents := 800 |} |}
           {| App.req_id := 1; App.req_username := "alice";
              App.req_balance := {| cents := 800 |} |}
           (eq_refl _) (eq_refl _) (eq_refl _) ltac:(simpl; lia)).
Defined.

(** X5 for "alice": the token of her login at second 20 resolves to her
    at second 86419. *)
Lemma login_then_me_alice :
  App.get_me Sample.sha256_hex Sample.jwt_verify Sample.alice_logged_in
             (Some Sample.alice_token) 86419999
  = (App.json 200 (App.Me 1 "alice" {| cents := 800 |}),
     Sample.alice_logged_in).
Proof.
  exact (login_then_me Sample.kdf Sample.sha256_hex Sample.jwt_sign
           Sample.jwt_verify Sample.alice_registered "alice" "secret1" 20000
           Sample.alice_token 1 "alice" {| cents := 800 |}
           Sample.alice_logged_in 86419999
           ltac:(repeat constructor; simpl; intuition discriminate)
           ltac:(intros s [])
           (eq_refl _) ltac:(discriminate) (eq_refl _)
           ltac:(vm_compute; reflexivity)).
Defined.

(** X6 for "alice": after her logout at second 30 her token is answered
    403 at second 31. *)
Lemma logout_then_refused_alice :
  exists response db',
    App.post_payments Sample.sha256_hex Sample.jwt_verify
      (snd (App.post_auth_logout Sample.sha256_hex Sample.jwt_verify
              Sample.alice_logged_in (Some Sample.alice_token) 30000))
      (Some Sample.alice_token) 31000
    = (response, db')
    /\ App.status response = 403.
Proof.
  destruct (logout_then_refused Sample.sha256_hex Sample.jwt_verify
              Sample.alice_logged_in (Some Sample.alice_token) 30000 31000
              (eq_refl _)) as [(r & Hr & Hs) _].
  exists r. eexists. split; [exact Hr | exact Hs].
Defined.

End HandlerFacts.

(** ** Removing sessions in database.js *)

Module SessionStoreFacts.
Import FileDb.

Lemma find_filter {A : Type} (p q : A -> bool) (l : list A) :
  (forall x, p x = true -> q x = true) -> find p (filter q l) = find p l.
Proof.
  intros H. induction l as [|x r IH]; simpl; [reflexivity|].
  destruct (q x) eqn:Hq; simpl.
  - destruct (p x); [reflexivity | exact IH].
  - destruct (p x) eqn:Hp; [|exact IH].
    rewrite (H x Hp) in Hq. discriminate.
Qed.

(** X9.  [cleanupExpiredSessions] cannot be observed: at its own clock
    reading and at any later one [validateSession] answers the same for
    every digest as it would without the cleanup.  The sessions it keeps
    are those that had not expired, and users and payments are untouched. *)
Theorem cleanup_unobservable (db : Db) (cleanedMs : Z) (tokenHash : string)
        (nowMs : Z) :
  Js.seconds cleanedMs <= Js.seconds nowMs ->
  validateSession (cleanupExpiredSessions db cleanedMs) tokenHash nowMs
  = validateSession db tokenHash nowMs
  /\ (forall s, In s (sessions (cleanupExpiredSessions db cleanedMs))
                <-> In s (sessions db)
                    /\ Js.seconds cleanedMs < expires_at s)
  /\ users (cleanupExpiredSessions db cleanedMs) = users db
  /\ payments (cleanupExpiredSessions db cleanedMs) = payments db.
Proof.
  intros Hle. split; [|split; [|split; reflexivity]].
  - unfold validateSession, cleanupExpiredSessions. simpl.
    rewrite find_filter; [reflexivity|].
    intros s Hs. apply SessionFacts.live_with_iff in Hs.
    apply Z.ltb_lt. lia.
  - intros s. unfold cleanupExpiredSessions. simpl.
    rewrite filter_In, Z.ltb_lt. reflexivity.
Qed.

(** X10.  [removeSession(tokenHash)] ends every session of that digest and
    touches no other: afterwards the digest resolves to nothing at any
    clock reading, and every other digest resolves as before. *)
Theorem removeSession_only_that_digest (db : Db) (tokenHash other : string)
        (nowMs : Z) :
  other <> tokenHash ->
  validateSession (removeSession db tokenHash) tokenHash nowMs = None
  /\ validateSession (removeSession db tokenHash) other nowMs
     = validateSession db other nowMs.
Proof.
  intros Hne. split; [apply LogoutFacts.validateSession_removed|].
  unfold validateSession, removeSession. simpl.
  rewrite find_filter; [reflexivity|].
  intros s Hs. apply SessionFacts.live_with_iff in Hs.
  apply negb_true_iff. apply String.eqb_neq. destruct Hs as [Hs _]. congruence.
Qed.

(** X9 on the store of "carol", which holds a session that expired at
    second 50 and one that expires at second 86460: after a cleanup at
    second 100 the second digest resolves as before. *)
Lemma cleanup_unobservable_carol :
  validateSession (cleanupExpiredSessions Sample.carol_store 100000)
                  (Sample.sha256_hex "jwt.carol.60") 200000
  = validateSession Sample.carol_store (Sample.sha256_hex "jwt.carol.60")
                    200000
  /\ List.length (sessions (cleanupExpiredSessions Sample.carol_store 100000))
     = 1%nat.
Proof.
  split; [|reflexivity].
  apply (cleanup_unobservable Sample.carol_store 100000
           (Sample.sha256_hex "jwt.carol.60") 200000).
  vm_compute. discriminate.
Defined.

(** X10 on the store of "carol": removing the first digest leaves the
    second one valid. *)
Lemma removeSession_only_that_digest_carol :
  validateSession (removeSession Sample.carol_store
                                 (Sample.sha256_hex "jwt.carol.5"))
                  (Sample.sha256_hex "jwt.carol.60") 200000
  = validateSession Sample.carol_store (Sample.sha256_hex "jwt.carol.60")
                    200000.
Proof.
  apply (removeSession_only_that_digest Sample.carol_store
           (Sample.sha256_hex "jwt.carol.5") (Sample.sha256_hex "jwt.carol.60")
           200000).
  discriminate.
Defined.

End SessionStoreFacts.

(** ** Ids the store does not hold *)

Module UnknownIdFacts.
Import FileDb.

Lemma update_first_no_match {A : Type} (p : A -> bool) (f : A -> A)
      (l : list A) :
  find p l = None -> Js.update_first p f l = l.
Proof.
  induction l as [|x r IH]; simpl; [reflexivity|].
  destruct (p x); [discriminate|]. intros H. rewrite (IH H). reflexivity.
Qed.

(** X13.  For a user id the store does not hold, [processPayment] throws
    "User not found" and [updateFailedAttempts] does nothing; the store is
    the one they were given. *)
Theorem unknown_user_id (db : Db) (userId : Z) :
  find (has_id userId) (users db) = None ->
  (forall nowMs, processPayment db userId nowMs = (Throw UserNotFound, db))
  /\ (forall attempts lockUntil,
        updateFailedAttempts db userId attempts lockUntil = db).
Proof.
  intros Hf. split.
  - intros nowMs. unfold processPayment.
    rewrite (BooksFacts.findIndex_none_of_find _ _ Hf). reflexivity.
  - intros a b. unfold updateFailedAttempts, set_users.
    rewrite (update_first_no_match _ _ _ Hf). destruct db. reflexivity.
Qed.

(** X13 on the store of "carol", for the id 7. *)
Lemma unknown_user_id_carol :
  processPayment Sample.carol_store 7 100000
  = (Throw UserNotFound, Sample.carol_store)
  /\ updateFailedAttempts Sample.carol_store 7 5 1900 = Sample.carol_store.
Proof.
  destruct (unknown_user_id Sample.carol_store 7 (eq_refl _)) as [Hp Hu].
  split; [apply Hp | apply Hu].
Defined.

End UnknownIdFacts.

(** ** Database.java: the session of [main], for any user and clock *)

Module JavaSessionFacts.
Import JavaDatabase.

Lemma java_seconds_nonneg (nowMs : Z) : 0 <= nowMs -> 0 <= seconds nowMs.
Proof. intros H. unfold seconds. apply Z.quot_pos; lia. Qed.

Section Sha.
Variable hashPassword : string -> string.

(** X16.  What [main] tries, for any name, password and clock readings.
    On the initial store [createUser] makes user 1; a login with the same
    password at [t0] returns the token made of the id and [t0]; within the
    86400 seconds that follow two payments with that token go through and
    leave 690 and then 580 cents, and [getUserInfo] reports the name and
    580 cents; after [logout] the token is answered "ERROR: Invalid token"
    by [validateSession] and by [processPayment], at any clock reading. *)
Theorem main_session (name password : string) (t0 t1 t2 t3 : Z) :
  0 <= t0 -> seconds t0 + 86400 < 2 ^ 63 ->
  seconds t1 < seconds t0 + 86400 ->
  seconds t2 < seconds t0 + 86400 ->
  seconds t3 < seconds t0 + 86400 ->
  let db1 := snd (createUser hashPassword initial name password) in
  let token := make_token 1 t0 in
  exists db2 db3 db4,
    fst (createUser hashPassword initial name password)
    = SUCCESS_User_created_with_ID 1
    /\ loginUser hashPassword db1 name password t0
       = (SUCCESS_token_Balance token {| cents := 800 |}, db2)
    /\ processPayment hashPassword db2 token t1
       = (SUCCESS_Payment_processed {| cents := 690 |}, db3)
    /\ processPayment hashPassword db3 token t2
       = (SUCCESS_Payment_processed {| cents := 580 |}, db4)
    /\ getUserInfo hashPassword db4 token t3
       = SUCCESS_username_Balance name {| cents := 580 |}
    /\ map (fun p => (balanceBefore p, balanceAfter p)) (payments db4)
       = [(800, 690); (690, 580)]
    /\ forall t,
         validateSession hashPassword (snd (logout hashPassword db4 token))
                         token t
         = ERROR_Invalid_token
         /\ processPayment hashPassword (snd (logout hashPassword db4 token))
                           token t
            = (ERROR_Invalid_token, snd (logout hashPassword db4 token)).
Proof.
  intros H0 Hbound H1 H2 H3 db1 token.
  pose proof (java_seconds_nonneg t0 H0) as Hs0.
  assert (Hexp : int64 (seconds t0 + 24 * 60 * 60) = seconds t0 + 86400)
    by (apply JavaFacts.int64_small; lia).
  do 3 eexists. split; [reflexivity|].
  split.
  { unfold db1, loginUser, createUser. cbn [find users initial snd app].
    unfold has_username at 1. cbn [username new_User].
    rewrite String.eqb_refl. cbn [lockedUntil new_User].
    destruct (Z.ltb_spec (seconds t0) 0); [lia|].
    cbn [passwordHash new_User]. rewrite String.eqb_refl. cbn [negb].
    rewrite Hexp. reflexivity. }
  cbn [Js.update_first users initial app nextUserId nextSessionId sessions
       payments nextPaymentId id new_User balance].
  unfold has_username. cbn [username new_User]. rewrite String.eqb_refl.
  split.
  { unfold processPayment. cbn [find sessions app].
    unfold live_with at 1. cbn [tokenHash expiresAt].
    rewrite String.eqb_refl.
    destruct (Z.ltb_spec (seconds t1) (seconds t0 + 86400)); [|lia].
    cbn [andb userId find users has_id id reset_attempts new_User Z.eqb
         Pos.eqb balance Z.ltb Z.compare Pos.compare Pos.compare_cont].
    reflexivity. }
  cbn [Js.update_first has_id userId id reset_attempts new_User Z.eqb Pos.eqb
       app].
  split.
  { unfold processPayment. cbn [find sessions app].
    unfold live_with at 1. cbn [tokenHash expiresAt].
    rewrite String.eqb_refl.
    destruct (Z.ltb_spec (seconds t2) (seconds t0 + 86400)); [|lia].
    cbn [andb userId find users has_id id debit reset_attempts new_User Z.eqb
         Pos.eqb balance].
    reflexivity. }
  split.
  { unfold getUserInfo, validateSession. cbn [find sessions app].
    unfold live_with at 1. cbn [tokenHash expiresAt].
    rewrite String.eqb_refl.
    destruct (Z.ltb_spec (seconds t3) (seconds t0 + 86400)); [|lia].
    reflexivity. }
  split; [reflexivity|].
  intros t. unfold logout, validateSession, processPayment.
  cbn [snd sessions filter tokenHash app]. rewrite String.eqb_refl.
  cbn [negb find]. split; reflexivity.
Qed.

End Sha.

(** X16 with the names and the order of [main]. *)
Lemma main_session_testuser :
  exists db2 db3 db4,
    loginUser Sample.sha256_hex
      (snd (createUser Sample.sha256_hex initial "testuser" "password123"))
      "testuser" "password123" 1700000000000
    = (SUCCESS_token_Balance "token_1_1700000000000" {| cents := 800 |}, db2)
    /\ processPayment Sample.sha256_hex db2 "token_1_1700000000000"
                      1700000000001
       = (SUCCESS_Payment_processed {| cents := 690 |}, db3)
    /\ processPayment Sample.sha256_hex db3 "token_1_1700000000000"
                      1700000000002
       = (SUCCESS_Payment_processed {| cents := 580 |}, db4)
    /\ getUserInfo Sample.sha256_hex db4 "token_1_1700000000000" 1700000000003
       = SUCCESS_username_Balance "testuser" {| cents := 580 |}.
Proof.
  destruct (main_session Sample.sha256_hex "testuser" "password123"
              1700000000000 1700000000001 1700000000002 1700000000003
              ltac:(lia) ltac:(vm_compute; reflexivity)
              ltac:(vm_compute; reflexivity) ltac:(vm_compute; reflexivity)
              ltac:(vm_compute; reflexivity))
    as (db2 & db3 & db4 & _ & Hl & Hp1 & Hp2 & Hi & _).
  exists db2, db3, db4. split; [exact Hl|]. split; [exact Hp1|].
  split; [exact Hp2 | exact Hi].
Defined.

End JavaSessionFacts.

(** ** The remote store: calls that do not overlap, registration, logout *)

Module RemoteStoreFacts.
Import FirebaseDatabase.

Lemma username_exists_set (name key : string) (u : User)
      (l : list (string * User)) :
  username u = name -> username_exists name (set key u l) = true.
Proof.
  intros Hu. unfold username_exists.
  induction l as [|[k w] r IH]; simpl.
  - rewrite Hu, String.eqb_refl. reflexivity.
  - destruct (String.eqb k key); simpl.
    + rewrite Hu, String.eqb_refl. reflexivity.
    + rewrite IH. apply orb_true_r.
Qed.

Section Kdf.
Variable kdf : Z -> string -> string -> string.

Lemma reg_turn (i : nat) (later : list nat) (st st' : Store)
      (calls : list Registration) (c : Registration) (t : RegTask) :
  nth_error calls i = Some c ->
  reg_step kdf st c = (st', t) ->
  reg_run kdf (i :: later) st calls
  = reg_run kdf later st' (Js.set_at i (reg_resume c t) calls).
Proof. intros Hn Hs. simpl. rewrite Hn, Hs. reflexivity. Qed.

Lemma scan_no_match (tok : string) (now : Z) (l : list (string * Session)) :
  (forall kv, In kv l -> verifyToken kdf tok (tokenHash (snd kv)) = false) ->
  scan kdf tok now l = Returned (failure "Invalid or expired token").
Proof.
  induction l as [|[k s] r IH]; simpl; intros H; [reflexivity|].
  pose proof (H (k, s) (or_introl eq_refl)) as Hk. simpl in Hk.
  rewrite Hk. apply IH.
  intros kv Hkv. apply H. right. exact Hkv.
Qed.

(** X18.  Two calls of [processPayment] that do not overlap, for a user
    with exactly 110 cents: the first runs to its end and returns a payment
    from 110 to 0; the second, started after it, returns "Insufficient
    funds"; one payment record is stored and the balance is 0. *)
Theorem consecutive_charges_one_succeeds (st : Store) (tok : string)
        (now1 now2 : Z) (p1 p2 : string) (session : Session) (user : User) :
  scan kdf tok (Js.seconds now1) (sessionsRef st) = ReadSessionUser session ->
  scan kdf tok (Js.seconds now2) (sessionsRef st) = ReadSessionUser session ->
  child (userId session) (usersRef st) = Some user ->
  id user = userId session ->
  balance user = 110 ->
  child p1 (paymentsRef st) = None ->
  exists st',
    run kdf [0; 0; 0; 0; 0; 0; 1; 1; 1]%nat st
        [processPayment tok now1 p1; processPayment tok now2 p2]
    = (st',
       [resume (processPayment tok now1 p1)
               (Returned (success p1 {| cents := 110 |} {| cents := 110 |}
                                  {| cents := 0 |}));
        resume (processPayment tok now2 p2)
               (Returned (failure "Insufficient funds"))])
    /\ child (id user) (usersRef st') = Some (set_balance 0 user)
    /\ List.length (paymentsRef st') = S (List.length (paymentsRef st)).
Proof.
  intros H1 H2 Hu Hid Hb Hn1.
  assert (Hu' : child (id user) (usersRef st) = Some user)
    by (rewrite Hid; exact Hu).
  unfold processPayment.
  erewrite ConcurrencyFacts.run_turn;
    [|reflexivity
     |eapply ConcurrencyFacts.step_ReadSessions; [reflexivity|exact H1]].
  cbn [Js.set_at resume token nowMs newId].
  erewrite ConcurrencyFacts.run_turn;
    [|reflexivity
     |eapply ConcurrencyFacts.step_ReadSessionUser; [reflexivity|exact Hu]].
  cbn [Js.set_at resume token nowMs newId].
  erewrite ConcurrencyFacts.run_turn;
    [|reflexivity
     |eapply ConcurrencyFacts.step_CheckUser;
      [reflexivity | exact Hu' | simpl; lia]].
  cbn [Js.set_at resume token nowMs newId v_id].
  erewrite ConcurrencyFacts.run_turn;
    [|reflexivity
     |eapply ConcurrencyFacts.step_ReadCurrentUser;
      [reflexivity | exact Hu' | lia]].
  cbn [Js.set_at resume token nowMs newId]. rewrite Hb.
  erewrite ConcurrencyFacts.run_turn; [|reflexivity|reflexivity].
  cbn [Js.set_at resume token nowMs newId at_].
  erewrite ConcurrencyFacts.run_turn; [|reflexivity|reflexivity].
  cbn [Js.set_at resume token nowMs newId at_ p_id balanceBefore balanceAfter].
  (* the second call starts on the store the first one has left *)
  assert (Hu1 : child (userId session)
                  (update_balance (id user) (110 - 110) (usersRef st))
                = Some (set_balance 0 user)).
  { rewrite <- Hid. apply ConcurrencyFacts.child_update_balance. exact Hu'. }
  erewrite ConcurrencyFacts.run_turn;
    [|reflexivity
     |eapply ConcurrencyFacts.step_ReadSessions; [reflexivity|exact H2]].
  cbn [Js.set_at resume token nowMs newId].
  erewrite ConcurrencyFacts.run_turn;
    [|reflexivity
     |eapply ConcurrencyFacts.step_ReadSessionUser; [reflexivity|exact Hu1]].
  cbn [Js.set_at resume token nowMs newId id username balance set_balance].
  assert (Hu2 : child (id user)
                  (update_balance (id user) (110 - 110) (usersRef st))
                = Some (set_balance 0 user))
    by (apply ConcurrencyFacts.child_update_balance; exact Hu').
  erewrite ConcurrencyFacts.run_turn;
    [|reflexivity
     |unfold step;
      cbn [at_ resume v_id v_balance cents usersRef id set_balance balance];
      rewrite Hu2; reflexivity].
  cbn. eexists. split; [reflexivity|]. cbn. split.
  - apply ConcurrencyFacts.child_update_balance. exact Hu'.
  - apply ConcurrencyFacts.length_set_new. exact Hn1.
Qed.

(** X19.  [createUser] looks the name up, suspends, and writes the user.
    Two calls for one name that nobody has, given different ids: resumed
    in turn, both find the name free, both write, both return success, and
    the store holds two users of that name; resumed one after the other,
    the second returns "User already exists" and the store holds one. *)
Theorem createUser_twice (st : Store) (name pw1 pw2 id1 id2 f1 f2 : string) :
  username_exists name (usersRef st) = false ->
  id1 <> id2 ->
  (exists st',
      reg_run kdf [0; 1; 0; 1]%nat st
              [createUser name pw1 id1 f1; createUser name pw2 id2 f2]
      = (st',
         [reg_resume (createUser name pw1 id1 f1)
                     (RegReturned (registered id1 name {| cents := 800 |}));
          reg_resume (createUser name pw2 id2 f2)
                     (RegReturned (registered id2 name {| cents := 800 |}))])
      /\ option_map username (child id1 (usersRef st')) = Some name
      /\ option_map username (child id2 (usersRef st')) = Some name)
  /\ (exists st',
         reg_run kdf [0; 0; 1; 1]%nat st
                 [createUser name pw1 id1 f1; createUser name pw2 id2 f2]
         = (st',
            [reg_resume (createUser name pw1 id1 f1)
                        (RegReturned (registered id1 name {| cents := 800 |}));
             reg_resume (createUser name pw2 id2 f2)
                        (RegReturned (not_registered "User already exists"))])
         /\ usersRef st'
            = set id1 {| id := id1; username := name;
                         passwordHash := Bcrypt.hashSync kdf pw1 12 f1;
                         balance := 800; failedAttempts := 0;
                         lockedUntil := 0 |} (usersRef st)).
Proof.
  intros Hfree Hne. split.
  - unfold createUser.
    erewrite reg_turn; [|reflexivity
                        |unfold reg_step; cbn [r_at r_username]; rewrite Hfree;
                         reflexivity].
    cbn [Js.set_at reg_resume r_username r_password r_newId r_fresh].
    erewrite reg_turn; [|reflexivity
                        |unfold reg_step; cbn [r_at r_username]; rewrite Hfree;
                         reflexivity].
    cbn. eexists. split; [reflexivity|]. cbn. split.
    + rewrite ConcurrencyFacts.child_set_other; [|exact Hne].
      rewrite ConcurrencyFacts.child_set_same. reflexivity.
    + rewrite ConcurrencyFacts.child_set_same. reflexivity.
  - unfold createUser.
    erewrite reg_turn; [|reflexivity
                        |unfold reg_step; cbn [r_at r_username]; rewrite Hfree;
                         reflexivity].
    cbn [Js.set_at reg_resume r_username r_password r_newId r_fresh].
    erewrite reg_turn; [|reflexivity|reflexivity].
    cbn [Js.set_at reg_resume r_username r_password r_newId r_fresh r_at id
         username].
    erewrite reg_turn;
      [|reflexivity
       |unfold reg_step; cbn [r_at r_username usersRef];
        rewrite username_exists_set; reflexivity].
    cbn. eexists. split; reflexivity.
Qed.

(** X20.  [logout] removes the first session, in key order, whose hash the
    token verifies, and leaves the others.  When no other session verifies
    the token, a [processPayment] with that token that starts afterwards
    returns a failure at its first step and writes nothing. *)
Theorem logout_then_charge (st : Store) (tok key : string) (s : Session) :
  first_match kdf tok (sessionsRef st) = Some (key, s) ->
  (forall kv, In kv (sessionsRef st) ->
              verifyToken kdf tok (tokenHash (snd kv)) = true ->
              fst kv = key) ->
  logout kdf st tok
  = ("Logged out successfully"%string,
     {| usersRef := usersRef st;
        sessionsRef := remove key (sessionsRef st);
        paymentsRef := paymentsRef st |})
  /\ forall now p,
       exists error,
         step kdf (snd (logout kdf st tok)) (processPayment tok now p)
         = (snd (logout kdf st tok), Returned (failure error)).
Proof.
  intros Hfirst Honly.
  assert (Hlog : logout kdf st tok
                 = ("Logged out successfully"%string,
                    {| usersRef := usersRef st;
                       sessionsRef := remove key (sessionsRef st);
                       paymentsRef := paymentsRef st |})).
  { unfold logout. destruct (sessionsRef st) as [|e es] eqn:E;
      [discriminate|]. rewrite Hfirst. reflexivity. }
  split; [exact Hlog|].
  intros now p. rewrite Hlog. cbn [snd]. unfold step, processPayment.
  cbn [at_ token nowMs sessionsRef].
  destruct (remove key (sessionsRef st)) as [|e es] eqn:E.
  - eexists. reflexivity.
  - rewrite <- E. rewrite scan_no_match; [eexists; reflexivity|].
    intros kv Hin. unfold remove in Hin. apply filter_In in Hin.
    destruct Hin as [Hin Hk].
    destruct (verifyToken kdf tok (tokenHash (snd kv))) eqn:Hv; [|reflexivity].
    rewrite (Honly kv Hin Hv), String.eqb_refl in Hk. discriminate.
Qed.

End Kdf.

(** X18 for "alice" on the remote store. *)
Lemma consecutive_charges_alice :
  map succeeded
      (snd (run Sample.kdf [0; 0; 0; 0; 0; 0; 1; 1; 1]%nat Sample.fb_logged_in
                [processPayment Sample.fb_token 30000 "p1";
                 processPayment Sample.fb_token 30001 "p2"]))
  = [true; false].
Proof.
  destruct (consecutive_charges_one_succeeds Sample.kdf Sample.fb_logged_in
              Sample.fb_token 30000 30001 "p1" "p2" _ Sample.fb_alice
              (eq_refl _) (eq_refl _) (eq_refl _) (eq_refl _) (eq_refl _)
              (eq_refl _)) as (st' & E & _).
  rewrite E. reflexivity.
Defined.

(** X19 for two registrations of "bob" on the store that holds "alice". *)
Lemma createUser_twice_bob :
  exists st',
    reg_run Sample.kdf [0; 1; 0; 1]%nat Sample.fb_registered
            [createUser "bob" "pw-one" "u2" "salt-1";
             createUser "bob" "pw-two" "u3" "salt-2"]
    = (st',
       [reg_resume (createUser "bob" "pw-one" "u2" "salt-1")
                   (RegReturned (registered "u2" "bob" {| cents := 800 |}));
        reg_resume (createUser "bob" "pw-two" "u3" "salt-2")
                   (RegReturned (registered "u3" "bob" {| cents := 800 |}))])
    /\ option_map username (child "u2" (usersRef st')) = Some "bob"%string
    /\ option_map username (child "u3" (usersRef st')) = Some "bob"%string.
Proof.
  exact (proj1 (createUser_twice Sample.kdf Sample.fb_registered "bob"
                  "pw-one" "pw-two" "u2" "u3" "salt-1" "salt-2" (eq_refl _)
                  ltac:(discriminate))).
Defined.

(** X20 for "alice" on the remote store: after her logout a payment with
    her token fails at once. *)
Lemma logout_then_charge_alice :
  logout Sample.kdf Sample.fb_logged_in Sample.fb_token
  = ("Logged out successfully"%string, Sample.fb_registered)
  /\ step Sample.kdf Sample.fb_registered
          (processPayment Sample.fb_token 30000 "p1")
     = (Sample.fb_registered, Returned (failure "No active sessions")).
Proof.
  destruct (logout_then_charge Sample.kdf Sample.fb_logged_in Sample.fb_token
              "s1" _ (eq_refl _)) as [Hl Hs].
  - intros kv [<- | []] _. reflexivity.
  - split; [rewrite Hl; reflexivity | reflexivity].
Defined.

End RemoteStoreFacts.
